(** * ISRO lunar DEM phase-1 pipeline: angle interpolation, albedo
    normalisation and shadow segmentation.

    A shallow embedding of [utils/correction.py], [utils/albedo.py],
    [utils/shadow.py] and the configuration handling of [main.py].

    Conventions of the embedding.
    - A [datetime] is the number of whole seconds since 0001-01-01T00:00:00:
      every datetime of the program is built from second-resolution fields
      ([datetime(y, mo, d, h, mi, s)] and [strptime(..., "%Y-%m-%dT%H:%M:%S")]),
      comparison is integer comparison and [(a - b).total_seconds()] is
      integer subtraction.
    - Floating point. The arithmetic of [interp_angle] is a parameter
      ([Arith]): Python's own is IEEE 754 binary64, given by the primitive
      floats ([binary64]); the [float32] arithmetic of the normalisation
      is the standard library's IEEE 754 specification at precision 24
      ([Binary32]). Where a statement does not depend on rounding (which
      branch is taken, which error is raised, what is written when, an
      exact zero) finite values are rationals with exact arithmetic, and
      the IEEE special values appear explicitly where the code can
      produce or receive them ([fval]).
    - A Python exception is a value of [exn]; a call that may raise returns
      [result]. *)

From Stdlib Require Import ZArith QArith Qabs Lia Lqa Sorted Ascii String.
From Stdlib Require Import Floats Uint63.
From stdpp Require Import gmap strings list fin_maps pretty.
From Equations Require Import Equations.

Local Open Scope Z_scope.

#[local] Set Warnings "-inexact-float".

(** ** Python run time *)

Inductive exn : Type :=
| IndexError
| ZeroDivisionError
| KeyError (key : string)
| ValueError
| TypeError
| FileNotFoundError
| RasterioIOError.

Inductive result (A : Type) : Type :=
| Ok (a : A)
| Raise (e : exn).
Arguments Ok {A} a.
Arguments Raise {A} e.

#[global] Instance result_ret : MRet result := fun A a => Ok a.

#[global] Instance result_bind : MBind result := fun A B k r =>
  match r with
  | Ok a => k a
  | Raise e => Raise e
  end.

(** [l[i]] for a non-negative index. *)
Definition getitem {A : Type} (l : list A) (i : nat) : result A :=
  match l !! i with
  | Some a => Ok a
  | None => Raise IndexError
  end.

(** [l[-1]]. *)
Definition getlast {A : Type} (l : list A) : result A :=
  match last l with
  | Some a => Ok a
  | None => Raise IndexError
  end.

(** [d[key]] on a dict. *)
Definition getkey {V : Type} (d : gmap string V) (key : string) : result V :=
  match d !! key with
  | Some v => Ok v
  | None => Raise (KeyError key)
  end.

(** ** Floating-point values

    A float is a finite rational or one of the IEEE special values.
    Arithmetic on finite values is exact; the special values follow the
    IEEE rules numpy applies (a division by zero gives an infinity or a
    NaN with a warning, it does not raise). Signed zeros are not kept
    apart. *)

Inductive fval : Type :=
| Fin (q : Q)
| PInf
| NInf
| NaN.

Definition Qlt_bool (a b : Q) : bool := negb (Qle_bool b a).

(** An infinity, positive or not, times [q]: the infinity of the product
    of the signs, NaN for [q == 0]. *)
Definition inf_times (positive : bool) (q : Q) : fval :=
  if Qeq_bool q 0 then NaN
  else if xorb positive (Qlt_bool 0 q) then NInf else PInf.

Definition fadd (x y : fval) : fval :=
  match x, y with
  | NaN, _ | _, NaN => NaN
  | Fin a, Fin b => Fin (a + b)
  | PInf, NInf | NInf, PInf => NaN
  | PInf, _ | _, PInf => PInf
  | NInf, _ | _, NInf => NInf
  end.

Definition fmul (x y : fval) : fval :=
  match x, y with
  | NaN, _ | _, NaN => NaN
  | Fin a, Fin b => Fin (a * b)
  | PInf, Fin b | Fin b, PInf => inf_times true b
  | NInf, Fin b | Fin b, NInf => inf_times false b
  | PInf, PInf | NInf, NInf => PInf
  | PInf, NInf | NInf, PInf => NInf
  end.

Definition fdiv (x y : fval) : fval :=
  match x, y with
  | NaN, _ | _, NaN => NaN
  | Fin a, Fin b =>
      if Qeq_bool b 0 then inf_times true a else Fin (a / b)
  | Fin _, _ => Fin 0
  | PInf, Fin b => if Qlt_bool b 0 then NInf else PInf
  | NInf, Fin b => if Qlt_bool b 0 then PInf else NInf
  | _, _ => NaN
  end.

(** [x < y], false as soon as an operand is NaN. *)
Definition flt (x y : fval) : bool :=
  match x, y with
  | NaN, _ | _, NaN => false
  | Fin a, Fin b => Qlt_bool a b
  | NInf, NInf | PInf, _ | _, NInf => false
  | NInf, _ | _, PInf => true
  end.

(** [x >= y], false as soon as an operand is NaN. *)
Definition fge (x y : fval) : bool :=
  match x, y with
  | NaN, _ | _, NaN => false
  | Fin a, Fin b => Qle_bool b a
  | PInf, _ | _, NInf => true
  | NInf, _ | _, PInf => false
  end.

(** ** The arithmetic of [float]

    The operations [interp_angle] applies to its values, and the float
    that [timedelta.total_seconds()] returns for a whole number of
    seconds. *)

Class Arith (F : Type) : Type := {
  fl_seconds : Z -> F;
  fl_add : F -> F -> F;
  fl_sub : F -> F -> F;
  fl_mul : F -> F -> F;
  fl_div : F -> F -> F
}.

(** Python's [float]: IEEE 754 binary64, every operation rounded to
    nearest even. A difference of datetimes is below [2 ^ 53] seconds,
    so its conversion is exact. *)
#[global] Instance binary64 : Arith float := {|
  fl_seconds := fun z =>
    if z <? 0 then PrimFloat.opp (PrimFloat.of_uint63 (Uint63.of_Z (- z)))
    else PrimFloat.of_uint63 (Uint63.of_Z z);
  fl_add := PrimFloat.add;
  fl_sub := PrimFloat.sub;
  fl_mul := PrimFloat.mul;
  fl_div := PrimFloat.div
|}.

(** The rationals, without rounding: the idealisation in which the
    Minnaert corrector is modelled. *)
#[global] Instance exact : Arith Q := {|
  fl_seconds := inject_Z;
  fl_add := Qplus;
  fl_sub := Qminus;
  fl_mul := Qmult;
  fl_div := Qdiv
|}.

(** The rational a binary64 value stands for; [None] for an infinity or
    a NaN. *)
Definition float_to_Q (x : float) : option Q :=
  match Prim2SF x with
  | S754_zero _ => Some 0%Q
  | S754_finite s m e =>
      let v := (inject_Z (Z.pos m) * (if 0 <=? e then inject_Z (2 ^ e)
                                      else / inject_Z (2 ^ (- e))))%Q in
      Some (if s then (- v)%Q else v)
  | _ => None
  end.

(** ** IEEE 754 binary32

    numpy's [float32], through the standard library's specification of
    IEEE 754 arithmetic ([SpecFloat]) at precision 24 and maximal
    exponent 128: every operation is rounded to nearest even, overflows
    to an infinity and underflows through the subnormal values. *)

Module Binary32.

Definition prec : Z := 24.
Definition emax : Z := 128.

Definition add : spec_float -> spec_float -> spec_float := SFadd prec emax.
Definition mul : spec_float -> spec_float -> spec_float := SFmul prec emax.
Definition div : spec_float -> spec_float -> spec_float := SFdiv prec emax.
Definition ltb : spec_float -> spec_float -> bool := SFltb.

Definition zero : spec_float := S754_zero false.

(** The largest finite value, [(2 ^ 24 - 1) * 2 ^ 104]. *)
Definition FLT_MAX : spec_float := S754_finite false (2 ^ 24 - 1) 104.

(** [np.float32(x)] for a Python float [x]: the binary64 value rounded
    to binary32. With NumPy 2 a Python float that meets a [float32]
    array or scalar is converted this way before the operation. *)
Definition of_float (x : float) : spec_float :=
  match Prim2SF x with
  | S754_finite s m e => binary_normalize prec emax (cond_Zopp s (Z.pos m)) e s
  | special => special
  end.

End Binary32.

(** ** Rasters

    A band is a grid, the list of its rows. Element-wise operations map
    over it, reductions run over its pixels in row-major order. *)

Abbreviation grid A := (list (list A)) (only parsing).

Definition grid_map {A B : Type} (f : A -> B) (g : grid A) : grid B :=
  List.map (List.map f) g.

Definition grid_zip {A B C : Type} (f : A -> B -> C) (g : grid A) (h : grid B) : grid C :=
  zip_with (zip_with f) g h.

Definition pixels {A : Type} (g : grid A) : list A := concat g.

(** [a.size]. *)
Definition gsize {A : Type} (g : grid A) : nat := length (pixels g).

Definition same_shape {A B : Type} (g : grid A) (h : grid B) : Prop :=
  Forall2 (fun r1 r2 => length r1 = length r2) g h.

Definition Qsum (l : list Q) : Q := foldr Qplus 0%Q l.

Definition fsum (l : list fval) : fval := foldr fadd (Fin 0) l.

(** [np.mean] of an array of finite values; the mean of an empty array is
    NaN. *)
Definition Qmean (l : list Q) : fval :=
  fdiv (Fin (Qsum l)) (Fin (inject_Z (Z.of_nat (length l)))).

(** [np.mean] of an array of floats. *)
Definition fmean (l : list fval) : fval :=
  fdiv (fsum l) (Fin (inject_Z (Z.of_nat (length l)))).

(** ** The configuration

    [config/config.json] as [json.load] returns it: a dict of sections,
    each a dict of numbers; a JSON number is an [int] or a [float]. *)

Inductive jnum : Type :=
| JInt (z : Z)
| JFloat (q : Q).

Definition jnum_Q (n : jnum) : Q :=
  match n with
  | JInt z => inject_Z z
  | JFloat q => q
  end.

Abbreviation config := (gmap string (gmap string jnum)) (only parsing).

(** ** Python strings

    A [str] is a [string] of one-byte characters; the operations below
    are the ones [parse_spm] and [parse_oat] apply to a telemetry line. *)

Module PyStr.

(** [c.isspace()] on the ASCII range: tab, line feed, vertical tab, form
    feed, carriage return, the four separators 0x1c..0x1f and space. *)
Definition isspace (c : ascii) : bool :=
  match c with
  | "009" | "010" | "011" | "012" | "013"
  | "028" | "029" | "030" | "031" | " " => true
  | _ => false
  end%char.

Fixpoint drop (n : nat) (s : string) : string :=
  match n, s with
  | O, _ => s
  | S n', String _ s' => drop n' s'
  | S _, EmptyString => EmptyString
  end.

Fixpoint take (n : nat) (s : string) : string :=
  match n, s with
  | S n', String c s' => String c (take n' s')
  | _, _ => EmptyString
  end.

(** [s[i:j]] for [0 <= i] and [0 <= j]: both ends are clamped to the
    length of [s]. *)
Definition slice (i j : nat) (s : string) : string := take (j - i) (drop i s).

(** [s[-n:]]: the last [n] characters, all of [s] when it is shorter. *)
Definition suffix (n : nat) (s : string) : string :=
  drop (String.length s - n) s.

Fixpoint lstrip (s : string) : string :=
  match s with
  | String c s' => if isspace c then lstrip s' else s
  | EmptyString => EmptyString
  end.

Definition rstrip (s : string) : string := String.rev (lstrip (String.rev s)).

Definition strip (s : string) : string := rstrip (lstrip s).

Fixpoint startswith (p s : string) : bool :=
  match p, s with
  | EmptyString, _ => true
  | String a p', String b s' => if decide (a = b) then startswith p' s' else false
  | String _ _, EmptyString => false
  end.

(** [s.split()]: the maximal runs of non-space characters. [cur] is the
    run being read, reversed. *)
Fixpoint split_go (cur : option string) (s : string) : list string :=
  match s with
  | EmptyString => option_list (String.rev <$> cur)
  | String c s' =>
      if isspace c then option_list (String.rev <$> cur) ++ split_go None s'
      else split_go (Some (String c (default EmptyString cur))) s'
  end.

Definition split (s : string) : list string := split_go None s.

(** The value of an ASCII decimal digit, codes 48 to 57. *)
Definition digit (c : ascii) : option Z :=
  let code := Z.of_nat (nat_of_ascii c) in
  if (48 <=? code) && (code <=? 57) then Some (code - 48) else None.

(** The digit part of an integer literal: decimal digits, with single
    underscores allowed between two digits. [after_digit] tells whether
    the previous character was a digit. *)
Fixpoint digits (acc : Z) (after_digit : bool) (s : string) : option Z :=
  match s with
  | EmptyString => if after_digit then Some acc else None
  | String c s' =>
      match digit c with
      | Some d => digits (10 * acc + d) true s'
      | None =>
          if decide (c = "_"%char) then
            if after_digit then digits acc false s' else None
          else None
      end
  end.

(** [int(s)] in base 10: surrounding white space is ignored, then an
    optional sign and the digit part; anything else is a [ValueError]. *)
Definition int (s : string) : result Z :=
  let body :=
    match strip s with
    | String "+" r => digits 0 false r
    | String "-" r => Z.opp <$> digits 0 false r
    | r => digits 0 false r
    end in
  match body with
  | Some z => Ok z
  | None => Raise ValueError
  end.

(** [str(n)] for an [int]. *)
Definition str (n : Z) : string := pretty n.

(** [Path(p).name] and [Path(p).stem] for a POSIX path: the last
    component, and that component without its last suffix (a leading or
    a trailing dot starts no suffix). *)
Fixpoint until (c : ascii) (s : string) : string :=
  match s with
  | EmptyString => EmptyString
  | String a s' => if decide (a = c) then EmptyString else String a (until c s')
  end.

Fixpoint find (c : ascii) (s : string) : option nat :=
  match s with
  | EmptyString => None
  | String a s' => if decide (a = c) then Some O else S <$> find c s'
  end.

Definition path_name (p : string) : string :=
  String.rev (until "/" (String.rev p)).

Definition path_stem (p : string) : string :=
  let n := path_name p in
  let r := String.rev n in
  match find "." r with
  | Some j =>
      if (0 <? j)%nat && (j <? String.length n - 1)%nat
      then String.rev (drop (S j) r) else n
  | None => n
  end.

(** A sample instance of [float(s)], used to run the parsers on concrete
    lines: plain decimal literals, [[sign] digits [. digits]], on which it
    agrees with Python. *)
Fixpoint plain_digits (acc : Z) (s : string) : option Z :=
  match s with
  | EmptyString => Some acc
  | String c s' =>
      match digit c with
      | Some d => plain_digits (10 * acc + d) s'
      | None => None
      end
  end.

Fixpoint split_dot (s : string) : string * option string :=
  match s with
  | EmptyString => (EmptyString, None)
  | String c s' =>
      if decide (c = "."%char) then (EmptyString, Some s')
      else let '(i, f) := split_dot s' in (String c i, f)
  end.

Definition float_decimal (s : string) : result Q :=
  let '(neg, body) :=
    match strip s with
    | String "-" r => (true, r)
    | String "+" r => (false, r)
    | r => (false, r)
    end in
  let '(ip, fp) := split_dot body in
  let fp := default EmptyString fp in
  if (String.length ip + String.length fp =? 0)%nat then Raise ValueError
  else match plain_digits 0 ip, plain_digits 0 fp with
       | Some i, Some f =>
           let q := (inject_Z i + inject_Z f / inject_Z (10 ^ Z.of_nat (String.length fp)))%Q in
           Ok (Qred (if neg then - q else q))
       | _, _ => Raise ValueError
       end.

(** [s.split(sep)] for a one-character separator: every occurrence
    cuts, empty pieces are kept, and the empty string gives one empty
    piece. *)
Fixpoint split_on (sep : ascii) (s : string) : list string :=
  match s with
  | EmptyString => [EmptyString]
  | String c s' =>
      if decide (c = sep) then EmptyString :: split_on sep s'
      else match split_on sep s' with
           | piece :: pieces => String c piece :: pieces
           | [] => [String c EmptyString]
           end
  end.

(** [sep.join(pieces)]. *)
Fixpoint join (sep : string) (pieces : list string) : string :=
  match pieces with
  | [] => EmptyString
  | [piece] => piece
  | piece :: pieces' => piece +:+ sep +:+ join sep pieces'
  end.

End PyStr.

Module Correction.

Abbreviation datetime := Z (only parsing).

(** *** [datetime(year, month, day, hour, minute, second)] *)

Definition is_leap (year : Z) : bool :=
  (year mod 4 =? 0) && (negb (year mod 100 =? 0) || (year mod 400 =? 0)).

Definition days_before_year (year : Z) : Z :=
  let y := year - 1 in y * 365 + y / 4 - y / 100 + y / 400.

Definition days_in_month (year month : Z) : Z :=
  if (month =? 2) && is_leap year then 29
  else nth (Z.to_nat month) [0; 31; 28; 31; 30; 31; 30; 31; 31; 30; 31; 30; 31] 0.

Definition days_before_month (year month : Z) : Z :=
  nth (Z.to_nat month) [0; 0; 31; 59; 90; 120; 151; 181; 212; 243; 273; 304; 334] 0
  + (if (2 <? month) && is_leap year then 1 else 0).

(** The constructor checks every field and raises [ValueError] on one out
    of range; the value is the second count from 0001-01-01T00:00:00. *)
Definition mk_datetime (year month day hour minute second : Z) : result datetime :=
  if (1 <=? year) && (year <=? 9999) && (1 <=? month) && (month <=? 12)
     && (1 <=? day) && (day <=? days_in_month year month)
     && (0 <=? hour) && (hour <=? 23) && (0 <=? minute) && (minute <=? 59)
     && (0 <=? second) && (second <=? 59)
  then Ok ((((days_before_year year + days_before_month year month + day - 1) * 24
             + hour) * 60 + minute) * 60 + second)
  else Raise ValueError.

(** *** Telemetry parsing

    [float] is Python's [float(str)], kept abstract: it returns a finite
    value or raises (the literals [nan] and [inf] are outside the model). *)

Section Telemetry.
Variable float : string -> result Q.

(** The timestamp fields of a record, columns 14 to 42. *)
Definition record_time (line : string) : result datetime :=
  y ← PyStr.int (PyStr.strip (PyStr.slice 14 22 line));
  y4 ← PyStr.int (PyStr.suffix 4 (PyStr.str y));
  let year := 2000 + y4 in
  month ← PyStr.int (PyStr.strip (PyStr.slice 22 26 line));
  day ← PyStr.int (PyStr.strip (PyStr.slice 26 30 line));
  hour ← PyStr.int (PyStr.strip (PyStr.slice 30 34 line));
  minute ← PyStr.int (PyStr.strip (PyStr.slice 34 38 line));
  second ← PyStr.int (PyStr.strip (PyStr.slice 38 42 line));
  mk_datetime year month day hour minute second.

(** The body of the [try] block of [parse_spm]: the sun elevation is the
    last white-space separated field. *)
Definition spm_record (line : string) : result (datetime * Q) :=
  dt ← record_time line;
  field ← getlast (PyStr.split (PyStr.strip line));
  sun_el ← float field;
  Ok (dt, sun_el).

(** The body of the [try] block of [parse_oat]: the emission angle is in
    columns 233 to 242. *)
Definition oat_record (line : string) : result (datetime * Q) :=
  dt ← record_time line;
  emis_angle ← float (PyStr.strip (PyStr.slice 233 242 line));
  Ok (dt, emis_angle).

(** A record is valid when it carries the tag and its [try] block
    returns; its sample is what the block computes. *)
Definition valid_sample (record : string -> result (datetime * Q)) (line : string)
  : option (datetime * Q) :=
  if PyStr.startswith "ORBTATTD" line then
    match record line with
    | Ok p => Some p
    | Raise _ => None
    end
  else None.

(** One turn of [for line in f]: a line without the record tag is skipped,
    a line whose [try] block raises is skipped by the bare [except], and
    otherwise both lists are appended to. *)
Definition parse_step (record : string -> result (datetime * Q))
    (acc : list datetime * list Q) (line : string) : list datetime * list Q :=
  if negb (PyStr.startswith "ORBTATTD" line) then acc
  else match record line with
       | Ok (dt, v) => (acc.1 ++ [dt], acc.2 ++ [v])
       | Raise _ => acc
       end.

Definition parse_spm (lines : list string) : list datetime * list Q :=
  foldl (parse_step spm_record) ([], []) lines.

Definition parse_oat (lines : list string) : list datetime * list Q :=
  foldl (parse_step oat_record) ([], []) lines.

(** The label of a scene as [fallback_angles] sees it: the file may be
    absent, [ET.parse] may raise, and otherwise each of the two elements
    is absent or present with its text ([None] for an empty element). *)
Inductive xml_label : Type :=
| LabelAbsent
| LabelUnreadable
| Label (solar_incidence sun_elevation : option (option string)).

(** [float(el.text)]: a [TypeError] on an element without text is caught
    by the same bare [except] as a [ValueError]. *)
Definition float_text (text : option string) : result Q :=
  match text with
  | Some t => float t
  | None => Raise ValueError
  end.

Definition fallback_angles (xml : xml_label) (default_emission : Q) : Q * Q :=
  match xml with
  | LabelAbsent => (45, default_emission)%Q
  | LabelUnreadable => (45, default_emission)%Q
  | Label inc_el selev_el =>
      let incidence :=
        match inc_el, selev_el with
        | Some text, _ => float_text text
        | None, Some text => e ← float_text text; Ok (90 - e)%Q
        | None, None => Ok 45%Q
        end in
      match incidence with
      | Ok i => (i, default_emission)
      | Raise _ => (45, default_emission)%Q
      end
  end.

End Telemetry.

(** *** Interpolation *)

(** [mid = (lo + hi) // 2]. *)
Definition midpoint (lo hi : nat) : nat := ((lo + hi) / 2)%nat.
Arguments midpoint : simpl never.

(** [bisect.bisect_left(a, x)]: the loop of the standard library,
<<
    while lo < hi:
        mid = (lo + hi) // 2
        if a[mid] < x: lo = mid + 1
        else: hi = mid
    return lo
>> *)
Equations? bisect_loop (a : list datetime) (x : datetime) (lo hi : nat)
  : result nat by wf (hi - lo)%nat lt :=
  bisect_loop a x lo hi with decide (lo < hi)%nat => {
    | right _ := Ok lo
    | left _ with getitem a (midpoint lo hi) => {
        | Raise e := Raise e
        | Ok y with decide (y < x) => {
            | left _ := bisect_loop a x (S (midpoint lo hi)) hi
            | right _ := bisect_loop a x lo (midpoint lo hi) } } }.
Proof.
  all: assert (lo <= midpoint lo hi < hi)%nat
    by (unfold midpoint; split;
        [apply Nat.div_le_lower_bound|apply Nat.Div0.div_lt_upper_bound]; lia).
  all: lia.
Qed.

Definition bisect_left (a : list datetime) (x : datetime) : result nat :=
  bisect_loop a x 0 (length a).

(** [frac = (image_time - t0).total_seconds() / (t1 - t0).total_seconds()]:
    a float division, which raises on a zero divisor. *)
Definition seconds_ratio {F : Type} `{Arith F} (num den : Z) : result F :=
  if decide (den = 0) then Raise ZeroDivisionError
  else Ok (fl_div (fl_seconds num) (fl_seconds den)).

(** [interp_angle], in the arithmetic [F] of its values; the last line is
    [return v0 + frac * (v1 - v0)]. *)
Definition interp_angle {F : Type} `{Arith F} (image_time : datetime)
    (times : list datetime) (values : list F) : result F :=
  idx ← bisect_left times image_time;
  if decide (idx = 0%nat) then getitem values 0
  else if decide (length times <= idx)%nat then getlast values
  else
    t0 ← getitem times (idx - 1);
    t1 ← getitem times idx;
    v0 ← getitem values (idx - 1);
    v1 ← getitem values idx;
    frac ← seconds_ratio (image_time - t0) (t1 - t0);
    Ok (fl_add v0 (fl_mul frac (fl_sub v1 v0))).

(** *** The Minnaert corrector

    [np.cos(np.deg2rad(x))], [x ** y], [np.std] and [np.mean] are
    numpy's; they stay abstract (the last two are rounded sums, whose
    value depends on the order numpy adds in). A raster band is the list of its pixels in row-major order:
    every operation of the corrector is element-wise or a reduction. *)

Section Minnaert.
Variable float : string -> result Q.
Variable np_cos_deg : Q -> Q.
Variable np_power : Q -> Q -> Q.
Variable np_std : list Q -> Q.
Variable np_mean : list Q -> Q.

Definition Qmax (a b : Q) : Q := if Qle_bool b a then a else b.
Definition Qmin (a b : Q) : Q := if Qle_bool a b then a else b.

(** [np.min] and [np.max] raise [ValueError] on an empty array. *)
Definition np_min (a : list Q) : result Q :=
  match a with
  | [] => Raise ValueError
  | x :: a' => Ok (foldl Qmin x a')
  end.

Definition np_max (a : list Q) : result Q :=
  match a with
  | [] => Raise ValueError
  | x :: a' => Ok (foldl Qmax x a')
  end.

(** What a scene is on disk: the path of its level-0 crop, the outcome of
    reading band 1 of it, and its label. *)
Record scene : Type := {
  tif_path : string;
  band : result (list Q);
  label : xml_label
}.

(** The fields of [self] that [process_one] reads. *)
Record corrector : Type := {
  meta : gmap string Z;
  oat_times : list Z;
  emis_vals : list Q;
  spm_times : list Z;
  sunel_vals : list Q;
  dark : Q;
  gain : Q;
  k : Q
}.

Record stats : Type := {
  s_file : string;
  s_incidence : Q;
  s_emission : Q;
  s_min : Q;
  s_max : Q;
  s_mean : Q;
  s_std : Q
}.

(** What a run leaves behind, in the order it happens. *)
Inductive event : Type :=
| AnglesJson (stem : string) (incidence emission : Q) (source : string)
| RasterWritten (name : string) (pixels : list Q)
| LogProcessed (name : string)
| LogAngles (incidence emission : Q)
| LogStats (s : stats)
| LogError (name : string) (e : exn)
| CsvRow (s : stats)
| JsonLine (s : stats).

(** Geometry of a scene: interpolation when both series are non-empty and
    neither call raises, the label-based fallback otherwise. *)
Definition scene_angles (c : corrector) (img_time : Z) (xml : xml_label) : Q * Q :=
  if bool_decide (spm_times c <> []) && bool_decide (oat_times c <> []) then
    match (sun_el ← interp_angle img_time (spm_times c) (sunel_vals c);
           em ← interp_angle img_time (oat_times c) (emis_vals c);
           Ok ((90 - sun_el)%Q, em)) with
    | Ok p => p
    | Raise _ => fallback_angles float xml 10
    end
  else fallback_angles float xml 10.

Definition angle_source (c : corrector) : string :=
  if bool_decide (spm_times c <> []) && bool_decide (oat_times c <> [])
  then "interpolated_from_spm_oat" else "fallback_from_xml".

(** [arr_if = clip((dn - dark) * gain, 0, None) * mu0 ** (-k) * mu ** (k - 1)]. *)
Definition minnaert (c : corrector) (mu0 mu : Q) (dn : list Q) : list Q :=
  (fun d => Qmax ((d - dark c) * gain c) 0
            * np_power mu0 (- k c) * np_power mu (k c - 1))%Q <$> dn.

(** [process_one]: the events it leaves and what it returns or raises.
    Writing a file is taken to succeed. *)
Definition process_one (c : corrector) (sc : scene) : list event * result stats :=
  let stem := PyStr.path_stem (tif_path sc) in
  match meta c !! stem with
  | None => ([], Raise (KeyError ("No start_time for " +:+ stem)))
  | Some img_time =>
      let '(inc, em) := scene_angles c img_time (label sc) in
      let ev1 := [AnglesJson stem inc em (angle_source c)] in
      let mu0 := Qmax (np_cos_deg inc) (1 # 1000000) in
      let mu := Qmax (np_cos_deg em) (1 # 1000000) in
      match band sc with
      | Raise e => (ev1, Raise e)
      | Ok dn =>
          let arr_if := minnaert c mu0 mu dn in
          let out := stem +:+ "_if.tif" in
          let ev2 := ev1 ++ [RasterWritten out arr_if] in
          match np_min arr_if, np_max arr_if with
          | Ok lo, Ok hi =>
              let s := {| s_file := out; s_incidence := inc; s_emission := em;
                          s_min := lo; s_max := hi; s_mean := np_mean arr_if;
                          s_std := np_std arr_if |} in
              (ev2 ++ [LogProcessed out; LogAngles inc em; LogStats s], Ok s)
          | Raise e, _ => (ev2, Raise e)
          | _, Raise e => (ev2, Raise e)
          end
      end
  end.

(** One turn of the loop of [run]: [try: ... except Exception as e: log]. *)
Definition run_step (c : corrector) (acc : list event * list stats) (sc : scene)
  : list event * list stats :=
  let '(ev, r) := process_one c sc in
  match r with
  | Ok s => (acc.1 ++ ev ++ [CsvRow s; JsonLine s], acc.2 ++ [s])
  | Raise e => (acc.1 ++ ev ++ [LogError (PyStr.path_name (tif_path sc)) e], acc.2)
  end.

(** [run] over the level-0 crops, given in the order of [sorted(glob)];
    the result is the trace of events and [all_stats]. *)
Definition run (c : corrector) (scenes : list scene) : list event * list stats :=
  foldl (run_step c) ([], []) scenes.

(** What one scene adds to the trace and to [all_stats], for the
    statements about [run]. *)
Definition scene_events (c : corrector) (sc : scene) : list event :=
  (process_one c sc).1 ++
  match (process_one c sc).2 with
  | Ok s => [CsvRow s; JsonLine s]
  | Raise e => [LogError (PyStr.path_name (tif_path sc)) e]
  end.

Definition scene_stats (c : corrector) (sc : scene) : list stats :=
  match (process_one c sc).2 with
  | Ok s => [s]
  | Raise _ => []
  end.

(** A row of the metadata catalogue: the file name, and the outcome of
    [strptime] on the first 19 characters of its start time. *)
Record meta_row : Type := {
  file_name : string;
  start_time : result Z
}.

(** The files [MinnaertCorrector.__init__] and [run] read: the two
    catalogues and the telemetry files ([None] when absent), and the
    level-0 crops. *)
Record workspace : Type := {
  metadata_catalog : option (list meta_row);
  metadata_catalog_cropped : option (list meta_row);
  oat_file : option (list string);
  spm_file : option (list string);
  level0 : list scene
}.

(** The loop filling [self.meta]: a later row replaces an earlier one
    with the same stem; a start time that does not parse raises. *)
Fixpoint read_meta (m : gmap string Z) (rows : list meta_row) : result (gmap string Z) :=
  match rows with
  | [] => Ok m
  | row :: rows' =>
      t ← start_time row;
      read_meta (<[PyStr.path_stem (file_name row) := t]> m) rows'
  end.

Definition init (metadata_csv : option (list meta_row))
    (oat spm : option (list string)) (dark_current gain_ k_exponent : Q)
  : result corrector :=
  rows ← match metadata_csv with
         | Some rows => Ok rows
         | None => Raise FileNotFoundError
         end;
  m ← read_meta ∅ rows;
  let '(ot, ev) := match oat with Some l => parse_oat float l | None => ([], []) end in
  let '(st, sv) := match spm with Some l => parse_spm float l | None => ([], []) end in
  Ok {| meta := m; oat_times := ot; emis_vals := ev; spm_times := st;
        sunel_vals := sv; dark := dark_current; gain := gain_; k := k_exponent |}.

Inductive process_mode : Type := Original | Crop | Both.

(** [run_minnaert_correction]: the three constants are read while the
    arguments of the constructor are evaluated, before it runs. *)
Definition run_minnaert_correction (w : workspace) (mode : process_mode)
    (cfg : config) : result (list event * list stats) :=
  correction_config ← getkey cfg "minnaert";
  let metadata_csv :=
    match mode with
    | Crop => metadata_catalog_cropped w
    | _ => metadata_catalog w
    end in
  dark_current ← getkey correction_config "dark_current";
  gain_ ← getkey correction_config "gain";
  k_exponent ← getkey correction_config "k_exponent";
  c ← init metadata_csv (oat_file w) (spm_file w)
         (jnum_Q dark_current) (jnum_Q gain_) (jnum_Q k_exponent);
  Ok (run c (level0 w)).

End Minnaert.

End Correction.

(** ** [utils/albedo.py]

    [Albedo] is the normalisation without rounding, on [fval]: it decides
    what happens on a raster that is all-zero. [AlbedoFloat32] after it is
    the normalisation in the [float32] arithmetic of the array. *)

Module Albedo.

(** The largest finite [float32], [(2 - 2^-23) * 2^127]. *)
Definition FLT_MAX : Q := inject_Z (2 ^ 128 - 2 ^ 104).

(** [np.nan_to_num(arr, nan=0.0)] on a [float32] array: NaN becomes 0,
    an infinity becomes the largest finite value of its sign. *)
Definition nan_to_num (x : fval) : Q :=
  match x with
  | Fin q => q
  | NaN => 0
  | PInf => FLT_MAX
  | NInf => - FLT_MAX
  end.

(** [arr[arr < 0] = 0]. *)
Definition clip_negative (q : Q) : Q := if Qlt_bool q 0 then 0 else q.

Definition sanitize (g : grid fval) : grid Q :=
  grid_map (fun x => clip_negative (nan_to_num x)) g.

(** [albedo_trend[albedo_trend < 1e-6] = 1e-6]. *)
Definition floor_trend (t : Q) : Q :=
  if Qlt_bool t (1 # 1000000) then 1 # 1000000 else t.

Section Normalize.
(** [scipy.ndimage.gaussian_filter(arr, sigma=sigma)], kept abstract. *)
Variable gaussian_filter : grid Q -> Q -> grid Q.

(** The numerical part of [normalize_and_visualize]: the raster written
    to the output file. *)
Definition normalize_and_visualize (g : grid fval) (sigma : Q) : grid fval :=
  let arr := sanitize g in
  let albedo_trend := grid_map floor_trend (gaussian_filter arr sigma) in
  let arr_norm := grid_zip Qdiv arr albedo_trend in
  let scale := fdiv (Fin (1 # 10)) (Qmean (pixels arr_norm)) in
  grid_map (fun x => fmul (Fin x) scale) arr_norm.

(** [run_albedo_correction]: [sigma] is read from the configuration, the
    input raster is read (or the read raises) and the result written. *)
Definition run_albedo_correction (input : result (grid fval)) (cfg : config)
  : result (grid fval) :=
  albedo ← getkey cfg "albedo";
  sigma ← getkey albedo "sigma";
  g ← input;
  Ok (normalize_and_visualize g (jnum_Q sigma)).

End Normalize.
End Albedo.

(** The same lines, 37 to 45, in the arithmetic of the array: [arr] is
    [float32] from line 35 on and so is everything computed from it
    (NumPy 2: the Python constants [0], [1e-6] and [0.1] take the type of
    the [float32] operand they meet). [Albedo] above is its
    idealisation without rounding. *)

Module AlbedoFloat32.

(** [np.nan_to_num(arr, nan=0.0)]. *)
Definition nan_to_num (x : spec_float) : spec_float :=
  match x with
  | S754_nan => Binary32.zero
  | S754_infinity s => if s then SFopp Binary32.FLT_MAX else Binary32.FLT_MAX
  | finite => finite
  end.

(** [arr[arr < 0] = 0]. *)
Definition clip_negative (x : spec_float) : spec_float :=
  if Binary32.ltb x Binary32.zero then Binary32.zero else x.

Definition sanitize (g : grid spec_float) : grid spec_float :=
  grid_map (fun x => clip_negative (nan_to_num x)) g.

(** [albedo_trend[albedo_trend < 1e-6] = 1e-6]. *)
Definition floor_trend (t : spec_float) : spec_float :=
  if Binary32.ltb t (Binary32.of_float 1e-6) then Binary32.of_float 1e-6 else t.

Section Normalize.
(** [scipy.ndimage.gaussian_filter(arr, sigma=sigma)] and [np.mean],
    which returns a [float32] for a [float32] array; both kept abstract. *)
Variable gaussian_filter : grid spec_float -> Q -> grid spec_float.
Variable np_mean : list spec_float -> spec_float.

(** The raster written to the output file. *)
Definition normalize_and_visualize (g : grid spec_float) (sigma : Q) : grid spec_float :=
  let arr := sanitize g in
  let albedo_trend := grid_map floor_trend (gaussian_filter arr sigma) in
  let arr_norm := grid_zip Binary32.div arr albedo_trend in
  let scale := Binary32.div (Binary32.of_float 0.1) (np_mean (pixels arr_norm)) in
  grid_map (fun x => Binary32.mul x scale) arr_norm.

End Normalize.
End AlbedoFloat32.

(** ** [utils/shadow.py] *)

Module Shadow.

(** *** Binary morphology ([scipy.ndimage])

    The structuring element is [generate_binary_structure(2, 2)], the
    full 3 x 3 square, given by the offsets of its cells from the centre.
    Pixels outside the image count as [border_value], which is 0. *)

Definition STRUCT : list (Z * Z) :=
  [(-1, -1); (-1, 0); (-1, 1); (0, -1); (0, 0); (0, 1); (1, -1); (1, 0); (1, 1)].

Definition pixel (m : grid bool) (i j : Z) : bool :=
  if (i <? 0) || (j <? 0) then false
  else match m !! Z.to_nat i with
       | Some row => default false (row !! Z.to_nat j)
       | None => false
       end.

(** One pass with a function of the position. *)
Definition at_each (f : Z -> Z -> bool) (m : grid bool) : grid bool :=
  imap (fun i row => imap (fun j _ => f (Z.of_nat i) (Z.of_nat j)) row) m.

(** One erosion: a pixel stays set when the structure, centred on it,
    lies within the set pixels. *)
Definition erode (m : grid bool) : grid bool :=
  at_each (fun i j => forallb (fun d => pixel m (i + d.1) (j + d.2)) STRUCT) m.

(** One dilation: a pixel is set when the reflected structure, centred
    on it, meets a set pixel. *)
Definition dilate (m : grid bool) : grid bool :=
  at_each (fun i j => existsb (fun d => pixel m (i - d.1) (j - d.2)) STRUCT) m.

(** Repetition until the pass changes nothing, with [fuel] passes at most. *)
Fixpoint until_stable (fuel : nat) (op : grid bool -> grid bool) (m : grid bool)
  : grid bool :=
  match fuel with
  | O => m
  | S fuel' =>
      let m' := op m in
      if decide (m' = m) then m' else until_stable fuel' op m'
  end.

(** The number of pixels with the value [v]. *)
Definition count (v : bool) (m : list (list bool)) : nat :=
  length (filter (fun b => b = v) (pixels m)).

(** [iterations] passes; below 1 the pass is repeated until the result
    no longer changes, which takes at most one pass per pixel, and one
    more to see it. *)
Definition repeated (op : grid bool -> grid bool) (iterations : Z) (m : grid bool)
  : grid bool :=
  if 1 <=? iterations then Nat.iter (Z.to_nat iterations) op m
  else until_stable (S (gsize m)) op m.

Definition binary_erosion (m : grid bool) (iterations : Z) : grid bool :=
  repeated erode iterations m.

Definition binary_dilation (m : grid bool) (iterations : Z) : grid bool :=
  repeated dilate iterations m.

Definition binary_opening (m : grid bool) (iterations : Z) : grid bool :=
  binary_dilation (binary_erosion m iterations) iterations.

Definition binary_closing (m : grid bool) (iterations : Z) : grid bool :=
  binary_erosion (binary_dilation m iterations) iterations.

(** *** Shadow detection *)

(** The constants [run_shadow_detection] reads from [config["shadow"]],
    as the loop uses them. *)
Record constants : Type := {
  SUN_EL_THRESHOLD : Q;
  ABS_IF_THRESHOLD : Q;
  THRESHOLD_FACTOR : Q;
  MIN_IF_VALID : Q;
  MORPH_ITERS : Z
}.

Inductive branch : Type :=
| SunLow (sun_el : Q)
| Adaptive (mean_if rel_thr : fval).

(** [sun_elevations.get(stem, 45.0)]. *)
Definition sun_elevation (sun_elevations : gmap string Q) (stem : string) : Q :=
  default 45%Q (sun_elevations !! stem).

(** The mask before the cleanup, and the branch that made it. *)
Definition threshold (k : constants) (sun_el : Q) (arr : grid fval)
  : grid bool * branch :=
  if Qlt_bool sun_el (SUN_EL_THRESHOLD k) then
    (grid_map (fun _ => true) arr, SunLow sun_el)
  else
    let valid := filter (fun x => fge x (Fin (MIN_IF_VALID k)) = true) (pixels arr) in
    let mean_if := match valid with [] => Fin 0 | _ => fmean valid end in
    let rel_thr := fmul (Fin (THRESHOLD_FACTOR k)) mean_if in
    (grid_map (fun x => flt x (Fin (ABS_IF_THRESHOLD k)) || flt x rel_thr) arr,
     Adaptive mean_if rel_thr).

Definition cleanup (k : constants) (mask : grid bool) : grid bool :=
  binary_closing (binary_opening mask (MORPH_ITERS k)) (MORPH_ITERS k).

(** [mask.astype(np.uint8)]. *)
Definition as_uint8 (mask : grid bool) : grid Z :=
  grid_map (fun b : bool => if b then 1 else 0) mask.

(** [100.0 * mask.sum() / mask.size]. *)
Definition coverage (mask : grid bool) : fval :=
  fdiv (Fin (100 * inject_Z (Z.of_nat (length (filter (fun b => b = true) (pixels mask))))))
       (Fin (inject_Z (Z.of_nat (gsize mask)))).

Record segmentation : Type := {
  mask : grid bool;
  written : grid Z;
  shadow_pct : fval;
  reason : branch
}.

(** One turn of the loop of [run_shadow_detection], for the scene [stem]
    with normalised raster [arr]. *)
Definition segment (k : constants) (sun_elevations : gmap string Q)
    (stem : string) (arr : grid fval) : segmentation :=
  let sun_el := sun_elevation sun_elevations stem in
  let '(raw, why) := threshold k sun_el arr in
  let m := cleanup k raw in
  {| mask := m; written := as_uint8 m; shadow_pct := coverage m; reason := why |}.

(** [iterations] has to be an [int]: scipy raises [TypeError] otherwise,
    at the first call. *)
Definition jnum_index (n : jnum) : result Z :=
  match n with
  | JInt z => Ok z
  | JFloat _ => Raise TypeError
  end.

(** [load_sun_elevation], on the rows of the metadata catalogue: the stem
    of the file name and the outcome of [float(row['sun_elevation'])]. *)
Fixpoint load_sun_elevation (sun_el : gmap string Q)
    (rows : list (string * result Q)) : result (gmap string Q) :=
  match rows with
  | [] => Ok sun_el
  | (file_name, elevation) :: rows' =>
      e ← elevation;
      load_sun_elevation (<[PyStr.path_stem file_name := e]> sun_el) rows'
  end.

(** [run_shadow_detection]: the constants, the table, then the loop over
    the normalised rasters (stem and outcome of the read, in the order of
    [sorted(glob)]). An exception leaves the function; the result lists
    what the loop computed for each scene. *)
Definition run_shadow_detection (cfg : config)
    (metadata_csv : option (list (string * result Q)))
    (scenes : list (string * result (grid fval)))
  : result (list (string * segmentation)) :=
  shadow ← getkey cfg "shadow";
  sun ← getkey shadow "sun_el_threshold";
  abs ← getkey shadow "abs_if_threshold";
  factor ← getkey shadow "threshold_factor";
  valid ← getkey shadow "min_if_valid";
  iters ← getkey shadow "morph_iters";
  rows ← match metadata_csv with
         | Some rows => Ok rows
         | None => Raise FileNotFoundError
         end;
  sun_elevations ← load_sun_elevation ∅ rows;
  mapM (fun '(stem, read) =>
          arr ← read;
          n ← jnum_index iters;
          Ok (stem,
              segment {| SUN_EL_THRESHOLD := jnum_Q sun; ABS_IF_THRESHOLD := jnum_Q abs;
                         THRESHOLD_FACTOR := jnum_Q factor; MIN_IF_VALID := jnum_Q valid;
                         MORPH_ITERS := n |}
                      sun_elevations stem arr))
       scenes.

End Shadow.

(** ** [utils/data_importer.py] *)

Module DataImporter.

(** The first [n] characters of [s] are there and are decimal digits. *)
Fixpoint digits_at (n : nat) (s : string) : bool :=
  match n, s with
  | O, _ => true
  | S n', String c s' => bool_decide (is_Some (PyStr.digit c)) && digits_at n' s'
  | S _, EmptyString => false
  end.

(** [re.search(r'(\d{8})', s)]: the leftmost run of eight digits. *)
Fixpoint search_date (s : string) : option string :=
  if digits_at 8 s then Some (PyStr.take 8 s)
  else match s with
       | String _ s' => search_date s'
       | EmptyString => None
       end.

Definition extract_date_from_name (root_dir_name : string) : result string :=
  match search_date root_dir_name with
  | Some date => Ok date
  | None => Raise ValueError
  end.

End DataImporter.

(** ** Dictionaries and [csv]

    A [dict] with [str] keys is an association list in insertion order;
    a value is a [str] or [None]. *)

Module PyDict.

Definition t : Type := list (string * option string).

(** [d[key] = value]: an existing key keeps its place. *)
Fixpoint setitem (key : string) (value : option string) (d : t) : t :=
  match d with
  | [] => [(key, value)]
  | (k, v) :: d' =>
      if decide (k = key) then (key, value) :: d' else (k, v) :: setitem key value d'
  end.

(** [d.get(key)], with [None] of the outer option for an absent key. *)
Fixpoint get (key : string) (d : t) : option (option string) :=
  match d with
  | [] => None
  | (k, v) :: d' => if decide (k = key) then Some v else get key d'
  end.

Definition keys (d : t) : list string := d.*1.

(** [dict(zip(names, values))]. *)
Definition of_zip (names : list string) (values : list (option string)) : t :=
  foldl (fun d p => setitem p.1 p.2 d) [] (zip names values).

End PyDict.

(** A csv file is the list of its records, each the list of its fields:
    the writer and the reader of the default dialect agree on them, and
    the writer puts the empty field for [None]. *)

Module Csv.

Definition file : Type := list (list string).

(** A row of [csv.DictReader], or a dict given to [csv.DictWriter]: the
    named fields, and under the key [None] (the default [restkey]) the
    fields a record has beyond the header. *)
Record row : Type := { named : PyDict.t; rest : option (list string) }.

(** [DictWriter._dict_to_list] with [extrasaction="raise"] and
    [restval=""]: a key outside [fieldnames] is a [ValueError]; the
    record has one field per field name. *)
Definition dict_to_list (fieldnames : list string) (rowdict : row) : result (list string) :=
  let wrong_fields := filter (fun k => k ∉ fieldnames) (PyDict.keys (named rowdict)) in
  match wrong_fields, rest rowdict with
  | [], None =>
      Ok ((fun key =>
             match PyDict.get key (named rowdict) with
             | Some (Some text) => text
             | Some None => EmptyString
             | None => EmptyString
             end) <$> fieldnames)
  | _, _ => Raise ValueError
  end.

(** [DictWriter.writeheader]. *)
Definition writeheader (fieldnames : list string) : result (list string) :=
  dict_to_list fieldnames
    {| named := PyDict.of_zip fieldnames (Some <$> fieldnames); rest := None |}.

(** The dict [DictReader.__next__] builds from a record. *)
Definition read_row (fieldnames : list string) (record : list string) : row :=
  let d := PyDict.of_zip fieldnames (Some <$> record) in
  let lf := length fieldnames in
  let lr := length record in
  if (lf <? lr)%nat then {| named := d; rest := Some (drop lf record) |}
  else {| named := foldl (fun d key => PyDict.setitem key None d) d (drop lr fieldnames);
          rest := None |}.

(** [reader.fieldnames]: the first record, [None] for an empty file. *)
Definition fieldnames (f : file) : option (list string) := head f.

(** The rows [for row in reader] goes through: blank records are skipped. *)
Definition rows (f : file) : list row :=
  match f with
  | [] => []
  | header :: records =>
      read_row header <$> filter (fun record => record <> []) records
  end.

End Csv.

(** ** [utils/meta_extc.py] *)

Module MetaExtc.

(** The keys of [meta] with the paths [extract_metadata] looks up, in
    the order of the assignments. *)
Definition columns : list (string * string) :=
  [("file_name", ".//pds:file_name");
   ("md5", ".//pds:md5_checksum");
   ("start_time", ".//pds:start_date_time");
   ("stop_time", ".//pds:stop_date_time");
   ("pixel_resolution", ".//isda:pixel_resolution");
   ("sun_azimuth", ".//isda:sun_azimuth");
   ("sun_elevation", ".//isda:sun_elevation");
   ("roll", ".//isda:roll");
   ("pitch", ".//isda:pitch");
   ("yaw", ".//isda:yaw");
   ("ul_lat", ".//isda:Refined_Corner_Coordinates/isda:upper_left_latitude");
   ("ul_lon", ".//isda:Refined_Corner_Coordinates/isda:upper_left_longitude")]%string.

(** A label file as [extract_metadata] sees it: [ET.parse] raises, or the
    tree answers [root.findtext(path)] with a text or [None]. *)
Definition label : Type := result (string -> option string).

Definition extract_metadata (xml : label) : result PyDict.t :=
  findtext ← xml;
  Ok (foldl (fun meta c => PyDict.setitem c.1 (findtext c.2) meta) [] columns).

(** A line of the provenance file. *)
Inductive provenance : Type :=
| Extracted (meta_dict : PyDict.t)
| Failed (file_name : string) (e : exn).

(** [save_provenance] adds the key ["extracted_at"] to the dict it is
    given, in place. *)
Definition save_provenance (now : string) (meta_dict : PyDict.t) : PyDict.t :=
  PyDict.setitem "extracted_at" (Some now) meta_dict.

(** The state of the loop of [run]. [writer] is [None] until the first
    label is extracted; from then on it holds the dict whose [keys()]
    view was given to [csv.DictWriter] as [fieldnames]. The view is live:
    the field names of the writer are the keys that dict has at the time
    of each [writerow]. *)
Record state : Type := {
  writer : option PyDict.t;
  out_csv : Csv.file;
  provenance_path : list provenance;
  success : nat;
  failed : nat
}.

Section Run.
(** [datetime.now().isoformat()] at the turn of the loop of that index. *)
Variable now : nat -> string.

Definition set_writer (held : PyDict.t) (st : state) : state :=
  {| writer := Some held;
     out_csv := out_csv st;
     provenance_path := provenance_path st;
     success := success st;
     failed := failed st |}.

Definition write (record : list string) (st : state) : state :=
  {| writer := writer st;
     out_csv := out_csv st ++ [record];
     provenance_path := provenance_path st;
     success := success st;
     failed := failed st |}.

(** The [except] branch. *)
Definition fail (st : state) (name : string) (e : exn) : state :=
  {| writer := writer st;
     out_csv := out_csv st;
     provenance_path := provenance_path st ++ [Failed name e];
     success := success st;
     failed := S (failed st) |}.

(** [if writer is None]: the writer is made on [meta.keys()] and the
    header is written. *)
Definition open_writer (meta : PyDict.t) (st : state) : state * option exn :=
  match writer st with
  | Some _ => (st, None)
  | None =>
      let st' := set_writer meta st in
      match Csv.writeheader (PyDict.keys meta) with
      | Ok record => (write record st', None)
      | Raise e => (st', Some e)
      end
  end.

(** One turn of [for xml_file in xml_files]. After the record is
    written, [save_provenance] changes [meta] in place: when [meta] is the
    dict the writer holds, the writer has one more field name from then
    on. *)
Definition run_step (st : state) (xml_file : string * label) : state :=
  let turn := (success st + failed st)%nat in
  match extract_metadata xml_file.2 with
  | Raise e => fail st xml_file.1 e
  | Ok meta =>
      match open_writer meta st with
      | (st1, Some e) => fail st1 xml_file.1 e
      | (st1, None) =>
          let held := default meta (writer st1) in
          match Csv.dict_to_list (PyDict.keys held)
                  {| Csv.named := meta; Csv.rest := None |} with
          | Raise e => fail st1 xml_file.1 e
          | Ok record =>
              let meta' := save_provenance (now turn) meta in
              {| writer := match writer st with
                           | None => Some meta'
                           | Some _ => writer st1
                           end;
                 out_csv := out_csv st1 ++ [record];
                 provenance_path := provenance_path st1 ++ [Extracted meta'];
                 success := S (success st1);
                 failed := failed st1 |}
          end
      end
  end.

Definition run (xml_files : list (string * label)) : state :=
  foldl run_step
    {| writer := None; out_csv := []; provenance_path := []; success := 0; failed := 0 |}
    xml_files.

End Run.
End MetaExtc.

(** ** [utils/cropper.py] *)

Module Cropper.

(** [xmin, ymin, xmax, ymax = crop_coords] and the window built from
    them, [Window(xmin, ymin, xmax - xmin, ymax - ymin)]: column offset,
    row offset, width, height. Unpacking anything but four values raises
    [ValueError]. *)
Definition crop_window (crop_coords : list Z) : result (Z * Z * Z * Z) :=
  match crop_coords with
  | [xmin; ymin; xmax; ymax] => Ok (xmin, ymin, xmax - xmin, ymax - ymin)
  | _ => Raise ValueError
  end.

(** [s.replace(old, new)] for a non-empty [old]: the occurrences are
    taken from the left and do not overlap. [skip] counts the characters
    of an occurrence still to pass. *)
Fixpoint replace_go (old new : string) (skip : nat) (s : string) : string :=
  match s with
  | EmptyString => EmptyString
  | String c s' =>
      match skip with
      | S k => replace_go old new k s'
      | O =>
          if PyStr.startswith old s
          then new +:+ replace_go old new (String.length old - 1) s'
          else String c (replace_go old new 0 s')
      end
  end.

Definition replace (old new s : string) : string := replace_go old new 0 s.

(** The row written for the crop: a copy of the row of the source image
    with four keys set. *)
Definition clone (original_name cropped_name : string) (row : Csv.row) : Csv.row :=
  {| Csv.named :=
       PyDict.setitem "crop_source" (Some original_name)
         (PyDict.setitem "ul_lon" (Some "cropped"%string)
            (PyDict.setitem "ul_lat" (Some "cropped"%string)
               (PyDict.setitem "file_name" (Some cropped_name) (Csv.named row))));
     Csv.rest := Csv.rest row |}.

(** One turn of [for row in reader]; the state is the records written so
    far and [found]. *)
Definition update_step (fieldnames : list string) (original_name cropped_name : string)
    (st : Csv.file * bool) (row : Csv.row) : result (Csv.file * bool) :=
  record ← Csv.dict_to_list fieldnames row;
  file_name ← match PyDict.get "file_name" (Csv.named row) with
              | Some v => Ok v
              | None => Raise (KeyError "file_name")
              end;
  if decide (file_name = Some (replace ".tif" ".img" original_name)) then
    new_record ← Csv.dict_to_list fieldnames (clone original_name cropped_name row);
    Ok (st.1 ++ [record; new_record], true)
  else Ok (st.1 ++ [record], st.2).

(** The metadata update of [crop_image], from [found = False] on:
    [original_name] and [cropped_name] are the names of the two rasters.
    It returns the records of the new catalogue and [found]. On an empty
    catalogue [reader.fieldnames] is [None] and the membership test
    raises [TypeError]. *)
Definition update_metadata (original_name cropped_name : string) (catalogue : Csv.file)
  : result (Csv.file * bool) :=
  match Csv.fieldnames catalogue with
  | None => Raise TypeError
  | Some names =>
      let fieldnames :=
        if decide ("crop_source"%string ∈ names) then names
        else names ++ ["crop_source"%string] in
      header ← Csv.writeheader fieldnames;
      foldl (fun acc row => st ← acc; update_step fieldnames original_name cropped_name st row)
        (Ok ([header], false)) (Csv.rows catalogue)
  end.

End Cropper.

(** ** [main.py] *)

Module Main.

(** [load_config]: [config/config.json] may be absent; when present it
    is taken to hold a JSON object of the expected form. No value is
    checked here or later. *)
Definition load_config (config_file : option config) : result config :=
  match config_file with
  | None => Raise FileNotFoundError
  | Some cfg => Ok cfg
  end.

(** [tuple(map(int, args.crop_coords.split(",")))], step 5 of
    [run_pipeline]. *)
Definition parse_crop_coords (crop_coords : string) : result (list Z) :=
  mapM PyStr.int (PyStr.split_on "," crop_coords).

Section Pipeline.
Variable float : string -> result Q.
Variable np_cos_deg : Q -> Q.
Variable np_power : Q -> Q -> Q.
Variable np_std : list Q -> Q.
Variable np_mean : list Q -> Q.

(** [run_pipeline] from the loading of the configuration to the end of
    step 6, the steps in between (project set-up, copy, metadata
    extraction, conversion, crop) being the collaborators' and taken to
    return. The result is the trace of the batch of the Minnaert
    correction, or the exception raised before that batch started. *)
Definition run_to_correction (config_file : option config)
    (w : Correction.workspace) (mode : Correction.process_mode)
  : result (list Correction.event * list Correction.stats) :=
  cfg ← load_config config_file;
  Correction.run_minnaert_correction float np_cos_deg np_power np_std np_mean w mode cfg.

End Pipeline.
End Main.

(** ** Sample data *)

(** Two valid telemetry records in descending time order. *)
Definition spm_line_later : string :=
  "ORBTATTD            19   7  22   9  30  10   12.5".
Definition spm_line_earlier : string :=
  "ORBTATTD            19   7  22   9  30   0   11.5".

(** The constants of the scenario of the specification, and a raster of
    value 0.2. *)
Definition scenario_constants : Shadow.constants :=
  {| Shadow.SUN_EL_THRESHOLD := 10; Shadow.ABS_IF_THRESHOLD := 5 # 100;
     Shadow.THRESHOLD_FACTOR := 1 # 2; Shadow.MIN_IF_VALID := 5 # 100;
     Shadow.MORPH_ITERS := 1 |}.

Definition flat_raster (h w : nat) : list (list fval) :=
  replicate h (replicate w (Fin (2 # 10))).

(** A workspace with one catalogued scene, [a], and one that the
    catalogue does not know, [b]; no telemetry. *)
Definition scene_a : Correction.scene :=
  {| Correction.tif_path := "processed/level0/crops/a.tif";
     Correction.band := Ok [100; 5]%Q;
     Correction.label := Correction.LabelAbsent |}.

Definition scene_b : Correction.scene :=
  {| Correction.tif_path := "processed/level0/crops/b.tif";
     Correction.band := Ok [40]%Q;
     Correction.label := Correction.LabelAbsent |}.

Definition sample_workspace : Correction.workspace :=
  {| Correction.metadata_catalog :=
       Some [{| Correction.file_name := "a.img";
                Correction.start_time := Ok 63699384605 |}];
     Correction.metadata_catalog_cropped := None;
     Correction.oat_file := None;
     Correction.spm_file := None;
     Correction.level0 := [scene_a; scene_b] |}.

Definition sample_corrector : Correction.corrector :=
  {| Correction.meta := {["a" := 63699384605]};
     Correction.oat_times := []; Correction.emis_vals := [];
     Correction.spm_times := []; Correction.sunel_vals := [];
     Correction.dark := 10; Correction.gain := 2 # 1000; Correction.k := 7 # 10 |}.

(** A configuration with a negative gain and a zero sigma, and one
    without a gain. *)
Definition out_of_range_config : gmap string (gmap string jnum) :=
  list_to_map
    [("minnaert"%string,
      list_to_map [("dark_current"%string, JInt 10); ("gain"%string, JFloat (-1));
                   ("k_exponent"%string, JFloat (7 # 10))]);
     ("albedo"%string, list_to_map [("sigma"%string, JInt 0)])].

Definition gainless_config : gmap string (gmap string jnum) :=
  list_to_map
    [("minnaert"%string,
      list_to_map [("dark_current"%string, JInt 10);
                   ("k_exponent"%string, JFloat (7 # 10))])].

(** A catalogue whose second row has a start time that does not parse. *)
Definition broken_catalogue : list Correction.meta_row :=
  [{| Correction.file_name := "a.img"; Correction.start_time := Ok 63699384605 |};
   {| Correction.file_name := "b.img"; Correction.start_time := Raise ValueError |};
   {| Correction.file_name := "c.img"; Correction.start_time := Ok 63699384700 |}].

Definition broken_workspace : Correction.workspace :=
  {| Correction.metadata_catalog := Some broken_catalogue;
     Correction.metadata_catalog_cropped := None;
     Correction.oat_file := None;
     Correction.spm_file := None;
     Correction.level0 := [scene_a; scene_b] |}.

(** A configuration of the shadow stage with the constants of the
    scenario, and a metadata table with one scene. *)
Definition shadow_section : gmap string jnum :=
  list_to_map [("sun_el_threshold"%string, JInt 10);
               ("abs_if_threshold"%string, JFloat (5 # 100));
               ("threshold_factor"%string, JFloat (1 # 2));
               ("min_if_valid"%string, JFloat (5 # 100));
               ("morph_iters"%string, JInt 1)].

Definition shadow_config : gmap string (gmap string jnum) :=
  list_to_map [("shadow"%string, shadow_section)].

Definition sun_rows : list (string * result Q) := [("a.img"%string, Ok 60%Q)].

(** A [float32] raster of five pixels: the smallest positive value, 1e-45
    as numpy prints it, and four zeros; and the mean of a short array,
    added from the left. *)
Definition tiny_raster : list (list spec_float) :=
  [[Binary32.of_float 1e-45; Binary32.zero; Binary32.zero; Binary32.zero; Binary32.zero]].

Definition mean_from_left (a : list spec_float) : spec_float :=
  Binary32.div (foldl Binary32.add Binary32.zero a)
    (binary_normalize Binary32.prec Binary32.emax (Z.of_nat (length a)) 0 false).

(** ** Vocabulary of the further properties *)

Definition is_log_error (e : Correction.event) : bool :=
  match e with
  | Correction.LogError _ _ => true
  | _ => false
  end.

Definition is_csv_row (e : Correction.event) : bool :=
  match e with
  | Correction.CsvRow _ => true
  | _ => false
  end.

(** "The scene is skipped, not the batch", for the scene [sc] of a batch
    [scenes]: [process_one] raises the [KeyError] of the missing start
    time before any effect and [run] logs it; no raster and no QA row
    bears the stem of [sc]; what [process_one] leaves and returns for any
    scene of the batch is in the trace and in [all_stats]; and
    [all_stats] is that of the batch without the scenes of that stem. *)
Definition skipped_not_the_batch
    (process_one : Correction.scene -> list Correction.event * result Correction.stats)
    (run : list Correction.scene -> list Correction.event * list Correction.stats)
    (scenes : list Correction.scene) (sc : Correction.scene) : Prop :=
  let stem := PyStr.path_stem (Correction.tif_path sc) in
  let err := KeyError ("No start_time for " +:+ stem) in
  process_one sc = ([], Raise err) /\
  Correction.LogError (PyStr.path_name (Correction.tif_path sc)) err ∈ (run scenes).1 /\
  (forall px, Correction.RasterWritten (stem +:+ "_if.tif") px ∉ (run scenes).1) /\
  (forall s, Correction.s_file s = stem +:+ "_if.tif" ->
     (s ∉ (run scenes).2) /\ (Correction.CsvRow s ∉ (run scenes).1) /\
     (Correction.JsonLine s ∉ (run scenes).1)) /\
  (forall sc', sc' ∈ scenes ->
     (forall e, e ∈ (process_one sc').1 -> e ∈ (run scenes).1) /\
     (forall s, (process_one sc').2 = Ok s ->
        s ∈ (run scenes).2 /\ Correction.CsvRow s ∈ (run scenes).1 /\
        Correction.JsonLine s ∈ (run scenes).1)) /\
  (run scenes).2 =
    (run (filter (fun sc' => PyStr.path_stem (Correction.tif_path sc') <> stem) scenes)).2.

(** The stems of the rows of the catalogue [load_sun_elevation] reads. *)
Definition sun_catalogue_stems (rows : list (string * result Q)) : list string :=
  (fun row => PyStr.path_stem row.1) <$> rows.

(** The stems of the rows of a catalogue. *)
Definition catalogue_stems (rows : list Correction.meta_row) : list string :=
  (fun row => PyStr.path_stem (Correction.file_name row)) <$> rows.

(** The start time of a catalogue row, when it parsed. *)
Definition row_time (row : Correction.meta_row) : option Z :=
  match Correction.start_time row with
  | Ok t => Some t
  | Raise _ => None
  end.

(** A string of decimal digits, and the number it reads as after [acc]. *)
Fixpoint is_digits (s : string) : bool :=
  match s with
  | EmptyString => true
  | String c s' => bool_decide (is_Some (PyStr.digit c)) && is_digits s'
  end.

Fixpoint dval (acc : Z) (s : string) : Z :=
  match s with
  | EmptyString => acc
  | String c s' => dval (10 * acc + default 0 (PyStr.digit c)) s'
  end.

(** No character of the string is white space. *)
Fixpoint no_space (s : string) : bool :=
  match s with
  | EmptyString => true
  | String c s' => negb (PyStr.isspace c) && no_space s'
  end.

(** The labels that parse, in order; the catalogue record of one of them,
    and the field names of the catalogue. *)
Definition extracted (xml_files : list (string * MetaExtc.label))
  : list (string -> option string) :=
  omap (fun xml_file => match xml_file.2 with Ok findtext => Some findtext | Raise _ => None end)
    xml_files.

Definition catalogue_record (findtext : string -> option string) : list string :=
  (fun c => default EmptyString (findtext c.2)) <$> MetaExtc.columns.

Definition catalogue_names : list string := MetaExtc.columns.*1.

(** The field of a record under a column of the header, and the record
    [crop_image] writes for the crop of the image of a record. *)
Fixpoint field (header record : list string) (key : string) : string :=
  match header, record with
  | h :: header', x :: record' => if decide (h = key) then x else field header' record' key
  | _, _ => EmptyString
  end.

Definition crop_record (header record : list string) (original_name cropped_name : string)
  : list string :=
  ((fun p : string * string =>
      if decide (p.1 = "file_name"%string) then cropped_name
      else if decide (p.1 = "ul_lat"%string \/ p.1 = "ul_lon"%string) then "cropped"%string
      else p.2) <$> zip header record)
  ++ [original_name].

Definition is_source (header : list string) (original_name : string) (record : list string)
  : bool :=
  bool_decide (field header record "file_name" = Cropper.replace ".tif" ".img" original_name).

(** The text the writer puts for a key of a dict. *)
Definition field_text (d : PyDict.t) (key : string) : string :=
  match PyDict.get key d with
  | Some (Some text) => text
  | Some None => EmptyString
  | None => EmptyString
  end.

(** The dict [extract_metadata] returns for a label that parses. *)
Definition meta_of (findtext : string -> option string) : PyDict.t :=
  (fun c => (c.1, findtext c.2)) <$> MetaExtc.columns.

(** No pixel of a mask is set. *)
Definition no_pixel_set (m : list (list bool)) : Prop :=
  Forall (Forall (fun b => b = false)) m.

(** A grid of [h] rows of [w] pixels. *)
Definition rectangular {A : Type} (h w : nat) (g : list (list A)) : Prop :=
  length g = h /\ Forall (fun r => length r = w) g.

(** The pixel of a mask at a position inside a [h] x [w] frame is on the
    border of the frame. *)
Definition on_border (h w i j : nat) : Prop :=
  (i < h)%nat /\ (j < w)%nat /\
  (i = 0%nat \/ j = 0%nat \/ S i = h \/ S j = w).

(** * Properties *)

(** ** The model on concrete inputs *)

Example py_int_examples :
  PyStr.int "  2019 " = Ok 2019 /\ PyStr.int "-1_0" = Ok (-10) /\
  PyStr.int "1__0" = Raise ValueError /\ PyStr.int "" = Raise ValueError /\
  PyStr.suffix 4 (PyStr.str 120195) = "0195"%string /\
  PyStr.slice 2 5 "abcdefg" = "cde"%string /\ PyStr.slice 5 9 "abcdefg" = "fg"%string /\
  PyStr.split "  ab  cd e " = ["ab"; "cd"; "e"]%string /\
  PyStr.strip "  a b  " = "a b"%string.
Proof. vm_compute. repeat split. Qed.

Example path_examples :
  PyStr.path_stem "processed/level0/crops/a.tif" = "a"%string /\
  PyStr.path_name "processed/level0/crops/a.tif" = "a.tif"%string /\
  PyStr.path_stem "x.tar.gz" = "x.tar"%string /\
  PyStr.path_stem ".hidden" = ".hidden"%string.
Proof. vm_compute. repeat split. Qed.

Example datetime_examples :
  Correction.mk_datetime 1 1 1 0 0 0 = Ok 0 /\
  Correction.mk_datetime 2019 7 22 9 30 10 = Ok 63699384610 /\
  Correction.mk_datetime 2019 2 29 0 0 0 = Raise ValueError /\
  Correction.mk_datetime 2020 2 29 0 0 0 = Ok ((737484 - 1) * 86400) /\
  Correction.mk_datetime 2019 7 22 24 0 0 = Raise ValueError.
Proof. vm_compute. repeat split. Qed.

Example record_examples :
  Correction.spm_record PyStr.float_decimal spm_line_later = Ok (63699384610, (25 # 2)%Q) /\
  Correction.spm_record PyStr.float_decimal "ORBTATTD bad" = Raise ValueError.
Proof. vm_compute. repeat split. Qed.

Example binary32_examples :
  Binary32.of_float 1e-6 = S754_finite false 8796093 (-43) /\
  Binary32.of_float 0.1 = S754_finite false 13421773 (-27) /\
  Binary32.of_float 1e-45 = S754_finite false 1 (-149) /\
  Binary32.of_float 3.4028235e38 = Binary32.FLT_MAX /\
  Binary32.of_float 1e39 = S754_infinity false /\
  Binary32.div (Binary32.of_float 0.1) Binary32.zero = S754_infinity false /\
  Binary32.mul Binary32.zero (S754_infinity false) = S754_nan /\
  AlbedoFloat32.sanitize [[S754_nan; S754_infinity true; Binary32.of_float (-2)]]
  = [[Binary32.zero; Binary32.zero; Binary32.zero]].
Proof. vm_compute. repeat split. Qed.

Example interp_binary64 :
  Correction.interp_angle 5 [0; 10] [0.25; 0.75]%float = Ok 0.5%float /\
  Correction.interp_angle 5 [0; 10] [0.1; 0.5]%float = Ok 0.30000000000000004%float /\
  Correction.interp_angle 10 [0; 10] [0.3; 0.9]%float = Ok 0.9000000000000001%float /\
  Correction.interp_angle 7 [0; 0] [0.3; 0.9]%float = Ok 0.9%float.
Proof. vm_compute. repeat split. Qed.

Example interp_mid :
  Correction.interp_angle 5 [0; 10] [2; 4]%Q = Ok (2 + (5 / 10) * (4 - 2))%Q.
Proof. vm_compute. reflexivity. Qed.

(** The scenario of the specification: a 4 x 4 raster of value 0.2 under a
    sun at 60 degrees has a mean of 0.2 and a relative threshold of 0.1;
    no pixel is below a threshold, the mask is clear and covers 0 per cent. *)
Example shadow_scenario :
  let seg := Shadow.segment scenario_constants {["scene" := 60%Q]} "scene" (flat_raster 4 4) in
  Shadow.written seg = replicate 4 (replicate 4 0) /\
  (exists mean_if rel_thr pct,
     Shadow.reason seg = Shadow.Adaptive (Fin mean_if) (Fin rel_thr) /\
     Shadow.shadow_pct seg = Fin pct /\
     (mean_if == 2 # 10)%Q /\ (rel_thr == 1 # 10)%Q /\ (pct == 0)%Q).
Proof.
  vm_compute. split; [reflexivity|]. do 3 eexists. repeat split; reflexivity.
Qed.

(** ** Sorted search *)

Section SortedSearch.
Import Correction.

Lemma midpoint_bounds (lo hi : nat) :
  (lo < hi)%nat -> (lo <= midpoint lo hi < hi)%nat.
Proof.
  intros Hlt. unfold midpoint. split.
  - apply Nat.div_le_lower_bound; lia.
  - apply Nat.Div0.div_lt_upper_bound; lia.
Qed.

Lemma sorted_lookup_le (a : list Z) (i j : nat) (yi yj : Z) :
  Sorted Z.le a -> (i <= j)%nat ->
  a !! i = Some yi -> a !! j = Some yj -> yi <= yj.
Proof.
  intros Hs. apply Sorted_StronglySorted in Hs; [|intros ? ? ?; lia].
  revert i j yi yj. induction Hs as [|h t Ht IH Hall]; intros i j yi yj Hij Hi Hj.
  - discriminate.
  - destruct i as [|i], j as [|j]; simpl in *; try lia.
    + assert (yi = yj) by congruence. lia.
    + injection Hi as <-. rewrite Forall_forall in Hall.
      apply Hall. eapply list_elem_of_lookup_2; eauto.
    + apply (IH i j); [lia|assumption|assumption].
Qed.

(** The loop invariant of [bisect_left]: everything left of [lo] is
    below [x], everything from [hi] on is not. *)
Lemma bisect_loop_spec (a : list Z) (x : Z) (lo hi : nat) :
  Sorted Z.le a -> (lo <= hi <= length a)%nat ->
  (forall i y, (i < lo)%nat -> a !! i = Some y -> y < x) ->
  (forall i y, (hi <= i)%nat -> a !! i = Some y -> x <= y) ->
  exists idx, bisect_loop a x lo hi = Ok idx /\ (lo <= idx <= hi)%nat /\
    (forall i y, (i < idx)%nat -> a !! i = Some y -> y < x) /\
    (forall i y, (idx <= i)%nat -> a !! i = Some y -> x <= y).
Proof.
  intros Hs. funelim (bisect_loop a x lo hi); intros Hb Hlo Hhi;
    try (pose proof (midpoint_bounds lo hi ltac:(assumption)) as Hm);
    try match goal with
        | E : getitem a _ = _ |- _ =>
            unfold getitem in E;
            destruct (a !! midpoint lo hi) as [m|] eqn:Em;
            [ try (injection E as ->) | try discriminate E ]
        end.
  - exists lo. split; [reflexivity|]. split; [lia|]. split; [exact Hlo|].
    intros i y Hi. apply Hhi. lia.
  - (* a[mid] out of range: impossible *)
    discriminate.
  - apply lookup_ge_None in Em. exfalso. lia.
  - (* a[mid] < x *)
    destruct (H Hs) as (idx & -> & Hr & Hl & Hg); [lia| |assumption|].
    + intros i z Hi Hz.
      pose proof (sorted_lookup_le a i (midpoint lo hi) z y Hs ltac:(lia) Hz Em). lia.
    + exists idx. repeat split; auto; lia.
  - (* a[mid] >= x *)
    destruct (H Hs) as (idx & -> & Hr & Hl & Hg); [lia|assumption| |].
    + intros i z Hi Hz.
      pose proof (sorted_lookup_le a (midpoint lo hi) i y z Hs ltac:(lia) Em Hz). lia.
    + exists idx. repeat split; auto; lia.
Qed.

Lemma bisect_left_spec (a : list Z) (x : Z) :
  Sorted Z.le a ->
  exists idx, bisect_left a x = Ok idx /\ (idx <= length a)%nat /\
    (forall i y, (i < idx)%nat -> a !! i = Some y -> y < x) /\
    (forall i y, (idx <= i)%nat -> a !! i = Some y -> x <= y).
Proof.
  intros Hs. unfold bisect_left.
  destruct (bisect_loop_spec a x 0 (length a) Hs) as (idx & E & Hr & Hl & Hg).
  - lia.
  - intros; lia.
  - intros i y Hi Hy. apply lookup_lt_Some in Hy. lia.
  - exists idx. repeat split; auto; lia.
Qed.
End SortedSearch.

(** ** Angle interpolation *)

Section Interpolation.
Import Correction.
Context {F : Type} `{Arith F}.

(** What [interp_angle] computes once the index is known. *)
Lemma interp_angle_at (times : list Z) (values : list F) (q : Z) (idx : nat) :
  bisect_left times q = Ok idx ->
  interp_angle q times values =
    if decide (idx = 0%nat) then getitem values 0
    else if decide (length times <= idx)%nat then getlast values
    else
      t0 ← getitem times (idx - 1);
      t1 ← getitem times idx;
      v0 ← getitem values (idx - 1);
      v1 ← getitem values idx;
      frac ← seconds_ratio (q - t0) (t1 - t0);
      Ok (fl_add v0 (fl_mul frac (fl_sub v1 v0))).
Proof. intros E. unfold interp_angle. rewrite E. reflexivity. Qed.

(** In the interior branch the two samples around the index bracket the
    query time strictly on the left, so the divisor is positive. *)
Lemma interior_bracket (times : list Z) (q : Z) (idx : nat) :
  Sorted Z.le times -> bisect_left times q = Ok idx ->
  idx <> 0%nat -> ~ (length times <= idx)%nat ->
  exists t0 t1, times !! (idx - 1)%nat = Some t0 /\ times !! idx = Some t1 /\
    t0 < q <= t1.
Proof.
  intros Hs E H0 Hlen.
  destruct (bisect_left_spec times q Hs) as (idx' & E' & _ & Hl & Hg).
  assert (idx' = idx) as -> by congruence.
  destruct (lookup_lt_is_Some_2 times (idx - 1)) as [t0 Ht0]; [lia|].
  destruct (lookup_lt_is_Some_2 times idx) as [t1 Ht1]; [lia|].
  exists t0, t1. repeat split; auto.
  - apply (Hl (idx - 1)%nat); [lia|assumption].
  - apply (Hg idx); [lia|assumption].
Qed.

Lemma interp_angle_interior (times : list Z) (values : list F) (q : Z) (idx : nat) :
  Sorted Z.le times -> length values = length times ->
  bisect_left times q = Ok idx ->
  idx <> 0%nat -> ~ (length times <= idx)%nat ->
  exists t0 t1 v0 v1,
    times !! (idx - 1)%nat = Some t0 /\ times !! idx = Some t1 /\
    values !! (idx - 1)%nat = Some v0 /\ values !! idx = Some v1 /\
    t0 < q <= t1 /\
    interp_angle q times values =
      Ok (fl_add v0 (fl_mul (fl_div (fl_seconds (q - t0)) (fl_seconds (t1 - t0)))
                            (fl_sub v1 v0))).
Proof.
  intros Hs Hlen E H0 Hidx.
  destruct (interior_bracket times q idx Hs E H0 Hidx) as (t0 & t1 & Ht0 & Ht1 & Hq).
  destruct (lookup_lt_is_Some_2 values (idx - 1)) as [v0 Hv0]; [lia|].
  destruct (lookup_lt_is_Some_2 values idx) as [v1 Hv1]; [lia|].
  exists t0, t1, v0, v1. repeat split; auto; try lia.
  rewrite (interp_angle_at _ _ _ _ E).
  destruct (decide (idx = 0%nat)); [contradiction|].
  destruct (decide (length times <= idx)%nat); [contradiction|].
  unfold getitem. rewrite Ht0, Ht1, Hv0, Hv1. simpl.
  unfold seconds_ratio. destruct (decide (t1 - t0 = 0)); [lia|]. reflexivity.
Qed.

Lemma interp_angle_first (times : list Z) (values : list F) (q tf : Z) (vf : F) :
  Sorted Z.le times -> head times = Some tf -> head values = Some vf ->
  q <= tf -> interp_angle q times values = Ok vf.
Proof.
  intros Hs Htf Hvf Hq.
  destruct (bisect_left_spec times q Hs) as (idx & E & _ & Hl & _).
  rewrite (interp_angle_at _ _ _ _ E).
  destruct (decide (idx = 0%nat)) as [->|Hne].
  - unfold getitem. rewrite <- head_lookup, Hvf. reflexivity.
  - exfalso. rewrite head_lookup in Htf.
    pose proof (Hl 0%nat tf ltac:(lia) Htf). lia.
Qed.

Lemma interp_angle_last (times : list Z) (values : list F) (q tl : Z) (vl : F) :
  Sorted Z.le times -> length values = length times ->
  last times = Some tl -> last values = Some vl ->
  tl < q -> interp_angle q times values = Ok vl.
Proof.
  intros Hs Hlen Htl Hvl Hq.
  destruct (bisect_left_spec times q Hs) as (idx & E & Hle & _ & Hg).
  rewrite (interp_angle_at _ _ _ _ E).
  rewrite last_lookup in Htl.
  assert (length times <> 0)%nat as Hne.
  { intros Hz. apply lookup_lt_Some in Htl. lia. }
  assert (idx = length times) as ->.
  { destruct (decide (idx = length times)) as [|Hd]; [assumption|exfalso].
    assert (Hlt : (idx < length times)%nat) by lia.
    destruct (lookup_lt_is_Some_2 times idx Hlt) as [t Ht].
    pose proof (Hg idx t ltac:(lia) Ht).
    pose proof (sorted_lookup_le times idx (pred (length times)) t tl Hs ltac:(lia) Ht Htl).
    lia. }
  destruct (decide (length times = 0%nat)); [contradiction|].
  destruct (decide (length times <= length times)%nat); [|lia].
  unfold getlast. rewrite Hvl. reflexivity.
Qed.

(** The bracketing pair of a query time inside the series. *)
Lemma interp_angle_between (times : list Z) (values : list F) (q tf tl : Z) :
  Sorted Z.le times -> length values = length times ->
  head times = Some tf -> last times = Some tl -> tf < q <= tl ->
  exists (i : nat) (t0 t1 : Z) (v0 v1 : F),
    times !! i = Some t0 /\ times !! S i = Some t1 /\
    values !! i = Some v0 /\ values !! S i = Some v1 /\
    t0 < q <= t1 /\
    interp_angle q times values =
      Ok (fl_add v0 (fl_mul (fl_div (fl_seconds (q - t0)) (fl_seconds (t1 - t0)))
                            (fl_sub v1 v0))).
Proof.
  intros Hs Hlen Htf Htl [Hlo Hhi].
  destruct (bisect_left_spec times q Hs) as (idx & E & Hle & Hl & Hg).
  assert (idx <> 0%nat) as Hne.
  { intros ->. rewrite head_lookup in Htf.
    pose proof (Hg 0%nat tf ltac:(lia) Htf). lia. }
  assert (~ (length times <= idx)%nat) as Hin.
  { intros Hge. rewrite last_lookup in Htl.
    pose proof (lookup_lt_Some _ _ _ Htl).
    pose proof (Hl (pred (length times)) tl ltac:(lia) Htl). lia. }
  destruct (interp_angle_interior times values q idx Hs Hlen E Hne Hin)
    as (t0 & t1 & v0 & v1 & Ht0 & Ht1 & Hv0 & Hv1 & Hq & Hr).
  exists (idx - 1)%nat, t0, t1, v0, v1.
  replace (S (idx - 1)) with idx by lia.
  repeat split; assumption || lia.
Qed.
End Interpolation.

Section InterpolationClaims.
Import Correction.

(** C2, as amended: on a series sorted ascending by timestamp,
    [interp_angle] returns the first value at or before the first
    timestamp and the last value after the last timestamp, both exactly;
    otherwise it returns [v0 + frac * (v1 - v0)] with
    [frac = (query_time - t0) / (t1 - t0)], over the adjacent pair with
    [t0 < query_time <= t1], evaluated in the arithmetic of its values,
    which for Python is binary64 with every operation rounded. For
    samples at [0; 10] with binary64 values [v0; v10] it gives
    [v0 + 0.5 * (v10 - v0)] at 5, [v0] at -1 and [v10] at 11. Evaluated
    without rounding, the same expression is the linear interpolation
    [v0 + (v1 - v0) * (query_time - t0) / (t1 - t0)], and [(v0 + v10) / 2]
    at 5. *)
Theorem interp_angle_piecewise :
  (forall (F : Type) (A : Arith F) (times : list Z) (values : list F)
          (q tf tl : Z) (vf vl : F),
     Sorted Z.le times -> length values = length times ->
     head times = Some tf -> last times = Some tl ->
     head values = Some vf -> last values = Some vl ->
     (q <= tf -> interp_angle q times values = Ok vf) /\
     (tl < q -> interp_angle q times values = Ok vl) /\
     (tf < q <= tl ->
      exists (i : nat) (t0 t1 : Z) (v0 v1 : F),
        times !! i = Some t0 /\ times !! S i = Some t1 /\
        values !! i = Some v0 /\ values !! S i = Some v1 /\
        t0 < q <= t1 /\
        interp_angle q times values =
          Ok (fl_add v0 (fl_mul (fl_div (fl_seconds (q - t0)) (fl_seconds (t1 - t0)))
                                (fl_sub v1 v0))))) /\
  (forall v0 v10 : float,
     interp_angle 5 [0; 10] [v0; v10] = Ok (v0 + 0.5 * (v10 - v0))%float /\
     interp_angle (-1) [0; 10] [v0; v10] = Ok v0 /\
     interp_angle 11 [0; 10] [v0; v10] = Ok v10) /\
  (forall (v0 v1 : Q) (q t0 t1 : Z),
     t0 < t1 ->
     (fl_add v0 (fl_mul (fl_div (fl_seconds (q - t0)) (fl_seconds (t1 - t0)))
                        (fl_sub v1 v0))
      == v0 + (v1 - v0) * inject_Z (q - t0) / inject_Z (t1 - t0))%Q) /\
  (forall v0 v10 : Q,
     exists r, interp_angle 5 [0; 10] [v0; v10] = Ok r /\ (r == (v0 + v10) / 2)%Q).
Proof.
  split; [|split; [|split]].
  - intros F A times values q tf tl vf vl Hs Hlen Htf Htl Hvf Hvl.
    split; [|split].
    + apply interp_angle_first; assumption.
    + apply interp_angle_last; assumption.
    + apply interp_angle_between; assumption.
  - intros v0 v10.
    assert (bisect_left [0; 10] 5 = Ok 1%nat) as E5 by (vm_compute; reflexivity).
    assert (bisect_left [0; 10] (-1) = Ok 0%nat) as E1 by (vm_compute; reflexivity).
    assert (bisect_left [0; 10] 11 = Ok 2%nat) as E11 by (vm_compute; reflexivity).
    split; [|split].
    + rewrite (interp_angle_at _ _ _ _ E5). reflexivity.
    + rewrite (interp_angle_at _ _ _ _ E1). reflexivity.
    + rewrite (interp_angle_at _ _ _ _ E11). reflexivity.
  - intros v0 v1 q t0 t1 Hlt. cbn [fl_add fl_mul fl_div fl_sub fl_seconds exact].
    assert (~ (inject_Z (t1 - t0) == 0)%Q) as Hd.
    { change 0%Q with (inject_Z 0). rewrite inject_Z_injective. lia. }
    field. exact Hd.
  - intros v0 v10.
    assert (bisect_left [0; 10] 5 = Ok 1%nat) as E5 by (vm_compute; reflexivity).
    eexists. split.
    + rewrite (interp_angle_at _ _ _ _ E5). simpl. reflexivity.
    + change (inject_Z (5 - 0)) with 5%Q. change (inject_Z (10 - 0)) with 10%Q.
      field.
Qed.

Lemma interp_angle_piecewise_witness :
  interp_angle 0 [0; 10; 20] [0.1; 0.3; 0.7]%float = Ok 0.1%float /\
  interp_angle 25 [0; 10; 20] [0.1; 0.3; 0.7]%float = Ok 0.7%float.
Proof.
  destruct interp_angle_piecewise as [Hgen _].
  destruct (Hgen float binary64 [0; 10; 20] [0.1; 0.3; 0.7]%float 0 0 20 0.1%float 0.7%float)
    as (Hfirst & _); [repeat constructor; lia|reflexivity..|].
  destruct (Hgen float binary64 [0; 10; 20] [0.1; 0.3; 0.7]%float 25 0 20 0.1%float 0.7%float)
    as (_ & Hlast & _); [repeat constructor; lia|reflexivity..|].
  split; [apply Hfirst; lia|apply Hlast; lia].
Defined.

(** C2 as stated fails on the code: at the middle of [0; 10] with the
    binary64 values 0.1 and 0.5 the code returns 0.30000000000000004,
    which is neither the binary64 value of [(v0 + v10) / 2], 0.3, nor the
    midpoint of the two values as a rational. *)
Lemma interp_angle_midpoint_rounds :
  interp_angle 5 [0; 10] [0.1; 0.5]%float = Ok 0.30000000000000004%float /\
  ((0.1 + 0.5) / 2)%float = 0.3%float /\
  PrimFloat.ltb 0.3 0.30000000000000004 = true /\
  interp_angle 5 [0; 10] [0.1; 0.5]%float <> Ok ((0.1 + 0.5) / 2)%float /\
  (r ← float_to_Q 0.30000000000000004; a ← float_to_Q 0.1; b ← float_to_Q 0.5;
   Some (Qeq_bool r ((a + b) / 2))) = Some false.
Proof.
  split; [reflexivity|]. split; [reflexivity|]. split; [reflexivity|].
  split; [|vm_compute; reflexivity].
  intros E.
  assert (Hlt : match interp_angle 5 [0; 10] [0.1; 0.5]%float with
                | Ok r => PrimFloat.ltb 0.3 r
                | Raise _ => false
                end = true) by reflexivity.
  rewrite E in Hlt. vm_compute in Hlt. discriminate Hlt.
Qed.

(** C10: on a non-empty series with timestamps in non-decreasing order
    (duplicates allowed) and as many values as timestamps, [interp_angle]
    returns a value for every query time, in every arithmetic; whenever
    the interior branch is taken, [bisect_left] gives
    [t0 < query_time <= t1], so the divisor [t1 - t0] is strictly
    positive and the division does not raise. *)
Theorem interp_angle_total (F : Type) (A : Arith F)
    (times : list Z) (values : list F) (q : Z) :
  times <> [] -> Sorted Z.le times -> length values = length times ->
  (exists r, interp_angle q times values = Ok r) /\
  (exists idx, bisect_left times q = Ok idx /\
     (idx <> 0%nat -> (idx < length times)%nat ->
      exists t0 t1 (frac : F),
        times !! (idx - 1)%nat = Some t0 /\ times !! idx = Some t1 /\
        t0 < q <= t1 /\ 0 < t1 - t0 /\
        seconds_ratio (q - t0) (t1 - t0) = Ok frac)).
Proof.
  intros Hne Hs Hlen.
  destruct (bisect_left_spec times q Hs) as (idx & E & Hle & Hl & Hg).
  assert (length times <> 0)%nat as Hn by (destruct times; simpl; congruence).
  split.
  - rewrite (interp_angle_at _ _ _ _ E).
    destruct (decide (idx = 0%nat)) as [->|H0].
    + destruct (lookup_lt_is_Some_2 values 0) as [v Hv]; [lia|].
      exists v. unfold getitem. rewrite Hv. reflexivity.
    + destruct (decide (length times <= idx)%nat) as [Hge|Hlt].
      * destruct (lookup_lt_is_Some_2 values (pred (length values))) as [v Hv]; [lia|].
        exists v. unfold getlast. rewrite last_lookup, Hv. reflexivity.
      * destruct (interp_angle_interior times values q idx Hs Hlen E H0 Hlt)
          as (t0 & t1 & v0 & v1 & _ & _ & _ & _ & _ & Hr).
        rewrite (interp_angle_at _ _ _ _ E) in Hr.
        destruct (decide (idx = 0%nat)); [contradiction|].
        destruct (decide (length times <= idx)%nat); [contradiction|].
        eexists. exact Hr.
  - exists idx. split; [assumption|]. intros H0 Hlt.
    destruct (interior_bracket times q idx Hs E H0 ltac:(lia)) as (t0 & t1 & Ht0 & Ht1 & Hq).
    exists t0, t1. eexists. repeat split; eauto; try lia.
    unfold seconds_ratio. destruct (decide (t1 - t0 = 0)); [lia|reflexivity].
Qed.

Lemma interp_angle_total_witness :
  exists r, interp_angle 10 [0; 10; 10; 20] [0.1; 0.3; 0.5; 0.7]%float = Ok r.
Proof.
  apply (interp_angle_total float binary64 [0; 10; 10; 20] [0.1; 0.3; 0.5; 0.7]%float 10);
    [discriminate|repeat constructor; lia|reflexivity].
Defined.
End InterpolationClaims.

(** ** Telemetry series *)

Section TelemetryClaims.
Import Correction.
Variable float : string -> result Q.

Lemma parse_loop_omap (record : string -> result (Z * Q)) (lines : list string)
    (acc : list Z * list Q) :
  foldl (parse_step record) acc lines =
    (acc.1 ++ (omap (valid_sample record) lines).*1,
     acc.2 ++ (omap (valid_sample record) lines).*2).
Proof.
  revert acc. induction lines as [|line lines IH]; intros [ts vs]; simpl.
  - rewrite !app_nil_r. reflexivity.
  - rewrite IH. unfold parse_step, valid_sample.
    destruct (PyStr.startswith "ORBTATTD" line); simpl; [|reflexivity].
    destruct (record line) as [[dt v]|e]; simpl; [|reflexivity].
    rewrite <- !app_assoc. reflexivity.
Qed.

(** C4 (as amended): whatever the lines of the source are, the series
    built by [parse_spm] and by [parse_oat] holds exactly the valid
    samples, in the order of their lines; malformed records are left out
    and never abort the loop; timestamps and angles stay aligned. The
    series is sorted ascending by timestamp exactly when the valid records
    of the source are. *)
Theorem parse_keeps_valid_samples_in_order (lines : list string) :
  let spm := omap (valid_sample (spm_record float)) lines in
  let oat := omap (valid_sample (oat_record float)) lines in
  parse_spm float lines = (spm.*1, spm.*2) /\
  parse_oat float lines = (oat.*1, oat.*2) /\
  length (parse_spm float lines).1 = length (parse_spm float lines).2 /\
  length (parse_oat float lines).1 = length (parse_oat float lines).2 /\
  (Sorted Z.le (parse_spm float lines).1 <-> Sorted Z.le spm.*1) /\
  (Sorted Z.le (parse_oat float lines).1 <-> Sorted Z.le oat.*1).
Proof.
  intros spm oat. unfold parse_spm, parse_oat. rewrite !parse_loop_omap. simpl.
  fold spm oat. rewrite !length_fmap. repeat split; auto.
Qed.
End TelemetryClaims.

(** C4 (as stated) fails: the series keeps the order of the source, so
    two valid records in descending order (with a malformed record and a
    foreign line between them, both left out) give an unsorted series. *)
Lemma parse_spm_keeps_source_order :
  Correction.parse_spm PyStr.float_decimal
    [spm_line_later; "ORBTATTD bad"; "junk"; spm_line_earlier]%string
  = ([63699384610; 63699384600], [25 # 2; 23 # 2]%Q)
  /\ ~ Sorted Z.le [63699384610; 63699384600].
Proof.
  split.
  - vm_compute. reflexivity.
  - intros Hs. inversion Hs as [|? ? _ Hhd]. inversion Hhd. lia.
Qed.

(** ** The batch loop of the Minnaert corrector *)

Lemma string_app_length (s t : string) :
  String.length (s +:+ t) = (String.length s + String.length t)%nat.
Proof. induction s as [|c s IH]; simpl; [reflexivity|]. rewrite IH. reflexivity. Qed.

Lemma string_app_inj_r (t s1 s2 : string) : s1 +:+ t = s2 +:+ t -> s1 = s2.
Proof.
  revert s2. induction s1 as [|c s1 IH]; intros [|d s2] E; simpl in E.
  - reflexivity.
  - exfalso. apply (f_equal String.length) in E.
    change (String d s2 +:+ t) with (String d (s2 +:+ t)) in E.
    change ("" +:+ t) with t in E. simpl in E.
    rewrite string_app_length in E. lia.
  - exfalso. apply (f_equal String.length) in E.
    change (String c s1 +:+ t) with (String c (s1 +:+ t)) in E.
    change ("" +:+ t) with t in E. simpl in E.
    rewrite string_app_length in E. lia.
  - injection E as -> E. f_equal. apply IH, E.
Qed.

Section BatchClaims.
Import Correction.
Variable float : string -> result Q.
Variable np_cos_deg : Q -> Q.
Variable np_power : Q -> Q -> Q.
Variable np_std : list Q -> Q.
Variable np_mean : list Q -> Q.

Abbreviation process_one := (process_one float np_cos_deg np_power np_std np_mean).
Abbreviation run := (run float np_cos_deg np_power np_std np_mean).
Abbreviation run_step := (run_step float np_cos_deg np_power np_std np_mean).
Abbreviation scene_events := (scene_events float np_cos_deg np_power np_std np_mean).
Abbreviation scene_stats := (scene_stats float np_cos_deg np_power np_std np_mean).

Lemma run_loop_flat (c : corrector) (scenes : list scene)
    (acc : list event * list stats) :
  foldl (run_step c) acc scenes =
    (acc.1 ++ (scenes ≫= scene_events c), acc.2 ++ (scenes ≫= scene_stats c)).
Proof.
  revert acc. induction scenes as [|sc scenes IH]; intros [tr st]; simpl.
  - rewrite !app_nil_r. reflexivity.
  - rewrite IH. unfold Correction.run_step, scene_events, scene_stats.
    destruct (process_one c sc) as [ev [s|e]]; simpl;
      rewrite <- ?app_assoc; simpl; rewrite <- ?app_assoc; reflexivity.
Qed.

Lemma run_flat (c : corrector) (scenes : list scene) :
  run c scenes = (scenes ≫= scene_events c, scenes ≫= scene_stats c).
Proof. unfold Correction.run. rewrite run_loop_flat. reflexivity. Qed.

Lemma process_one_missing (c : corrector) (sc : scene) :
  meta c !! PyStr.path_stem (tif_path sc) = None ->
  process_one c sc =
    ([], Raise (KeyError ("No start_time for " +:+ PyStr.path_stem (tif_path sc)))).
Proof. intros E. unfold Correction.process_one. rewrite E. reflexivity. Qed.

(** Whatever [process_one] writes or returns for a scene is named after
    the stem of that scene, and the stem is in the metadata index; the
    rows of the QA tables are written by [run], not by [process_one]. *)
Lemma process_one_outputs (c : corrector) (sc : scene) :
  (forall name px, RasterWritten name px ∈ (process_one c sc).1 ->
     name = PyStr.path_stem (tif_path sc) +:+ "_if.tif" /\
     is_Some (meta c !! PyStr.path_stem (tif_path sc))) /\
  (forall s, (process_one c sc).2 = Ok s ->
     s_file s = PyStr.path_stem (tif_path sc) +:+ "_if.tif" /\
     is_Some (meta c !! PyStr.path_stem (tif_path sc))) /\
  (forall s, (CsvRow s ∉ (process_one c sc).1) /\ (JsonLine s ∉ (process_one c sc).1)).
Proof.
  unfold Correction.process_one.
  destruct (meta c !! PyStr.path_stem (tif_path sc)) as [t|] eqn:Em.
  - destruct (scene_angles float c t (label sc)) as [inc em].
    destruct (band sc) as [dn|e]; simpl.
    + match goal with |- context [np_min ?a] =>
        destruct (np_min a) as [lo|e1]; destruct (np_max a) as [hi|e2] end;
        simpl; (split; [|split]); intros; try split; try intros ?;
        repeat match goal with
        | H : _ ∈ _ ++ _ |- _ => apply elem_of_app in H; destruct H
        | H : _ ∈ _ :: _ |- _ => apply elem_of_cons in H; destruct H
        | H : _ ∈ [] |- _ => apply elem_of_nil in H; destruct H
        end; simplify_eq/=; eauto.
    + (split; [|split]); intros; try split; try intros ?;
        repeat match goal with
        | H : _ ∈ _ :: _ |- _ => apply elem_of_cons in H; destruct H
        | H : _ ∈ [] |- _ => apply elem_of_nil in H; destruct H
        end; try discriminate.
  - simpl. (split; [|split]); intros; try split; try intros ?; try discriminate;
      match goal with H : _ ∈ [] |- _ => apply elem_of_nil in H; destruct H end.
Qed.

Lemma scene_stats_missing (c : corrector) (sc : scene) :
  meta c !! PyStr.path_stem (tif_path sc) = None -> scene_stats c sc = [].
Proof.
  intros E. unfold scene_stats. rewrite (process_one_missing _ _ E). reflexivity.
Qed.

Lemma stats_skip_stem (c : corrector) (stem : string) (scenes : list scene) :
  meta c !! stem = None ->
  scenes ≫= scene_stats c =
    filter (fun sc' => PyStr.path_stem (tif_path sc') <> stem) scenes ≫= scene_stats c.
Proof.
  intros E. induction scenes as [|sc' scenes IH]; [reflexivity|].
  rewrite filter_cons. destruct (decide (PyStr.path_stem (tif_path sc') <> stem)) as [Hne|Heq].
  - change ((sc' :: scenes) ≫= scene_stats c)
      with (scene_stats c sc' ++ (scenes ≫= scene_stats c)).
    rewrite IH. reflexivity.
  - apply dec_stable in Heq.
    change ((sc' :: scenes) ≫= scene_stats c)
      with (scene_stats c sc' ++ (scenes ≫= scene_stats c)).
    rewrite scene_stats_missing by (rewrite Heq; exact E). exact IH.
Qed.

(** A scene whose stem is absent from the metadata index of a corrector. *)
Lemma missing_stem_is_skipped (c : corrector) (scenes : list scene) (sc : scene) :
  sc ∈ scenes ->
  meta c !! PyStr.path_stem (tif_path sc) = None ->
  skipped_not_the_batch (process_one c) (run c) scenes sc.
Proof.
  intros Hin Hmiss. unfold skipped_not_the_batch.
  set (stem := PyStr.path_stem (tif_path sc)).
  set (err := KeyError ("No start_time for " +:+ stem)).
  rewrite !run_flat. simpl.
  assert (Hp : process_one c sc = ([], Raise err)) by exact (process_one_missing c sc Hmiss).
  assert (Hown : forall sc'' s, sc'' ∈ scenes -> (process_one c sc'').2 = Ok s ->
            s_file s <> stem +:+ "_if.tif").
  { intros sc'' s _ Hs Hf.
    destruct (process_one_outputs c sc'') as (_ & Hst & _).
    destruct (Hst s Hs) as [Hname [t Ht]]. rewrite Hname in Hf.
    apply string_app_inj_r in Hf. rewrite Hf in Ht. fold stem in Hmiss. congruence. }
  split; [exact Hp|]. split; [|split; [|split; [|split]]].
  - apply list_elem_of_bind. exists sc. split; [|exact Hin].
    unfold scene_events. rewrite Hp. simpl. apply list_elem_of_here.
  - intros px Hpx. apply list_elem_of_bind in Hpx as (sc'' & Hev & Hsc).
    unfold scene_events in Hev. apply elem_of_app in Hev as [Hev|Hev].
    + destruct (process_one_outputs c sc'') as (Hr & _ & _).
      destruct (Hr _ _ Hev) as [Hname [t Ht]].
      apply string_app_inj_r in Hname. rewrite <- Hname in Ht.
      fold stem in Hmiss. congruence.
    + destruct ((process_one c sc'').2);
        repeat (apply elem_of_cons in Hev as [Hev|Hev]; [discriminate|]);
        apply elem_of_nil in Hev; destruct Hev.
  - intros s Hf. split; [|split].
    + intros Hs. apply list_elem_of_bind in Hs as (sc'' & Hs & Hsc).
      unfold scene_stats in Hs. destruct ((process_one c sc'').2) as [s'|] eqn:Er.
      * apply list_elem_of_singleton in Hs as ->. exact (Hown sc'' s' Hsc Er Hf).
      * apply elem_of_nil in Hs. destruct Hs.
    + intros Hs. apply list_elem_of_bind in Hs as (sc'' & Hev & Hsc).
      unfold scene_events in Hev. apply elem_of_app in Hev as [Hev|Hev].
      * destruct (process_one_outputs c sc'') as (_ & _ & Hn).
        destruct (Hn s) as [Hn1 _]. contradiction.
      * destruct ((process_one c sc'').2) as [s'|] eqn:Er.
        -- apply elem_of_cons in Hev as [Hev|Hev].
           ++ injection Hev as ->. exact (Hown sc'' s' Hsc Er Hf).
           ++ apply list_elem_of_singleton in Hev. discriminate.
        -- apply list_elem_of_singleton in Hev. discriminate.
    + intros Hs. apply list_elem_of_bind in Hs as (sc'' & Hev & Hsc).
      unfold scene_events in Hev. apply elem_of_app in Hev as [Hev|Hev].
      * destruct (process_one_outputs c sc'') as (_ & _ & Hn).
        destruct (Hn s) as [_ Hn2]. contradiction.
      * destruct ((process_one c sc'').2) as [s'|] eqn:Er.
        -- apply elem_of_cons in Hev as [Hev|Hev]; [discriminate|].
           apply list_elem_of_singleton in Hev. injection Hev as ->.
           exact (Hown sc'' s' Hsc Er Hf).
        -- apply list_elem_of_singleton in Hev. discriminate.
  - intros sc' Hsc'. split.
    + intros e He. apply list_elem_of_bind. exists sc'. split; [|exact Hsc'].
      unfold scene_events. apply elem_of_app. left. exact He.
    + intros s Hs. split; [|split]; apply list_elem_of_bind; exists sc';
        (split; [|exact Hsc']).
      * unfold scene_stats. rewrite Hs. apply list_elem_of_here.
      * unfold scene_events. rewrite Hs. apply elem_of_app. right. apply list_elem_of_here.
      * unfold scene_events. rewrite Hs. apply elem_of_app. right.
        apply list_elem_of_further, list_elem_of_here.
  - apply stats_skip_stem. exact Hmiss.
Qed.

(** The index built from a catalogue whose start times all parse knows
    the stems of its rows and no other. *)
Lemma read_meta_parses (rows : list meta_row) (m0 : gmap string Z) :
  Forall (fun row => is_Some (row_time row)) rows ->
  exists m, read_meta m0 rows = Ok m /\
    forall stem, m !! stem = None <-> (m0 !! stem = None /\ stem ∉ catalogue_stems rows).
Proof.
  intros Hall. revert m0. induction Hall as [|row rows [t Ht] _ IH]; intros m0.
  - exists m0. split; [reflexivity|]. intros stem. split; [|tauto].
    intros Hm. split; [exact Hm|]. intros Hin. inversion Hin.
  - unfold row_time in Ht. simpl.
    destruct (start_time row) as [t'|] eqn:Et; [|discriminate]. injection Ht as ->.
    simpl. destruct (IH (<[PyStr.path_stem (file_name row) := t]> m0)) as (m & Hm & Hlook).
    exists m. split; [exact Hm|]. intros stem. rewrite Hlook.
    change (catalogue_stems (row :: rows))
      with (PyStr.path_stem (file_name row) :: catalogue_stems rows).
    rewrite not_elem_of_cons.
    destruct (decide (PyStr.path_stem (file_name row) = stem)) as [Heq|Hne].
    + rewrite <- Heq, lookup_insert_eq. split; [intros [Hd _]; discriminate|].
      intros [_ [Hd _]]. congruence.
    + rewrite lookup_insert_ne by exact Hne. split.
      * intros [H0 Hrest]. split; [exact H0|]. split; [congruence|exact Hrest].
      * intros [H0 [_ Hrest]]. split; assumption.
Qed.

(** The first start time that does not parse stops the loop. *)
Lemma read_meta_raises (good : list meta_row) (bad : meta_row) (rest : list meta_row)
    (err : exn) (m0 : gmap string Z) :
  Forall (fun row => is_Some (row_time row)) good -> start_time bad = Raise err ->
  read_meta m0 (good ++ bad :: rest) = Raise err.
Proof.
  intros Hgood Hbad. revert m0.
  induction Hgood as [|row good [t Ht] _ IH]; intros m0; simpl.
  - rewrite Hbad. reflexivity.
  - unfold row_time in Ht. destruct (start_time row); [|discriminate]. simpl. apply IH.
Qed.

(** C8, as amended. A catalogue whose start times all parse gives a
    corrector, and in any batch a scene whose stem has no row in it is
    skipped, not the batch: [process_one] raises a [KeyError] (the
    missing timing record) before it writes anything, [run] logs the
    error and goes on, no raster and no QA row is produced for that stem
    and every other scene is processed and its outputs kept. A row whose
    start time does not parse makes the constructor raise the error of
    [strptime]: [run_minnaert_correction] raises and no scene is
    processed; so does a catalogue that is not there, with
    [FileNotFoundError]. The last part is the first one for any
    corrector, by its index. *)
Theorem missing_timing_record_skips_scene (rows : list meta_row) :
  (Forall (fun row => is_Some (row_time row)) rows ->
   forall (oat spm : option (list string)) (d g e : Q),
   exists c, init float (Some rows) oat spm d g e = Ok c /\
     forall (scenes : list scene) (sc : scene),
       sc ∈ scenes -> PyStr.path_stem (tif_path sc) ∉ catalogue_stems rows ->
       skipped_not_the_batch (process_one c) (run c) scenes sc) /\
  (forall (good : list meta_row) (bad : meta_row) (rest : list meta_row) (err : exn),
     rows = good ++ bad :: rest ->
     Forall (fun row => is_Some (row_time row)) good -> start_time bad = Raise err ->
     (forall (oat spm : option (list string)) (d g e : Q),
        init float (Some rows) oat spm d g e = Raise err) /\
     (forall (w : workspace) (mode : process_mode) (cfg : gmap string (gmap string jnum)),
        match mode with
        | Crop => metadata_catalog_cropped w
        | _ => metadata_catalog w
        end = Some rows ->
        exists err',
          run_minnaert_correction float np_cos_deg np_power np_std np_mean w mode cfg
          = Raise err')) /\
  (forall (oat spm : option (list string)) (d g e : Q),
     init float None oat spm d g e = Raise FileNotFoundError) /\
  (forall (c : corrector) (scenes : list scene) (sc : scene),
     sc ∈ scenes -> meta c !! PyStr.path_stem (tif_path sc) = None ->
     skipped_not_the_batch (process_one c) (run c) scenes sc).
Proof.
  split; [|split; [|split]].
  - intros Hall oat spm d g e.
    destruct (read_meta_parses rows ∅ Hall) as (m & Hm & Hlook).
    unfold init. simpl. rewrite Hm. simpl.
    destruct (match oat with Some l => parse_oat float l | None => ([], []) end)
      as [ot ev].
    destruct (match spm with Some l => parse_spm float l | None => ([], []) end)
      as [st sv].
    eexists. split; [reflexivity|]. intros scenes sc Hin Hstem.
    apply missing_stem_is_skipped; [exact Hin|]. simpl.
    apply Hlook. split; [apply lookup_empty|exact Hstem].
  - intros good bad rest err -> Hgood Hbad. split.
    + intros oat spm d g e. unfold init. simpl.
      rewrite (read_meta_raises good bad rest err ∅ Hgood Hbad). reflexivity.
    + intros w mode cfg Hcat. unfold run_minnaert_correction, getkey.
      destruct (cfg !! "minnaert") as [cc|]; simpl; [|eauto].
      destruct (cc !! "dark_current") as [dk|]; simpl; [|eauto].
      destruct (cc !! "gain") as [gn|]; simpl; [|eauto].
      destruct (cc !! "k_exponent") as [ke|]; simpl; [|eauto].
      rewrite Hcat. unfold init. simpl.
      rewrite (read_meta_raises good bad rest err ∅ Hgood Hbad). simpl. eauto.
  - reflexivity.
  - intros c scenes sc. apply missing_stem_is_skipped.
Qed.
End BatchClaims.

Lemma missing_timing_record_skips_scene_witness :
  (Correction.run PyStr.float_decimal (fun _ => 1%Q) (fun _ _ => 1%Q) (fun _ => 0%Q) (fun _ => 0%Q)
     sample_corrector [scene_a; scene_b]).2
  = (Correction.run PyStr.float_decimal (fun _ => 1%Q) (fun _ _ => 1%Q) (fun _ => 0%Q) (fun _ => 0%Q)
       sample_corrector [scene_a]).2.
Proof.
  destruct (missing_timing_record_skips_scene PyStr.float_decimal
              (fun _ => 1%Q) (fun _ _ => 1%Q) (fun _ => 0%Q) (fun _ => 0%Q)
              [{| Correction.file_name := "a.img";
                  Correction.start_time := Ok 63699384605 |}])
    as (Hread & _).
  destruct (Hread ltac:(repeat constructor; vm_compute; eauto) None None 10%Q (2 # 1000)%Q (7 # 10)%Q)
    as (c & Hc & Hskip).
  vm_compute in Hc. injection Hc as <-.
  destruct (Hskip [scene_a; scene_b] scene_b) as (_ & _ & _ & _ & _ & Hstats).
  - apply list_elem_of_further, list_elem_of_here.
  - vm_compute. intros Hin. apply list_elem_of_singleton in Hin. discriminate Hin.
  - exact Hstats.
Defined.

(** C8 (as stated) fails: the catalogue has a row for scene [b] whose
    start time does not parse, so [b] has no resolvable acquisition
    timestamp. The constructor raises and the batch aborts: scene [a],
    whose row is sound, is not processed either. With the catalogue that
    has no row for [b] at all, the batch runs and [a] is processed. *)
Lemma unparsable_start_time_aborts_batch :
  Correction.run_minnaert_correction PyStr.float_decimal (fun _ => 1%Q) (fun _ _ => 1%Q)
    (fun _ => 0%Q) (fun _ => 0%Q) broken_workspace Correction.Original out_of_range_config
  = Raise ValueError /\
  exists trace s,
    Correction.run_minnaert_correction PyStr.float_decimal (fun _ => 1%Q) (fun _ _ => 1%Q)
      (fun _ => 0%Q) (fun _ => 0%Q) sample_workspace Correction.Original out_of_range_config
    = Ok (trace, [s]) /\ Correction.s_file s = "a_if.tif"%string.
Proof.
  split; [vm_compute; reflexivity|].
  vm_compute. do 2 eexists. split; reflexivity.
Qed.

(** ** The configuration *)

Section ConfigurationClaims.
Import Correction.
Variable float : string -> result Q.
Variable np_cos_deg : Q -> Q.
Variable np_power : Q -> Q -> Q.
Variable np_std : list Q -> Q.
Variable np_mean : list Q -> Q.
Variable gaussian_filter : list (list Q) -> Q -> list (list Q).

Abbreviation run_to_correction :=
  (Main.run_to_correction float np_cos_deg np_power np_std np_mean).

(** C5 (as amended): a missing configuration file stops the run with
    [FileNotFoundError] at its start, and a missing Minnaert section or
    constant stops it with a [KeyError] before the correction of any
    scene; the values of the constants are not checked: once the keys
    are there, the gain, the dark current and the exponent reach the
    corrector, and sigma the normalisation, as they are. *)
Theorem configuration_failures (w : workspace) (mode : process_mode) :
  run_to_correction None w mode = Raise FileNotFoundError /\
  (forall cfg : gmap string (gmap string jnum),
     cfg !! "minnaert" = None \/
     (exists cc, cfg !! "minnaert" = Some cc /\
        (cc !! "dark_current" = None \/ cc !! "gain" = None \/
         cc !! "k_exponent" = None)) ->
     exists key, run_to_correction (Some cfg) w mode = Raise (KeyError key)) /\
  (forall (cfg : gmap string (gmap string jnum)) (cc : gmap string jnum) (d g e : jnum),
     cfg !! "minnaert" = Some cc ->
     cc !! "dark_current" = Some d -> cc !! "gain" = Some g ->
     cc !! "k_exponent" = Some e ->
     run_to_correction (Some cfg) w mode =
       (c ← init float
              (match mode with
               | Crop => metadata_catalog_cropped w
               | _ => metadata_catalog w
               end)
              (oat_file w) (spm_file w) (jnum_Q d) (jnum_Q g) (jnum_Q e);
        Ok (run float np_cos_deg np_power np_std np_mean c (level0 w)))) /\
  (forall (cfg : gmap string (gmap string jnum)) (al : gmap string jnum) (sg : jnum)
          (g : list (list fval)),
     cfg !! "albedo" = Some al -> al !! "sigma" = Some sg ->
     Albedo.run_albedo_correction gaussian_filter (Ok g) cfg =
       Ok (Albedo.normalize_and_visualize gaussian_filter g (jnum_Q sg))).
Proof.
  unfold Main.run_to_correction, Main.load_config, run_minnaert_correction,
    Albedo.run_albedo_correction, getkey.
  split; [reflexivity|]. split; [|split].
  - intros cfg [Hnone|(cc & Hcc & Hkey)]; simpl.
    + rewrite Hnone. simpl. eauto.
    + rewrite Hcc. simpl.
      destruct (cc !! "dark_current") as [d|]; simpl; [|eauto].
      destruct (cc !! "gain") as [g|]; simpl; [|eauto].
      destruct (cc !! "k_exponent") as [e|]; simpl; [|eauto].
      destruct Hkey as [H|[H|H]]; discriminate.
  - intros cfg cc d g e Hcc Hd Hg He. simpl.
    rewrite Hcc. simpl. rewrite Hd. simpl. rewrite Hg. simpl. rewrite He. reflexivity.
  - intros cfg al sg g Hal Hsg. simpl. rewrite Hal. simpl. rewrite Hsg. reflexivity.
Qed.
End ConfigurationClaims.

Lemma configuration_failures_witness :
  exists key,
    Main.run_to_correction PyStr.float_decimal (fun _ => 1%Q) (fun _ _ => 1%Q)
      (fun _ => 0%Q) (fun _ => 0%Q) (Some gainless_config) sample_workspace Correction.Original
    = Raise (KeyError key).
Proof.
  destruct (configuration_failures PyStr.float_decimal (fun _ => 1%Q)
              (fun _ _ => 1%Q) (fun _ => 0%Q) (fun _ => 0%Q) (fun a _ => a)
              sample_workspace Correction.Original)
    as (_ & Hkey & _).
  apply Hkey. right. eexists. split; [vm_compute; reflexivity|].
  right. left. vm_compute. reflexivity.
Defined.

(** C5 (as stated) fails: with a gain of -1 and a sigma of 0 nothing
    halts. The correction processes the catalogued scene, whatever the
    numerical functions are, and the normalisation returns a raster. *)
Lemma out_of_range_configuration_runs :
  (jnum_Q <$> (out_of_range_config !! "minnaert" ≫= (.!! "gain")) = Some (-1)%Q /\
   jnum_Q <$> (out_of_range_config !! "albedo" ≫= (.!! "sigma")) = Some 0%Q) /\
  (forall (np_cos_deg : Q -> Q) (np_power : Q -> Q -> Q) (np_std np_mean : list Q -> Q),
     exists trace s,
       Main.run_to_correction PyStr.float_decimal np_cos_deg np_power np_std np_mean
         (Some out_of_range_config) sample_workspace Correction.Original
       = Ok (trace, [s]) /\
       Correction.s_file s = "a_if.tif"%string /\
       Correction.CsvRow s ∈ trace) /\
  Albedo.run_albedo_correction (fun a _ => a) (Ok [[Fin 1; Fin 3]]) out_of_range_config
  = Ok (Albedo.normalize_and_visualize (fun a _ => a) [[Fin 1; Fin 3]] 0).
Proof.
  split; [|split].
  - vm_compute. split; reflexivity.
  - intros np_cos_deg np_power np_std np_mean. vm_compute. do 2 eexists.
    split; [reflexivity|]. split; [reflexivity|].
    repeat first [apply list_elem_of_here | apply list_elem_of_further].
  - vm_compute. reflexivity.
Qed.

(** ** Shadow segmentation *)

Section ShadowClaims.
Import Shadow.

Lemma pixels_grid_map {A B : Type} (f : A -> B) (g : list (list A)) :
  pixels (grid_map f g) = f <$> pixels g.
Proof.
  unfold pixels, grid_map. induction g as [|r g IH]; simpl; [reflexivity|].
  rewrite IH, fmap_app. reflexivity.
Qed.

(** A pass keeps the shape, and relates each new pixel to the old one as
    its function does. *)
Lemma at_each_Forall2 (R : bool -> bool -> Prop) (f : Z -> Z -> bool)
    (m : list (list bool)) :
  (forall (i j : nat) row x, m !! i = Some row -> row !! j = Some x ->
     R (f (Z.of_nat i) (Z.of_nat j)) x) ->
  Forall2 (Forall2 R) (at_each f m) m.
Proof.
  intros H. unfold at_each.
  apply Forall2_same_length_lookup_2; [apply length_imap|].
  intros i r' row Hr' Hrow. rewrite list_lookup_imap, Hrow in Hr'.
  injection Hr' as <-.
  apply Forall2_same_length_lookup_2; [apply length_imap|].
  intros j y x Hy Hx. rewrite list_lookup_imap, Hx in Hy.
  injection Hy as <-. eapply H; eauto.
Qed.

Lemma at_each_shape (f : Z -> Z -> bool) (m : list (list bool)) :
  same_shape (at_each f m) m.
Proof.
  unfold same_shape.
  eapply Forall2_impl; [apply (at_each_Forall2 (fun _ _ => True)); auto|].
  intros r1 r2 Hr. eapply Forall2_length, Hr.
Qed.

Lemma pixel_lookup (m : list (list bool)) (i j : nat) row x :
  m !! i = Some row -> row !! j = Some x ->
  pixel m (Z.of_nat i) (Z.of_nat j) = x.
Proof.
  intros Hrow Hx. unfold pixel.
  destruct (Z.ltb_spec (Z.of_nat i) 0); [lia|].
  destruct (Z.ltb_spec (Z.of_nat j) 0); [lia|]. simpl.
  rewrite !Nat2Z.id, Hrow, Hx. reflexivity.
Qed.

(** *** Repetition until stable: the fuel is enough *)

Lemma count_le_size (v : bool) (m : list (list bool)) : (count v m <= gsize m)%nat.
Proof. unfold count, gsize. apply length_filter. Qed.

Lemma count_row_mono (v : bool) (l1 l2 : list bool) :
  Forall2 (fun a b => a = v -> b = v) l1 l2 ->
  (length (filter (fun b => b = v) l1) <= length (filter (fun b => b = v) l2))%nat /\
  (length (filter (fun b => b = v) l1) = length (filter (fun b => b = v) l2) -> l1 = l2).
Proof.
  induction 1 as [|a b l1 l2 Hab _ [IHle IHeq]]; [auto|].
  rewrite !filter_cons.
  destruct (decide (a = v)) as [Ha|Ha], (decide (b = v)) as [Hb|Hb]; simpl.
  - split; [lia|]. intros E. f_equal; [congruence|]. apply IHeq. lia.
  - tauto.
  - split; [lia|]. intros E. lia.
  - split; [lia|]. intros E. f_equal; [|apply IHeq, E].
    destruct a, b, v; congruence.
Qed.

Lemma count_mono (v : bool) (m1 m2 : list (list bool)) :
  Forall2 (Forall2 (fun a b => a = v -> b = v)) m1 m2 ->
  (count v m1 <= count v m2)%nat /\ (count v m1 = count v m2 -> m1 = m2).
Proof.
  unfold count, pixels.
  induction 1 as [|r1 r2 m1 m2 Hr _ [IHle IHeq]]; [auto|]. simpl.
  rewrite !filter_app, !length_app.
  destruct (count_row_mono v r1 r2 Hr) as [Hle Heq].
  split; [lia|]. intros E. f_equal; [apply Heq|apply IHeq]; lia.
Qed.

(** A pass that can only clear (or only set) pixels stops changing the
    mask within one pass per pixel. *)
Lemma until_stable_fixpoint (v : bool) (op : list (list bool) -> list (list bool))
    (fuel : nat) (m : list (list bool)) :
  (forall m', Forall2 (Forall2 (fun a b => a = v -> b = v)) (op m') m') ->
  (count v m < fuel)%nat ->
  op (until_stable fuel op m) = until_stable fuel op m.
Proof.
  intros Hop. revert m. induction fuel as [|fuel IH]; intros m Hlt; [lia|].
  simpl. destruct (decide (op m = m)) as [E|Hne].
  - rewrite E. exact E.
  - apply IH. destruct (count_mono v (op m) m (Hop m)) as [Hle Heq].
    assert (count v (op m) <> count v m) by (intros E; apply Hne, Heq, E). lia.
Qed.

Lemma origin_in_struct (f : Z * Z -> bool) :
  forallb f STRUCT = true -> f (0, 0) = true.
Proof. intros H. rewrite forallb_forall in H. apply H. unfold STRUCT. simpl. tauto. Qed.

Lemma erode_clears (m : list (list bool)) :
  Forall2 (Forall2 (fun a b => a = true -> b = true)) (erode m) m.
Proof.
  unfold erode. apply at_each_Forall2. intros i j row x Hrow Hx Hall.
  apply origin_in_struct in Hall. simpl in Hall.
  rewrite !Z.add_0_r, (pixel_lookup m i j row x Hrow Hx) in Hall. exact Hall.
Qed.

Lemma dilate_sets (m : list (list bool)) :
  Forall2 (Forall2 (fun a b => a = false -> b = false)) (dilate m) m.
Proof.
  unfold dilate. apply at_each_Forall2. intros i j row x Hrow Hx Hnone.
  destruct x; [|reflexivity]. rewrite <- Hnone. symmetry.
  apply existsb_exists. exists (0, 0). split; [unfold STRUCT; simpl; tauto|].
  simpl. rewrite !Z.sub_0_r. apply (pixel_lookup m i j row true Hrow Hx).
Qed.

(** With [iterations < 1] the erosion and the dilation return a mask
    that a further pass leaves unchanged. *)
Lemma binary_erosion_stable (m : list (list bool)) (iterations : Z) :
  iterations < 1 -> erode (binary_erosion m iterations) = binary_erosion m iterations.
Proof.
  intros Hn. unfold binary_erosion, repeated.
  destruct (Z.leb_spec 1 iterations); [lia|].
  apply (until_stable_fixpoint true); [apply erode_clears|].
  pose proof (count_le_size true m). lia.
Qed.

Lemma binary_dilation_stable (m : list (list bool)) (iterations : Z) :
  iterations < 1 -> dilate (binary_dilation m iterations) = binary_dilation m iterations.
Proof.
  intros Hn. unfold binary_dilation, repeated.
  destruct (Z.leb_spec 1 iterations); [lia|].
  apply (until_stable_fixpoint false); [apply dilate_sets|].
  pose proof (count_le_size false m). lia.
Qed.

(** After an erosion the first pixel is clear: the structure centred on
    it reaches over the border. *)
Lemma erode_corner (m : list (list bool)) : pixel (erode m) 0 0 = false.
Proof.
  unfold pixel, erode, at_each. simpl. change (Z.to_nat 0) with 0%nat.
  rewrite list_lookup_imap. destruct (m !! 0%nat) as [row|]; simpl; [|reflexivity].
  rewrite list_lookup_imap. destruct (row !! 0%nat); reflexivity.
Qed.

Lemma until_stable_erode_corner (fuel : nat) (m : list (list bool)) :
  pixel (until_stable fuel erode (erode m)) 0 0 = false.
Proof.
  revert m. induction fuel as [|fuel IH]; intros m; simpl.
  - apply erode_corner.
  - destruct (decide (erode (erode m) = erode m)); [apply erode_corner|apply IH].
Qed.

Lemma binary_erosion_corner (m : list (list bool)) (iterations : Z) :
  pixel (binary_erosion m iterations) 0 0 = false.
Proof.
  unfold binary_erosion, repeated. destruct (1 <=? iterations) eqn:E.
  - destruct (Z.to_nat iterations) as [|n] eqn:En; [lia|].
    simpl. apply erode_corner.
  - simpl. destruct (decide (erode m = m)); [apply erode_corner|].
    apply until_stable_erode_corner.
Qed.

(** Whatever the branch, the mask has lost its first pixel after the
    cleanup: the closing ends with an erosion against a zero border. *)
Lemma segment_corner (k : constants) (sun_elevations : gmap string Q)
    (stem : string) (arr : list (list fval)) :
  pixel (mask (segment k sun_elevations stem arr)) 0 0 = false.
Proof.
  unfold segment. destruct (threshold _ _ _) as [raw why]. simpl.
  unfold cleanup, binary_closing. apply binary_erosion_corner.
Qed.

(** *** The mask has the shape of the raster *)

Lemma same_shape_trans {A B C : Type} (a : list (list A)) (b : list (list B))
    (c : list (list C)) :
  same_shape a b -> same_shape b c -> same_shape a c.
Proof.
  unfold same_shape. intros Hab. revert c.
  induction Hab as [|r1 r2 a b Hr _ IH]; intros c Hbc; inversion Hbc; subst.
  - constructor.
  - constructor; [congruence|]. apply IH. assumption.
Qed.

Lemma grid_map_shape {A B : Type} (f : A -> B) (g : list (list A)) :
  same_shape (grid_map f g) g.
Proof.
  unfold same_shape, grid_map. induction g as [|r g IH]; simpl; constructor.
  - apply length_map.
  - exact IH.
Qed.

Lemma same_shape_refl {A : Type} (g : list (list A)) : same_shape g g.
Proof. unfold same_shape. induction g; constructor; auto. Qed.

Lemma repeated_shape (op : list (list bool) -> list (list bool)) (iterations : Z)
    (m : list (list bool)) :
  (forall m', same_shape (op m') m') -> same_shape (repeated op iterations m) m.
Proof.
  intros Hop. unfold repeated. destruct (1 <=? iterations).
  - induction (Z.to_nat iterations) as [|n IH]; simpl.
    + apply same_shape_refl.
    + eapply same_shape_trans; [apply Hop|exact IH].
  - generalize (S (gsize m)). intros fuel. revert m.
    induction fuel as [|fuel IH]; intros m; simpl.
    + apply same_shape_refl.
    + destruct (decide (op m = m)); [apply Hop|].
      eapply same_shape_trans; [apply IH|apply Hop].
Qed.

Lemma cleanup_shape (k : constants) (m : list (list bool)) :
  same_shape (cleanup k m) m.
Proof.
  unfold cleanup, binary_closing, binary_opening, binary_erosion, binary_dilation.
  repeat (eapply same_shape_trans;
          [apply repeated_shape; intros; apply at_each_shape|]).
  apply same_shape_refl.
Qed.

Lemma threshold_shape (k : constants) (sun_el : Q) (arr : list (list fval)) :
  same_shape (threshold k sun_el arr).1 arr.
Proof. unfold threshold. destruct (Qlt_bool _ _); simpl; apply grid_map_shape. Qed.

(** C9: for every raster, every metadata table and every set of
    constants, each value of the mask written after the opening and the
    closing is 0 or 1; it is the 0/1 image of the boolean mask and has
    the dimensions of the raster. *)
Theorem written_mask_is_binary (k : constants) (sun_elevations : gmap string Q)
    (stem : string) (arr : list (list fval)) :
  Forall (fun v : Z => v = 0 \/ v = 1)
    (pixels (written (segment k sun_elevations stem arr))) /\
  written (segment k sun_elevations stem arr) =
    as_uint8 (binary_closing
                (binary_opening
                   (threshold k (sun_elevation sun_elevations stem) arr).1
                   (MORPH_ITERS k))
                (MORPH_ITERS k)) /\
  same_shape (written (segment k sun_elevations stem arr)) arr.
Proof.
  pose proof (threshold_shape k (sun_elevation sun_elevations stem) arr) as Hsh.
  unfold segment. destruct (threshold _ _ _) as [raw why]. simpl in *.
  split; [|split].
  - unfold as_uint8. rewrite pixels_grid_map. apply Forall_fmap, Forall_true.
    intros [|]; simpl; auto.
  - reflexivity.
  - eapply same_shape_trans; [apply grid_map_shape|].
    eapply same_shape_trans; [apply cleanup_shape|exact Hsh].
Qed.

(** The table built from a catalogue whose sun elevations all parse
    knows the stems of its rows and no other. *)
Lemma load_sun_elevation_parses (rows : list (string * result Q)) (m0 : gmap string Q) :
  Forall (fun row : string * result Q => exists e, row.2 = Ok e) rows ->
  exists table, load_sun_elevation m0 rows = Ok table /\
    forall stem,
      table !! stem = None <-> (m0 !! stem = None /\ stem ∉ sun_catalogue_stems rows).
Proof.
  intros Hall. revert m0. induction Hall as [|[name el] rows [e He] _ IH]; intros m0.
  - exists m0. split; [reflexivity|]. intros stem. split; [|tauto].
    intros Hm. split; [exact Hm|]. intros Hin. inversion Hin.
  - simpl in He. subst el. simpl.
    destruct (IH (<[PyStr.path_stem name := e]> m0)) as (table & Ht & Hlook).
    exists table. split; [exact Ht|]. intros stem. rewrite Hlook.
    change (sun_catalogue_stems ((name, Ok e) :: rows))
      with (PyStr.path_stem name :: sun_catalogue_stems rows).
    rewrite not_elem_of_cons.
    destruct (decide (PyStr.path_stem name = stem)) as [Heq|Hne].
    + rewrite <- Heq, lookup_insert_eq. split; [intros [Hd _]; discriminate|].
      intros [_ [Hd _]]. congruence.
    + rewrite lookup_insert_ne by exact Hne. split.
      * intros [H0 Hrest]. split; [exact H0|]. split; [congruence|exact Hrest].
      * intros [H0 [_ Hrest]]. split; assumption.
Qed.

(** The first sun elevation that does not parse stops the loop. *)
Lemma load_sun_elevation_raises (good : list (string * result Q)) (name : string)
    (err : exn) (rest : list (string * result Q)) (m0 : gmap string Q) :
  Forall (fun row : string * result Q => exists e, row.2 = Ok e) good ->
  load_sun_elevation m0 (good ++ (name, Raise err) :: rest) = Raise err.
Proof.
  intros Hgood. revert m0.
  induction Hgood as [|[n el] good [e He] _ IH]; intros m0; simpl; [reflexivity|].
  simpl in He. subst el. simpl. apply IH.
Qed.

Lemma mapM_result_inv {A B : Type} (f : A -> result B) (l : list A) (out : list B) :
  mapM f l = Ok out -> forall y, y ∈ out -> exists x, x ∈ l /\ f x = Ok y.
Proof.
  revert out. induction l as [|a l IH]; intros out Hout y Hy; simpl in Hout.
  - injection Hout as <-. inversion Hy.
  - destruct (f a) as [b|e] eqn:Ea; simpl in Hout; [|discriminate].
    destruct (mapM f l) as [bs|e] eqn:El; simpl in Hout; [|discriminate].
    injection Hout as <-. apply elem_of_cons in Hy as [->|Hy].
    + exists a. split; [apply list_elem_of_here|exact Ea].
    + destruct (IH bs eq_refl y Hy) as (x & Hx & Hfx).
      exists x. split; [apply list_elem_of_further; exact Hx|exact Hfx].
Qed.

(** The branch of a scene the table does not know. *)
Lemma default_sun_elevation_branch (k : constants) (sun_elevations : gmap string Q)
    (stem : string) (arr : list (list fval)) :
  sun_elevations !! stem = None ->
  sun_elevation sun_elevations stem = 45%Q /\
  ((SUN_EL_THRESHOLD k <= 45)%Q ->
     exists mean_if rel_thr,
       reason (segment k sun_elevations stem arr) = Adaptive mean_if rel_thr) /\
  ((45 < SUN_EL_THRESHOLD k)%Q ->
     reason (segment k sun_elevations stem arr) = SunLow 45).
Proof.
  intros Hnone. unfold segment, sun_elevation. rewrite Hnone. simpl.
  split; [reflexivity|]. unfold threshold, Qlt_bool. split; intros Hk.
  - destruct (Qle_bool (SUN_EL_THRESHOLD k) 45) eqn:E.
    + simpl. eauto.
    + apply Qle_bool_iff in Hk. congruence.
  - destruct (Qle_bool (SUN_EL_THRESHOLD k) 45) eqn:E.
    + apply Qle_bool_iff in E. exfalso. apply (Qlt_not_le _ _ Hk E).
    + reflexivity.
Qed.

(** C7, as amended. When every sun elevation of the catalogue parses,
    the table is loaded, and a scene whose stem has no row in it gets the
    default of 45 degrees: it goes through the adaptive threshold branch
    when [sun_el_threshold <= 45] and through the low-sun branch, with
    every pixel set, when [sun_el_threshold > 45]; so it is for each
    such scene in what [run_shadow_detection] returns. A row whose sun
    elevation is empty or does not parse makes [load_sun_elevation] raise
    the error of [float]: nothing is substituted, the stage raises and no
    scene is segmented; so it is when the catalogue is not there. The
    last part is the first one for any table. *)
Theorem missing_sun_elevation_branch (rows : list (string * result Q)) :
  (Forall (fun row : string * result Q => exists e, row.2 = Ok e) rows ->
   exists table, load_sun_elevation ∅ rows = Ok table /\
     (forall (k : constants) (stem : string) (arr : list (list fval)),
        stem ∉ sun_catalogue_stems rows ->
        sun_elevation table stem = 45%Q /\
        ((SUN_EL_THRESHOLD k <= 45)%Q ->
           exists mean_if rel_thr,
             reason (segment k table stem arr) = Adaptive mean_if rel_thr) /\
        ((45 < SUN_EL_THRESHOLD k)%Q ->
           reason (segment k table stem arr) = SunLow 45)) /\
     (forall (cfg : gmap string (gmap string jnum)) (sh : gmap string jnum) (sun : jnum)
             (scenes : list (string * result (list (list fval))))
             (out : list (string * segmentation)) (stem : string) (seg : segmentation),
        cfg !! "shadow" = Some sh -> sh !! "sun_el_threshold" = Some sun ->
        run_shadow_detection cfg (Some rows) scenes = Ok out ->
        (stem, seg) ∈ out -> stem ∉ sun_catalogue_stems rows ->
        ((jnum_Q sun <= 45)%Q ->
           exists mean_if rel_thr, reason seg = Adaptive mean_if rel_thr) /\
        ((45 < jnum_Q sun)%Q -> reason seg = SunLow 45))) /\
  (forall (good : list (string * result Q)) (name : string) (err : exn)
          (rest : list (string * result Q)),
     rows = good ++ (name, Raise err) :: rest ->
     Forall (fun row : string * result Q => exists e, row.2 = Ok e) good ->
     load_sun_elevation ∅ rows = Raise err /\
     (forall (cfg : gmap string (gmap string jnum))
             (scenes : list (string * result (list (list fval)))),
        exists err', run_shadow_detection cfg (Some rows) scenes = Raise err')) /\
  (forall (cfg : gmap string (gmap string jnum))
          (scenes : list (string * result (list (list fval)))),
     exists err', run_shadow_detection cfg None scenes = Raise err') /\
  (forall (k : constants) (sun_elevations : gmap string Q) (stem : string)
          (arr : list (list fval)),
     sun_elevations !! stem = None ->
     sun_elevation sun_elevations stem = 45%Q /\
     ((SUN_EL_THRESHOLD k <= 45)%Q ->
        exists mean_if rel_thr,
          reason (segment k sun_elevations stem arr) = Adaptive mean_if rel_thr) /\
     ((45 < SUN_EL_THRESHOLD k)%Q ->
        reason (segment k sun_elevations stem arr) = SunLow 45)).
Proof.
  split; [|split; [|split]].
  - intros Hall. destruct (load_sun_elevation_parses rows ∅ Hall) as (table & Ht & Hlook).
    assert (Hnone : forall stem, stem ∉ sun_catalogue_stems rows -> table !! stem = None).
    { intros stem Hstem. apply Hlook. split; [apply lookup_empty|exact Hstem]. }
    exists table. split; [exact Ht|]. split.
    + intros k stem arr Hstem. apply default_sun_elevation_branch, Hnone, Hstem.
    + intros cfg sh sun scenes out stem seg Hsh Hsun Hrun Hin Hstem.
      unfold run_shadow_detection, getkey in Hrun. rewrite Hsh in Hrun. simpl in Hrun.
      rewrite Hsun in Hrun. simpl in Hrun.
      destruct (sh !! "abs_if_threshold") as [abs|]; simpl in Hrun; [|discriminate].
      destruct (sh !! "threshold_factor") as [factor|]; simpl in Hrun; [|discriminate].
      destruct (sh !! "min_if_valid") as [valid|]; simpl in Hrun; [|discriminate].
      destruct (sh !! "morph_iters") as [iters|]; simpl in Hrun; [|discriminate].
      rewrite Ht in Hrun. simpl in Hrun.
      destruct (mapM_result_inv _ _ _ Hrun _ Hin) as ([st read] & _ & Hf).
      destruct read as [arr|e]; simpl in Hf; [|discriminate].
      destruct (jnum_index iters) as [n|e]; simpl in Hf; [|discriminate].
      injection Hf as -> <-.
      destruct (default_sun_elevation_branch
                  {| SUN_EL_THRESHOLD := jnum_Q sun; ABS_IF_THRESHOLD := jnum_Q abs;
                     THRESHOLD_FACTOR := jnum_Q factor; MIN_IF_VALID := jnum_Q valid;
                     MORPH_ITERS := n |} table stem arr (Hnone stem Hstem))
        as (_ & Hadaptive & Hlow).
      split; assumption.
  - intros good name err rest -> Hgood.
    pose proof (load_sun_elevation_raises good name err rest ∅ Hgood) as Hload.
    split; [exact Hload|]. intros cfg scenes. unfold run_shadow_detection, getkey.
    destruct (cfg !! "shadow") as [sh|]; simpl; [|eauto].
    destruct (sh !! "sun_el_threshold") as [sun|]; simpl; [|eauto].
    destruct (sh !! "abs_if_threshold") as [abs|]; simpl; [|eauto].
    destruct (sh !! "threshold_factor") as [factor|]; simpl; [|eauto].
    destruct (sh !! "min_if_valid") as [valid|]; simpl; [|eauto].
    destruct (sh !! "morph_iters") as [iters|]; simpl; [|eauto].
    rewrite Hload. simpl. eauto.
  - intros cfg scenes. unfold run_shadow_detection, getkey.
    destruct (cfg !! "shadow") as [sh|]; simpl; [|eauto].
    destruct (sh !! "sun_el_threshold") as [sun|]; simpl; [|eauto].
    destruct (sh !! "abs_if_threshold") as [abs|]; simpl; [|eauto].
    destruct (sh !! "threshold_factor") as [factor|]; simpl; [|eauto].
    destruct (sh !! "min_if_valid") as [valid|]; simpl; [|eauto].
    destruct (sh !! "morph_iters") as [iters|]; simpl; eauto.
  - intros k sun_elevations stem arr. apply default_sun_elevation_branch.
Qed.
End ShadowClaims.

(** C3, at a failing input: with the sun at 5 degrees under a threshold of
    10 the low-sun branch sets every pixel, and the cleanup then clears the
    border; on a 3 x 3 raster only the centre stays set and the coverage
    is 100/9 per cent. *)
Theorem low_sun_mask_loses_border :
  Shadow.threshold scenario_constants 5 (flat_raster 3 3)
  = ([[true; true; true]; [true; true; true]; [true; true; true]], Shadow.SunLow 5)
  /\ Shadow.mask (Shadow.segment scenario_constants {["scene" := 5%Q]} "scene" (flat_raster 3 3))
  = [[false; false; false]; [false; true; false]; [false; false; false]]
  /\ Shadow.shadow_pct (Shadow.segment scenario_constants {["scene" := 5%Q]} "scene" (flat_raster 3 3))
  = Fin (100 # 9).
Proof. vm_compute. repeat split. Qed.

Lemma missing_sun_elevation_branch_witness :
  exists table,
    Shadow.load_sun_elevation ∅ sun_rows = Ok table /\
    exists mean_if rel_thr,
      Shadow.reason (Shadow.segment scenario_constants table "scene" (flat_raster 3 3))
      = Shadow.Adaptive mean_if rel_thr.
Proof.
  destruct (missing_sun_elevation_branch sun_rows) as (Hparses & _).
  destruct Hparses as (table & Htable & Hbranch & _).
  - repeat constructor. simpl. eauto.
  - exists table. split; [exact Htable|].
    destruct (Hbranch scenario_constants "scene"%string (flat_raster 3 3))
      as (_ & Hadaptive & _).
    + vm_compute. intros Hin. apply list_elem_of_singleton in Hin. discriminate Hin.
    + apply Hadaptive. vm_compute. discriminate.
Defined.

(** C7 (as stated) fails, in two ways. With [sun_el_threshold = 50] a
    scene absent from the metadata table gets 45 degrees, and takes the
    low-sun branch. And a scene whose row in the catalogue has an empty
    sun elevation gets no default: [float('')] raises [ValueError] when
    the table is loaded, and the stage segments no scene. *)
Lemma missing_sun_elevation_low_sun :
  Shadow.reason
    (Shadow.segment
       {| Shadow.SUN_EL_THRESHOLD := 50; Shadow.ABS_IF_THRESHOLD := 5 # 100;
          Shadow.THRESHOLD_FACTOR := 1 # 2; Shadow.MIN_IF_VALID := 5 # 100;
          Shadow.MORPH_ITERS := 1 |}
       ∅ "scene" (flat_raster 3 3))
  = Shadow.SunLow 45 /\
  PyStr.float_decimal "" = Raise ValueError /\
  Shadow.run_shadow_detection shadow_config
    (Some [("scene.img"%string, PyStr.float_decimal "")])
    [("scene"%string, Ok (flat_raster 3 3))]
  = Raise ValueError.
Proof. vm_compute. repeat split. Qed.

(** ** Albedo normalisation *)

Lemma Qlt_bool_false (a b : Q) : Qlt_bool a b = false <-> (b <= a)%Q.
Proof.
  unfold Qlt_bool. rewrite negb_false_iff. apply Qle_bool_iff.
Qed.

Lemma same_shape_sym {A B : Type} (a : list (list A)) (b : list (list B)) :
  same_shape a b -> same_shape b a.
Proof. unfold same_shape. induction 1; constructor; auto. Qed.

Lemma same_shape_pixels {A B : Type} (a : list (list A)) (b : list (list B)) :
  same_shape a b -> length (pixels a) = length (pixels b).
Proof.
  unfold same_shape, pixels. induction 1 as [|r1 r2 a b Hr _ IH]; simpl; [reflexivity|].
  rewrite !length_app. lia.
Qed.

Lemma Qeq_bool_false (a b : Q) : ~ (a == b)%Q -> Qeq_bool a b = false.
Proof.
  intros H. destruct (Qeq_bool a b) eqn:E; [|reflexivity].
  apply Qeq_bool_iff in E. contradiction.
Qed.

Lemma Qsum_zero (l : list Q) : Forall (fun x => x == 0)%Q l -> (Qsum l == 0)%Q.
Proof.
  induction 1 as [|x l Hx _ IH]; simpl; [reflexivity|].
  rewrite Hx, IH. reflexivity.
Qed.

Lemma zero_quotients (a : list (list Q)) (b : list (list Q)) :
  Forall (fun x => x == 0)%Q (pixels a) ->
  Forall (fun x => x == 0)%Q (pixels (grid_zip Qdiv a b)).
Proof.
  unfold pixels, grid_zip. revert b.
  induction a as [|r a IH]; intros [|r' b] H; simpl in *; try constructor.
  apply Forall_app in H as [Hr Ha]. apply Forall_app. split; [|apply IH, Ha].
  clear -Hr. revert r'. induction Hr as [|x r Hx _ IHr]; intros [|t r']; simpl;
    constructor; [|apply IHr].
  unfold Qdiv. rewrite Hx. ring.
Qed.

Section AlbedoClaims.
Import Albedo.
Variable gaussian_filter : list (list Q) -> Q -> list (list Q).

(** C6, on every failing input: when the sanitised raster is all-zero,
    the mean of the detrended raster is zero, the rescaling factor
    [0.1 / mean] is infinite and every pixel of the result, zero times
    infinity, is NaN. *)
Theorem normalize_all_zero_is_nan (g : list (list fval)) (sigma : Q) :
  Forall (fun x => x == 0)%Q (pixels (sanitize g)) ->
  Forall (fun y => y = NaN) (pixels (normalize_and_visualize gaussian_filter g sigma)).
Proof.
  intros Hzero. unfold normalize_and_visualize.
  set (norm := grid_zip Qdiv (sanitize g) _).
  assert (Hnorm : Forall (fun x => x == 0)%Q (pixels norm)) by (apply zero_quotients, Hzero).
  pose proof (Qsum_zero _ Hnorm) as Hsum.
  rewrite pixels_grid_map. apply Forall_fmap.
  assert (Hscale : fdiv (Fin (1 # 10)) (Qmean (pixels norm)) = PInf \/
                   fdiv (Fin (1 # 10)) (Qmean (pixels norm)) = NaN).
  { unfold Qmean. simpl.
    destruct (Qeq_bool (inject_Z (Z.of_nat (length (pixels norm)))) 0) eqn:En.
    - right. unfold inf_times. apply Qeq_bool_iff in Hsum. rewrite Hsum. reflexivity.
    - left. simpl.
      assert (Qeq_bool (Qsum (pixels norm) / inject_Z (Z.of_nat (length (pixels norm)))) 0 = true) as ->.
      { apply Qeq_bool_iff. rewrite Hsum. unfold Qdiv. ring. }
      reflexivity. }
  eapply Forall_impl; [exact Hnorm|]. intros x Hx.
  change (fmul (Fin x) (fdiv (Fin (1 # 10)) (Qmean (pixels norm))) = NaN).
  apply Qeq_bool_iff in Hx.
  destruct Hscale as [-> | ->]; simpl; [|reflexivity].
  unfold inf_times. rewrite Hx. reflexivity.
Qed.
End AlbedoClaims.

(** C1 fails on the code. The raster has one pixel that is not zero, the
    smallest positive [float32]; the trend is floored to 1e-6, the
    detrended pixel is 1000000 * 2^-149 and the mean of the five pixels
    200000 * 2^-149, exactly (adding zeros and dividing by 5 round
    nothing here). Then [0.1 / mean], about 3.57e38, is above the largest
    [float32]: the factor is infinite and the raster written is one
    infinity and four NaN. The Gaussian filter is any that keeps the
    shape and returns values below 1e-6 on this raster, as an average of
    its pixels does. *)
Theorem normalize_overflows_on_tiny_mean
    (gaussian_filter : list (list spec_float) -> Q -> list (list spec_float))
    (np_mean : list spec_float -> spec_float) (sigma : Q) :
  same_shape (gaussian_filter tiny_raster sigma) tiny_raster ->
  Forall (fun t => Binary32.ltb t (Binary32.of_float 1e-6) = true)
    (pixels (gaussian_filter tiny_raster sigma)) ->
  np_mean [S754_finite false 1000000 (-149); Binary32.zero; Binary32.zero;
           Binary32.zero; Binary32.zero]
  = S754_finite false 200000 (-149) ->
  AlbedoFloat32.sanitize tiny_raster = tiny_raster /\
  Binary32.div (Binary32.of_float 0.1) (S754_finite false 200000 (-149))
  = S754_infinity false /\
  AlbedoFloat32.normalize_and_visualize gaussian_filter np_mean tiny_raster sigma
  = [[S754_infinity false; S754_nan; S754_nan; S754_nan; S754_nan]].
Proof.
  intros Hshape Hsmall Hmean.
  split; [reflexivity|]. split; [vm_compute; reflexivity|].
  unfold AlbedoFloat32.normalize_and_visualize.
  change (AlbedoFloat32.sanitize tiny_raster) with tiny_raster.
  destruct (gaussian_filter tiny_raster sigma) as [|row rows]; [inversion Hshape|].
  apply Forall2_cons_1 in Hshape as [Hrow Hrows].
  apply Forall2_nil_inv_r in Hrows as ->.
  destruct row as [|t0 [|t1 [|t2 [|t3 [|t4 [|t5 row]]]]]]; try discriminate Hrow.
  unfold pixels in Hsmall. simpl in Hsmall.
  inversion Hsmall as [|? ? H0 Hs1]; subst. inversion Hs1 as [|? ? H1 Hs2]; subst.
  inversion Hs2 as [|? ? H2 Hs3]; subst. inversion Hs3 as [|? ? H3 Hs4]; subst.
  inversion Hs4 as [|? ? H4 _]; subst.
  unfold tiny_raster, grid_map, grid_zip, pixels, AlbedoFloat32.floor_trend.
  cbn [List.map zip_with concat app]. rewrite H0, H1, H2, H3, H4.
  change (Binary32.div (Binary32.of_float 1e-45) (Binary32.of_float 1e-6))
    with (S754_finite false 1000000 (-149)).
  change (Binary32.div Binary32.zero (Binary32.of_float 1e-6)) with Binary32.zero.
  rewrite Hmean. vm_compute. reflexivity.
Qed.

Lemma normalize_overflows_on_tiny_mean_witness :
  AlbedoFloat32.normalize_and_visualize (fun a _ => a) mean_from_left tiny_raster 15
  = [[S754_infinity false; S754_nan; S754_nan; S754_nan; S754_nan]].
Proof.
  apply (normalize_overflows_on_tiny_mean (fun a _ => a) mean_from_left 15).
  - apply same_shape_refl.
  - repeat constructor.
  - vm_compute. reflexivity.
Defined.

Lemma normalize_all_zero_is_nan_witness :
  Forall (fun y => y = NaN)
    (pixels (Albedo.normalize_and_visualize (fun a _ => a) [[Fin 0; Fin (-1)]; [NaN; Fin 0]] 15)).
Proof.
  apply (normalize_all_zero_is_nan (fun a _ => a) [[Fin 0; Fin (-1)]; [NaN; Fin 0]] 15).
  vm_compute. repeat constructor.
Defined.

(** * Further properties of the code *)

(** ** The Minnaert corrector *)

Lemma Qmin_le (a b : Q) : (Correction.Qmin a b <= a /\ Correction.Qmin a b <= b)%Q.
Proof.
  unfold Correction.Qmin. destruct (Qle_bool a b) eqn:E.
  - apply Qle_bool_iff in E. split; [apply Qle_refl|exact E].
  - split; [|apply Qle_refl]. apply Qlt_le_weak, Qnot_le_lt. intros H.
    apply Qle_bool_iff in H. congruence.
Qed.

Lemma Qmax_ge (a b : Q) : (a <= Correction.Qmax a b /\ b <= Correction.Qmax a b)%Q.
Proof.
  unfold Correction.Qmax. destruct (Qle_bool b a) eqn:E.
  - apply Qle_bool_iff in E. split; [apply Qle_refl|exact E].
  - split; [|apply Qle_refl]. apply Qlt_le_weak, Qnot_le_lt. intros H.
    apply Qle_bool_iff in H. congruence.
Qed.

Lemma foldl_Qmin_le (x : Q) (l : list Q) :
  (foldl Correction.Qmin x l <= x)%Q /\
  Forall (fun v => foldl Correction.Qmin x l <= v)%Q l.
Proof.
  revert x. induction l as [|a l IH]; intros x; simpl.
  - split; [apply Qle_refl|constructor].
  - destruct (IH (Correction.Qmin x a)) as [Hx Hall].
    destruct (Qmin_le x a) as [H1 H2].
    split; [eapply Qle_trans; eauto|]. constructor; [eapply Qle_trans; eauto|exact Hall].
Qed.

Lemma foldl_Qmax_ge (x : Q) (l : list Q) :
  (x <= foldl Correction.Qmax x l)%Q /\
  Forall (fun v => v <= foldl Correction.Qmax x l)%Q l.
Proof.
  revert x. induction l as [|a l IH]; intros x; simpl.
  - split; [apply Qle_refl|constructor].
  - destruct (IH (Correction.Qmax x a)) as [Hx Hall].
    destruct (Qmax_ge x a) as [H1 H2].
    split; [eapply Qle_trans; eauto|]. constructor; [eapply Qle_trans; eauto|exact Hall].
Qed.

Lemma foldl_Qmin_in (x : Q) (l : list Q) : foldl Correction.Qmin x l ∈ x :: l.
Proof.
  revert x. induction l as [|a l IH]; intros x; simpl; [left|].
  specialize (IH (Correction.Qmin x a)). apply elem_of_cons in IH as [->|IH].
  - unfold Correction.Qmin. destruct (Qle_bool x a); [left|right; left].
  - right. right. exact IH.
Qed.

Lemma foldl_Qmax_in (x : Q) (l : list Q) : foldl Correction.Qmax x l ∈ x :: l.
Proof.
  revert x. induction l as [|a l IH]; intros x; simpl; [left|].
  specialize (IH (Correction.Qmax x a)). apply elem_of_cons in IH as [->|IH].
  - unfold Correction.Qmax. destruct (Qle_bool a x); [left|right; left].
  - right. right. exact IH.
Qed.

Section MinnaertMore.
Import Correction.
Variable float : string -> result Q.
Variable np_cos_deg : Q -> Q.
Variable np_power : Q -> Q -> Q.
Variable np_std : list Q -> Q.
Variable np_mean : list Q -> Q.

Abbreviation process_one' := (process_one float np_cos_deg np_power np_std np_mean).
Abbreviation run' := (run float np_cos_deg np_power np_std np_mean).
Abbreviation scene_events' := (scene_events float np_cos_deg np_power np_std np_mean).
Abbreviation scene_stats' := (scene_stats float np_cos_deg np_power np_std np_mean).

(** X3: with a non-negative gain, a raster whose digital counts do not
    exceed the dark current is corrected to a reflectance of zero
    everywhere, whatever the angles, the exponent and the power function. *)
Theorem minnaert_dark_is_zero (c : corrector) (mu0 mu : Q) (dn : list Q) :
  (0 <= gain c)%Q -> Forall (fun d => d <= dark c)%Q dn ->
  Forall (fun r => r == 0)%Q (minnaert np_power c mu0 mu dn).
Proof.
  intros Hg Hall. unfold minnaert. apply Forall_fmap.
  eapply Forall_impl; [exact Hall|]. intros d Hd. cbv beta in Hd. simpl.
  assert ((d - dark c) * gain c <= 0)%Q as Hneg.
  { assert (0 <= (dark c - d) * gain c)%Q as Hpos by (apply Qmult_le_0_compat; lra).
    assert ((d - dark c) * gain c == - ((dark c - d) * gain c))%Q as -> by ring.
    lra. }
  assert (Qmax ((d - dark c) * gain c) 0 == 0)%Q as ->.
  { unfold Qmax. destruct (Qle_bool 0 ((d - dark c) * gain c)) eqn:E; [|reflexivity].
    apply Qle_bool_iff in E. apply Qle_antisym; assumption. }
  ring.
Qed.

(** X4: the minimum and the maximum of the QA row [process_one] returns
    are those of the array it handed to [dst.write]: the array is not
    empty, both are values of it and every value of it lies between
    them. *)
Theorem process_one_stats_consistent (c : corrector) (sc : scene)
    (ev : list event) (s : stats) :
  process_one' c sc = (ev, Ok s) ->
  exists px, RasterWritten (s_file s) px ∈ ev /\ px <> [] /\
    Forall (fun v => s_min s <= v <= s_max s)%Q px /\
    s_min s ∈ px /\ s_max s ∈ px.
Proof.
  unfold Correction.process_one.
  destruct (meta c !! PyStr.path_stem (tif_path sc)) as [t|]; [|discriminate].
  destruct (scene_angles float c t (label sc)) as [inc em].
  destruct (band sc) as [dn|e]; [|discriminate].
  destruct (minnaert np_power c _ _ dn) as [|x l] eqn:Earr; simpl; [discriminate|].
  intros E. injection E as <- <-. simpl.
  exists (x :: l).
  destruct (foldl_Qmin_le x l) as [Hminx Hmin].
  destruct (foldl_Qmax_ge x l) as [Hmaxx Hmax].
  assert (Hall : Forall (fun v => foldl Qmin x l <= v <= foldl Qmax x l)%Q (x :: l)).
  { constructor; [split; assumption|].
    rewrite Forall_forall in Hmin, Hmax. apply Forall_forall. intros v Hv.
    split; [apply Hmin|apply Hmax]; exact Hv. }
  split; [|split; [discriminate|split; [exact Hall|split]]].
  - apply list_elem_of_further, list_elem_of_here.
  - apply foldl_Qmin_in.
  - apply foldl_Qmax_in.
Qed.

(** X5: [process_one] returns a QA row exactly when the stem of the scene
    is in the metadata index and band 1 of its raster is read and is not
    empty. Otherwise it raises: a [KeyError] before any effect for a
    missing stem, the error of the read once the angles are written, and
    a [ValueError] for an empty raster. *)
Theorem process_one_succeeds_iff (c : corrector) (sc : scene) :
  ((exists s, (process_one' c sc).2 = Ok s) <->
   (is_Some (meta c !! PyStr.path_stem (tif_path sc)) /\
    exists dn, band sc = Ok dn /\ dn <> [])) /\
  (meta c !! PyStr.path_stem (tif_path sc) = None ->
   exists msg, process_one' c sc = ([], Raise (KeyError msg))) /\
  (forall e, is_Some (meta c !! PyStr.path_stem (tif_path sc)) -> band sc = Raise e ->
   exists inc em src,
     process_one' c sc = ([AnglesJson (PyStr.path_stem (tif_path sc)) inc em src], Raise e)) /\
  (is_Some (meta c !! PyStr.path_stem (tif_path sc)) -> band sc = Ok [] ->
   (process_one' c sc).2 = Raise ValueError).
Proof.
  unfold Correction.process_one.
  destruct (meta c !! PyStr.path_stem (tif_path sc)) as [t|]; simpl.
  - destruct (scene_angles float c t (label sc)) as [inc em].
    destruct (band sc) as [[|d dn]|e]; simpl.
    + split; [split|].
      * intros [s Hs]. discriminate.
      * intros (_ & dn & Hdn & Hne). injection Hdn as <-. congruence.
      * split; [discriminate|]. split; [discriminate|]. reflexivity.
    + split; [split|].
      * intros _. split; [eauto|]. eexists. split; [reflexivity|discriminate].
      * intros _. eauto.
      * split; [discriminate|]. split; discriminate.
    + split; [split|].
      * intros [s Hs]. discriminate.
      * intros (_ & dn & Hdn & _). discriminate.
      * split; [discriminate|]. split; [|discriminate].
        intros e' _ E. injection E as <-. eauto.
  - split; [split|].
    + intros [s Hs]. discriminate.
    + intros ([t Ht] & _). discriminate.
    + split; [eauto|]. split.
      * intros e [t Ht]. discriminate.
      * intros [t Ht]. discriminate.
Qed.

Lemma scene_accounting (c : corrector) (sc : scene) :
  (length (scene_stats' c sc) + length (filter is_log_error (scene_events' c sc)) = 1)%nat /\
  length (filter is_csv_row (scene_events' c sc)) = length (scene_stats' c sc).
Proof.
  unfold Correction.scene_events, Correction.scene_stats, Correction.process_one.
  destruct (meta c !! PyStr.path_stem (tif_path sc)) as [t|]; simpl; [|split; reflexivity].
  destruct (scene_angles float c t (label sc)) as [inc em].
  destruct (band sc) as [dn|e]; simpl; [|split; reflexivity].
  destruct (minnaert np_power c _ _ dn) as [|x l]; simpl; split; reflexivity.
Qed.

(** X6: [run] accounts for every scene of the batch exactly once: the
    number of scenes is the number of QA rows plus the number of logged
    errors, and the CSV table has one row per entry of [all_stats]. *)
Theorem run_accounts_for_every_scene (c : corrector) (scenes : list scene) :
  length scenes =
    (length (run' c scenes).2 + length (filter is_log_error (run' c scenes).1))%nat /\
  length (filter is_csv_row (run' c scenes).1) = length (run' c scenes).2.
Proof.
  rewrite run_flat. simpl. induction scenes as [|sc scenes [IH1 IH2]]; [split; reflexivity|].
  change ((sc :: scenes) ≫= scene_stats' c)
    with (scene_stats' c sc ++ (scenes ≫= scene_stats' c)).
  change ((sc :: scenes) ≫= scene_events' c)
    with (scene_events' c sc ++ (scenes ≫= scene_events' c)).
  rewrite !filter_app, !length_app. cbn [length].
  destruct (scene_accounting c sc) as [H1 H2]. split; lia.
Qed.

End MinnaertMore.

Lemma minnaert_dark_is_zero_witness :
  Forall (fun r => r == 0)%Q
    (Correction.minnaert (fun _ _ => 7%Q) sample_corrector (1 # 2) (1 # 3) [10; 3; 0]%Q).
Proof.
  apply (minnaert_dark_is_zero (fun _ _ => 7%Q) sample_corrector (1 # 2) (1 # 3)
           [10; 3; 0]%Q).
  - vm_compute. discriminate.
  - repeat constructor; vm_compute; discriminate.
Defined.

Lemma process_one_stats_consistent_witness :
  exists s px,
    (Correction.process_one PyStr.float_decimal (fun _ => 1%Q) (fun _ _ => 1%Q)
       (fun _ => 0%Q) (fun _ => 0%Q) sample_corrector scene_a).2 = Ok s /\
    px <> [] /\
    Forall (fun v => Correction.s_min s <= v <= Correction.s_max s)%Q px /\
    Correction.s_min s ∈ px /\ Correction.s_max s ∈ px.
Proof.
  destruct (Correction.process_one PyStr.float_decimal (fun _ => 1%Q) (fun _ _ => 1%Q)
              (fun _ => 0%Q) (fun _ => 0%Q) sample_corrector scene_a) as [ev r] eqn:E.
  assert (exists s, r = Ok s) as [s ->].
  { vm_compute in E. injection E as _ <-. eauto. }
  destruct (process_one_stats_consistent PyStr.float_decimal (fun _ => 1%Q)
              (fun _ _ => 1%Q) (fun _ => 0%Q) (fun _ => 0%Q) sample_corrector scene_a ev s E)
    as (px & _ & Hne & Hall & Hmin & Hmax).
  exists s, px. simpl. auto.
Defined.

(** ** The metadata index and the telemetry of the corrector *)

Section CorrectorSetup.
Import Correction.
Variable float : string -> result Q.
Variable np_cos_deg : Q -> Q.
Variable np_power : Q -> Q -> Q.
Variable np_std : list Q -> Q.
Variable np_mean : list Q -> Q.

(** X7: when every start time of the catalogue parses, the metadata
    index maps a stem to the start time of the last row with that stem,
    and knows no other stem. *)
Theorem read_meta_last_row_wins (rows : list meta_row) (m0 : gmap string Z) :
  Forall (fun row => is_Some (row_time row)) rows ->
  exists m, read_meta m0 rows = Ok m /\
    forall stem,
      m !! stem =
        match last (filter (fun row => PyStr.path_stem (file_name row) = stem) rows) with
        | Some row => row_time row
        | None => m0 !! stem
        end.
Proof.
  intros Hall. revert m0. induction Hall as [|row rows [t Ht] _ IH]; intros m0.
  - exists m0. split; [reflexivity|]. intros stem. reflexivity.
  - unfold row_time in Ht. simpl.
    destruct (start_time row) as [t'|] eqn:Et; [|discriminate]. injection Ht as ->.
    simpl. destruct (IH (<[PyStr.path_stem (file_name row) := t]> m0)) as (m & Hm & Hlook).
    exists m. split; [exact Hm|]. intros stem. rewrite Hlook, filter_cons.
    destruct (decide (PyStr.path_stem (file_name row) = stem)) as [Heq|Hne].
    + rewrite last_cons.
      destruct (last (filter _ rows)); [reflexivity|].
      rewrite Heq, lookup_insert_eq. unfold row_time. rewrite Et. reflexivity.
    + destruct (last (filter _ rows)); [reflexivity|].
      apply lookup_insert_ne. exact Hne.
Qed.

(** X8: a catalogue that is missing, or that has one start time that
    does not parse, stops [run_minnaert_correction] before any scene is
    processed, with [FileNotFoundError] or with the error of the first
    such row. *)
Theorem broken_catalogue_aborts (w : workspace) (mode : process_mode)
    (cfg : gmap string (gmap string jnum)) (cc : gmap string jnum) (d g e : jnum) :
  cfg !! "minnaert" = Some cc ->
  cc !! "dark_current" = Some d -> cc !! "gain" = Some g ->
  cc !! "k_exponent" = Some e ->
  let catalogue := match mode with
                   | Crop => metadata_catalog_cropped w
                   | _ => metadata_catalog w
                   end in
  (catalogue = None ->
   run_minnaert_correction float np_cos_deg np_power np_std np_mean w mode cfg
   = Raise FileNotFoundError) /\
  (forall good bad rest err,
     catalogue = Some (good ++ bad :: rest) ->
     Forall (fun row => is_Some (row_time row)) good ->
     start_time bad = Raise err ->
     run_minnaert_correction float np_cos_deg np_power np_std np_mean w mode cfg = Raise err).
Proof.
  intros Hcc Hd Hg He catalogue.
  unfold run_minnaert_correction, getkey. rewrite Hcc. simpl.
  rewrite Hd. simpl. rewrite Hg. simpl. rewrite He. simpl. fold catalogue.
  unfold init. split.
  - intros ->. reflexivity.
  - intros good bad rest err -> Hgood Hbad. simpl.
    assert (forall m0, read_meta m0 (good ++ bad :: rest) = Raise err) as ->; [|reflexivity].
    induction Hgood as [|row good [t Ht] _ IH]; intros m0; simpl.
    + rewrite Hbad. reflexivity.
    + unfold row_time in Ht. destruct (start_time row); [|discriminate]. simpl. apply IH.
Qed.

(** X9: when a telemetry file is absent, the corrector built by the
    constructor resolves the geometry of every scene by the label-based
    fallback, and tags it so. *)
Theorem missing_telemetry_uses_fallback (metadata_csv : option (list meta_row))
    (oat spm : option (list string)) (d g e : Q) (c : corrector) :
  init float metadata_csv oat spm d g e = Ok c ->
  oat = None \/ spm = None ->
  forall (img_time : Z) (xml : xml_label),
    scene_angles float c img_time xml = fallback_angles float xml 10 /\
    angle_source c = "fallback_from_xml"%string.
Proof.
  unfold init. intros Hinit Habsent img_time xml.
  destruct metadata_csv as [rows|]; [|discriminate]. simpl in Hinit.
  destruct (read_meta ∅ rows) as [m|]; [|discriminate]. simpl in Hinit.
  destruct (match oat with Some l => parse_oat float l | None => ([], []) end)
    as [ot ev] eqn:Eo.
  destruct (match spm with Some l => parse_spm float l | None => ([], []) end)
    as [st sv] eqn:Es.
  injection Hinit as <-. unfold scene_angles, angle_source. simpl.
  destruct Habsent as [-> | ->].
  - injection Eo as <- <-. rewrite andb_comm. split; reflexivity.
  - injection Es as <- <-. split; reflexivity.
Qed.
End CorrectorSetup.

Lemma read_meta_last_row_wins_witness :
  exists m,
    Correction.read_meta ∅
      [{| Correction.file_name := "a.img"; Correction.start_time := Ok 5 |};
       {| Correction.file_name := "dir/a.xml"; Correction.start_time := Ok 9 |}]
    = Ok m /\ m !! "a" = Some 9 /\ m !! "b" = None.
Proof.
  destruct (read_meta_last_row_wins
              [{| Correction.file_name := "a.img"; Correction.start_time := Ok 5 |};
               {| Correction.file_name := "dir/a.xml"; Correction.start_time := Ok 9 |}] ∅)
    as (m & Hm & Hlook).
  - repeat constructor; vm_compute; eauto.
  - exists m. split; [exact Hm|]. rewrite !Hlook. split; reflexivity.
Defined.

Lemma broken_catalogue_aborts_witness :
  Correction.run_minnaert_correction PyStr.float_decimal (fun _ => 1%Q) (fun _ _ => 1%Q)
    (fun _ => 0%Q) (fun _ => 0%Q) broken_workspace Correction.Original out_of_range_config
  = Raise ValueError.
Proof.
  destruct (broken_catalogue_aborts PyStr.float_decimal (fun _ => 1%Q) (fun _ _ => 1%Q)
              (fun _ => 0%Q) (fun _ => 0%Q) broken_workspace Correction.Original out_of_range_config
              (list_to_map [("dark_current"%string, JInt 10); ("gain"%string, JFloat (-1));
                            ("k_exponent"%string, JFloat (7 # 10))])
              (JInt 10) (JFloat (-1)) (JFloat (7 # 10)))
    as [_ Hbad]; [vm_compute; reflexivity..|].
  apply (Hbad [{| Correction.file_name := "a.img"; Correction.start_time := Ok 63699384605 |}]
              {| Correction.file_name := "b.img"; Correction.start_time := Raise ValueError |}
              [{| Correction.file_name := "c.img"; Correction.start_time := Ok 63699384700 |}]).
  - reflexivity.
  - repeat constructor. vm_compute. eauto.
  - reflexivity.
Defined.

Lemma missing_telemetry_uses_fallback_witness :
  Correction.scene_angles PyStr.float_decimal sample_corrector 63699384605
    (Correction.Label None (Some (Some "30.5"%string)))
  = (119 # 2, 10)%Q.
Proof.
  destruct (missing_telemetry_uses_fallback PyStr.float_decimal
              (Some [{| Correction.file_name := "a.img";
                        Correction.start_time := Ok 63699384605 |}])
              None None 10 (2 # 1000) (7 # 10) sample_corrector
              ltac:(vm_compute; reflexivity) ltac:(left; reflexivity)
              63699384605 (Correction.Label None (Some (Some "30.5"%string))))
    as [Hangles _].
  rewrite Hangles. vm_compute. reflexivity.
Defined.

(** ** Shadow segmentation: coverage and border *)

Section ShadowMore.
Import Shadow.

Lemma pixel_at_each (f : Z -> Z -> bool) (m : list (list bool)) (i j : nat) :
  pixel (at_each f m) (Z.of_nat i) (Z.of_nat j) =
    match m !! i with
    | Some row => match row !! j with
                  | Some _ => f (Z.of_nat i) (Z.of_nat j)
                  | None => false
                  end
    | None => false
    end.
Proof.
  unfold pixel, at_each.
  destruct (Z.ltb_spec (Z.of_nat i) 0); [lia|].
  destruct (Z.ltb_spec (Z.of_nat j) 0); [lia|]. simpl.
  rewrite !Nat2Z.id, list_lookup_imap.
  destruct (m !! i) as [row|]; simpl; [|reflexivity].
  rewrite list_lookup_imap. destruct (row !! j); reflexivity.
Qed.

Lemma rectangular_same_shape {A B : Type} (h w : nat) (a : list (list A))
    (b : list (list B)) :
  same_shape a b -> rectangular h w b -> rectangular h w a.
Proof.
  unfold same_shape, rectangular. intros Hs [Hlen Hall]. split.
  - rewrite <- Hlen. eapply Forall2_length, Hs.
  - clear Hlen. induction Hs as [|r1 r2 a b Hr _ IH]; [constructor|].
    inversion Hall; subst. constructor; [congruence|auto].
Qed.

(** One erosion clears the border of a rectangular mask. *)
Lemma erode_border (h w : nat) (m : list (list bool)) (i j : nat) :
  rectangular h w m -> on_border h w i j ->
  pixel (erode m) (Z.of_nat i) (Z.of_nat j) = false.
Proof.
  intros [Hlen Hrows] (Hi & Hj & Hb). unfold erode. rewrite pixel_at_each.
  destruct (m !! i) as [row|] eqn:Erow; [|reflexivity].
  destruct (row !! j) as [x|] eqn:Ex; [|reflexivity].
  assert (length row = w) as Hw.
  { rewrite Forall_forall in Hrows. apply Hrows. eapply list_elem_of_lookup_2, Erow. }
  destruct (forallb _ STRUCT) eqn:Hall; [exfalso|reflexivity].
  rewrite forallb_forall in Hall.
  assert (Hout : exists d, In d STRUCT /\
            pixel m (Z.of_nat i + d.1) (Z.of_nat j + d.2) = false).
  { destruct Hb as [-> | [-> | [Hlast | Hlast]]].
    - exists (-1, 0). split; [unfold STRUCT; simpl; tauto|]. reflexivity.
    - exists (0, -1). split; [unfold STRUCT; simpl; tauto|].
      unfold pixel. simpl. rewrite orb_true_r. reflexivity.
    - exists (1, 0). split; [unfold STRUCT; simpl; tauto|].
      unfold pixel. simpl.
      destruct (Z.ltb_spec (Z.of_nat i + 1) 0); [lia|].
      destruct (Z.ltb_spec (Z.of_nat j + 0) 0); [lia|]. simpl.
      replace (Z.to_nat (Z.of_nat i + 1)) with (S i) by lia.
      rewrite (lookup_ge_None_2 m (S i)) by lia. reflexivity.
    - exists (0, 1). split; [unfold STRUCT; simpl; tauto|].
      unfold pixel. simpl.
      destruct (Z.ltb_spec (Z.of_nat i + 0) 0); [lia|].
      destruct (Z.ltb_spec (Z.of_nat j + 1) 0); [lia|]. simpl.
      replace (Z.to_nat (Z.of_nat i + 0)) with i by lia. rewrite Erow.
      replace (Z.to_nat (Z.of_nat j + 1)) with (S j) by lia.
      rewrite (lookup_ge_None_2 row (S j)) by lia. reflexivity. }
  destruct Hout as (d & Hd & Hfalse). specialize (Hall d Hd). simpl in Hall. congruence.
Qed.

(** The erosion that ends a closing is a last pass over a mask of the
    same shape. *)
Lemma until_stable_erode_last (fuel : nat) (m : list (list bool)) :
  exists y, until_stable fuel erode (erode m) = erode y /\ same_shape y m.
Proof.
  revert m. induction fuel as [|fuel IH]; intros m; simpl.
  - exists m. split; [reflexivity|apply same_shape_refl].
  - destruct (decide (erode (erode m) = erode m)) as [E|_].
    + exists (erode m). split; [reflexivity|apply at_each_shape].
    + destruct (IH (erode m)) as (y & Hy & Hs). exists y. split; [exact Hy|].
      eapply same_shape_trans; [exact Hs|apply at_each_shape].
Qed.

Lemma binary_erosion_last (m : list (list bool)) (iterations : Z) :
  exists y, binary_erosion m iterations = erode y /\ same_shape y m.
Proof.
  unfold binary_erosion, repeated. destruct (1 <=? iterations) eqn:E.
  - destruct (Z.to_nat iterations) as [|n] eqn:En; [lia|]. simpl.
    exists (Nat.iter n erode m). split; [reflexivity|].
    clear. induction n as [|n IH]; simpl; [apply same_shape_refl|].
    eapply same_shape_trans; [apply at_each_shape|exact IH].
  - simpl. destruct (decide (erode m = m)) as [_|_].
    + exists m. split; [reflexivity|apply same_shape_refl].
    + apply until_stable_erode_last.
Qed.

Lemma mask_shape (k : constants) (sun_elevations : gmap string Q) (stem : string)
    (arr : list (list fval)) :
  same_shape (mask (segment k sun_elevations stem arr)) arr.
Proof.
  pose proof (threshold_shape k (sun_elevation sun_elevations stem) arr) as Hsh.
  unfold segment. destruct (threshold _ _ _) as [raw why]. simpl in *.
  eapply same_shape_trans; [apply cleanup_shape|exact Hsh].
Qed.

(** X10: on a rectangular raster, whatever its values, the constants and
    the sun elevation, no pixel on the border of the frame is in the
    final mask: the closing ends with an erosion against a zero border. *)
Theorem mask_border_is_clear (k : constants) (sun_elevations : gmap string Q)
    (stem : string) (arr : list (list fval)) (h w i j : nat) :
  rectangular h w arr -> on_border h w i j ->
  pixel (mask (segment k sun_elevations stem arr)) (Z.of_nat i) (Z.of_nat j) = false.
Proof.
  intros Hrect Hb.
  pose proof (threshold_shape k (sun_elevation sun_elevations stem) arr) as Hsh.
  unfold segment. destruct (threshold _ _ _) as [raw why]. simpl in *.
  unfold cleanup, binary_closing.
  destruct (binary_erosion_last
              (binary_dilation (binary_opening raw (MORPH_ITERS k)) (MORPH_ITERS k))
              (MORPH_ITERS k)) as (y & -> & Hy).
  apply (erode_border h w); [|exact Hb].
  eapply rectangular_same_shape; [|exact Hrect].
  eapply same_shape_trans; [exact Hy|].
  eapply same_shape_trans; [|exact Hsh].
  unfold binary_opening, binary_erosion, binary_dilation.
  repeat (eapply same_shape_trans;
          [apply repeated_shape; intros; apply at_each_shape|]).
  apply same_shape_refl.
Qed.
End ShadowMore.

Lemma mask_border_is_clear_witness :
  Shadow.pixel
    (Shadow.mask (Shadow.segment scenario_constants {["scene" := 5%Q]} "scene"
                    (flat_raster 4 5))) 3 2 = false.
Proof.
  apply (mask_border_is_clear scenario_constants {["scene" := 5%Q]} "scene"
           (flat_raster 4 5) 4 5 3 2).
  - split; [reflexivity|]. repeat constructor.
  - unfold on_border. lia.
Defined.

Section CoverageMore.
Import Shadow.

Lemma coverage_value (m : list (list bool)) :
  gsize m <> 0%nat ->
  coverage m =
    Fin (100 * inject_Z (Z.of_nat (count true m)) / inject_Z (Z.of_nat (gsize m))).
Proof.
  intros Hn. unfold coverage, count. simpl.
  rewrite Qeq_bool_false; [reflexivity|].
  change 0%Q with (inject_Z 0). rewrite inject_Z_injective. lia.
Qed.

Lemma filter_lt_of_false (l : list bool) :
  false ∈ l -> (length (filter (fun b => b = true) l) < length l)%nat.
Proof.
  induction l as [|b l IH]; intros Hin; [apply elem_of_nil in Hin; destruct Hin|].
  rewrite filter_cons. pose proof (length_filter (fun b => b = true) l).
  apply elem_of_cons in Hin as [<-|Hin].
  - destruct (decide (false = true)); [discriminate|]. simpl. lia.
  - specialize (IH Hin). destruct (decide (b = true)); simpl; lia.
Qed.

(** X11: the coverage reported for a scene is a percentage, between 0
    and 100, of a raster that has pixels; for a raster without pixels it
    is NaN (the division 0/0), not an error. *)
Theorem coverage_is_a_percentage (k : constants) (sun_elevations : gmap string Q)
    (stem : string) (arr : list (list fval)) :
  (gsize arr = 0%nat -> shadow_pct (segment k sun_elevations stem arr) = NaN) /\
  (gsize arr <> 0%nat ->
   exists p, shadow_pct (segment k sun_elevations stem arr) = Fin p /\
             (0 <= p <= 100)%Q).
Proof.
  pose proof (same_shape_pixels _ _ (mask_shape k sun_elevations stem arr)) as Hsize.
  unfold segment in *. destruct (threshold _ _ _) as [raw why]. simpl in *.
  set (m := cleanup k raw) in *. split; intros Hn.
  - unfold coverage, gsize in *. rewrite Hsize, Hn.
    destruct (pixels m) eqn:Epx; [reflexivity|]. simpl in Hsize. lia.
  - assert (gsize m <> 0%nat) as Hm by (unfold gsize in *; lia).
    rewrite (coverage_value m Hm). eexists. split; [reflexivity|].
    pose proof (count_le_size true m) as Hle.
    assert (0 < inject_Z (Z.of_nat (gsize m)))%Q as Hpos.
    { change 0%Q with (inject_Z 0). rewrite <- Zlt_Qlt. lia. }
    assert (0 <= inject_Z (Z.of_nat (count true m)))%Q as Hc0.
    { change 0%Q with (inject_Z 0). rewrite <- Zle_Qle. lia. }
    assert (inject_Z (Z.of_nat (count true m)) <= inject_Z (Z.of_nat (gsize m)))%Q as Hcn.
    { rewrite <- Zle_Qle. lia. }
    split.
    + apply Qle_shift_div_l; [exact Hpos|]. lra.
    + apply Qle_shift_div_r; [exact Hpos|]. lra.
Qed.

(** X12: on a rectangular raster with at least one pixel the reported
    coverage is strictly below 100, whatever the values, the constants
    and the sun elevation: the first pixel is never in the final mask. *)
Theorem coverage_never_full (k : constants) (sun_elevations : gmap string Q)
    (stem : string) (arr : list (list fval)) (h w : nat) :
  rectangular h w arr -> (0 < h)%nat -> (0 < w)%nat ->
  exists p, shadow_pct (segment k sun_elevations stem arr) = Fin p /\ (p < 100)%Q.
Proof.
  intros Hrect Hh Hw.
  pose proof (segment_corner k sun_elevations stem arr) as Hcorner.
  pose proof (rectangular_same_shape h w _ _ (mask_shape k sun_elevations stem arr) Hrect)
    as [Hlen Hrows].
  unfold segment in *. destruct (threshold _ _ _) as [raw why]. simpl in *.
  set (m := cleanup k raw) in *.
  destruct m as [|row rest] eqn:Em; [simpl in Hlen; lia|].
  inversion Hrows as [|? ? Hrow _]; subst.
  destruct row as [|b row]; [simpl in Hw; lia|].
  assert (b = false) as -> by exact Hcorner.
  assert (Hlt : (count true m < gsize m)%nat).
  { unfold count, gsize. apply filter_lt_of_false. rewrite Em.
    unfold pixels. simpl. apply list_elem_of_here. }
  assert (gsize m <> 0%nat) as Hm by lia.
  rewrite <- Em, (coverage_value m Hm). eexists. split; [reflexivity|].
  assert (0 < inject_Z (Z.of_nat (gsize m)))%Q as Hpos.
  { change 0%Q with (inject_Z 0). rewrite <- Zlt_Qlt. lia. }
  apply Qlt_shift_div_r; [exact Hpos|].
  assert (inject_Z (Z.of_nat (count true m)) < inject_Z (Z.of_nat (gsize m)))%Q.
  { rewrite <- Zlt_Qlt. lia. }
  lra.
Qed.
End CoverageMore.

Lemma coverage_never_full_witness :
  exists p,
    Shadow.shadow_pct (Shadow.segment scenario_constants {["scene" := 5%Q]} "scene"
                         (flat_raster 4 5)) = Fin p /\ (p < 100)%Q.
Proof.
  apply (coverage_never_full scenario_constants {["scene" := 5%Q]} "scene"
           (flat_raster 4 5) 4 5); [|lia|lia].
  split; [reflexivity|]. repeat constructor.
Defined.

(** ** The loop of the shadow stage *)

Section ShadowStage.
Import Shadow.

Lemma mapM_result_app_raise {A B : Type} (f : A -> result B) (done : list A)
    (x : A) (rest : list A) (e : exn) :
  Forall (fun a => exists b, f a = Ok b) done -> f x = Raise e ->
  mapM f (done ++ x :: rest) = Raise e.
Proof.
  intros Hdone Hx. induction Hdone as [|a done [b Hb] _ IH]; simpl.
  - rewrite Hx. reflexivity.
  - rewrite Hb. simpl. rewrite IH. reflexivity.
Qed.

Lemma mapM_result_ok {A B : Type} (f : A -> result B) (g : A -> B) (l : list A) :
  Forall (fun a => f a = Ok (g a)) l -> mapM f l = Ok (g <$> l).
Proof.
  induction 1 as [|a l Ha _ IH]; simpl; [reflexivity|].
  rewrite Ha. simpl. rewrite IH. reflexivity.
Qed.

(** X13: the loop of [run_shadow_detection] has no handler: the first
    normalised raster that cannot be read stops the whole stage with the
    error of the read, whatever came before it; when every raster is
    read, the stage returns one result per scene, in the order of the
    scenes. *)
Theorem unreadable_raster_stops_shadow_stage
    (cfg : gmap string (gmap string jnum)) (sh : gmap string jnum)
    (sun abs factor valid : jnum) (n : Z)
    (rows : list (string * result Q)) (table : gmap string Q) :
  cfg !! "shadow" = Some sh ->
  sh !! "sun_el_threshold" = Some sun -> sh !! "abs_if_threshold" = Some abs ->
  sh !! "threshold_factor" = Some factor -> sh !! "min_if_valid" = Some valid ->
  sh !! "morph_iters" = Some (JInt n) ->
  load_sun_elevation ∅ rows = Ok table ->
  (forall done stem e rest,
     Forall (fun p : string * result (list (list fval)) => exists arr, p.2 = Ok arr) done ->
     run_shadow_detection cfg (Some rows) (done ++ (stem, Raise e) :: rest) = Raise e) /\
  (forall scenes : list (string * list (list fval)),
     exists out,
       run_shadow_detection cfg (Some rows) ((fun p => (p.1, Ok p.2)) <$> scenes) = Ok out /\
       out.*1 = scenes.*1).
Proof.
  intros Hsh Hsun Habs Hfactor Hvalid Hiters Htable.
  unfold run_shadow_detection, getkey. rewrite Hsh. simpl.
  rewrite Hsun. simpl. rewrite Habs. simpl. rewrite Hfactor. simpl.
  rewrite Hvalid. simpl. rewrite Hiters. simpl. rewrite Htable. simpl. split.
  - intros done stem e rest Hdone. apply mapM_result_app_raise; [|reflexivity].
    eapply Forall_impl; [exact Hdone|]. intros [st read] [arr Harr]. simpl in Harr.
    subst read. simpl. eauto.
  - intros scenes. eexists. split.
    + apply (mapM_result_ok _ (fun p : string * result (list (list fval)) =>
               (p.1, segment {| SUN_EL_THRESHOLD := jnum_Q sun;
                                ABS_IF_THRESHOLD := jnum_Q abs;
                                THRESHOLD_FACTOR := jnum_Q factor;
                                MIN_IF_VALID := jnum_Q valid;
                                MORPH_ITERS := n |} table p.1
                              (match p.2 with Ok arr => arr | Raise _ => [] end)))).
      apply Forall_fmap, Forall_true. intros [st arr]. reflexivity.
    + rewrite <- !list_fmap_compose. apply list_fmap_ext. intros i [st arr] _. reflexivity.
Qed.
End ShadowStage.

Lemma unreadable_raster_stops_shadow_stage_witness :
  Shadow.run_shadow_detection shadow_config (Some sun_rows)
    [("a"%string, Ok (flat_raster 3 3)); ("b"%string, Raise RasterioIOError);
     ("c"%string, Ok (flat_raster 3 3))]
  = Raise RasterioIOError.
Proof.
  destruct (unreadable_raster_stops_shadow_stage shadow_config shadow_section
              (JInt 10) (JFloat (5 # 100)) (JFloat (1 # 2)) (JFloat (5 # 100)) 1
              sun_rows {["a" := 60%Q]}) as [Hstop _];
    [vm_compute; reflexivity..|].
  apply (Hstop [("a"%string, Ok (flat_raster 3 3))] "b"%string RasterioIOError
               [("c"%string, Ok (flat_raster 3 3))]).
  repeat constructor. simpl. eauto.
Defined.

(** ** The date of a data set *)

Section DateOfName.
Import DataImporter.

Lemma take_drop_string (n : nat) (s : string) : PyStr.take n s +:+ PyStr.drop n s = s.
Proof.
  revert s. induction n as [|n IH]; intros [|c s]; simpl; try reflexivity.
  change (String c (PyStr.take n s) +:+ PyStr.drop n s)
    with (String c (PyStr.take n s +:+ PyStr.drop n s)).
  rewrite IH. reflexivity.
Qed.

Lemma drop_add_string (k n : nat) (s : string) :
  PyStr.drop (k + n) s = PyStr.drop n (PyStr.drop k s).
Proof.
  revert s. induction k as [|k IH]; intros s; [reflexivity|].
  destruct s as [|c s]; simpl; [destruct n; reflexivity|apply IH].
Qed.

Lemma digits_at_take (n : nat) (s : string) :
  digits_at n s = true ->
  String.length (PyStr.take n s) = n /\ digits_at n (PyStr.take n s) = true.
Proof.
  revert s. induction n as [|n IH]; intros [|c s] H; simpl in *; try discriminate;
    try (split; reflexivity).
  apply andb_true_iff in H as [Hc Hs]. destruct (IH s Hs) as [Hlen Hd].
  rewrite Hlen, Hc, Hd. split; reflexivity.
Qed.

(** X15: [extract_date_from_name] returns the leftmost run of eight
    decimal digits of the name: eight digits that occur in the name, with
    no run of eight digits starting before them; it raises [ValueError]
    exactly when the name has no such run. *)
Theorem extract_date_is_leftmost_run (name : string) :
  (forall date, extract_date_from_name name = Ok date ->
     exists k, date = PyStr.take 8 (PyStr.drop k name) /\
       PyStr.take k name +:+ date +:+ PyStr.drop (k + 8) name = name /\
       String.length date = 8%nat /\ digits_at 8 date = true /\
       forall k', (k' < k)%nat -> digits_at 8 (PyStr.drop k' name) = false) /\
  (extract_date_from_name name = Raise ValueError <->
   forall k, digits_at 8 (PyStr.drop k name) = false).
Proof.
  unfold extract_date_from_name.
  assert (Hsearch :
    match search_date name with
    | Some date =>
        exists k, date = PyStr.take 8 (PyStr.drop k name) /\
          digits_at 8 (PyStr.drop k name) = true /\
          forall k', (k' < k)%nat -> digits_at 8 (PyStr.drop k' name) = false
    | None => forall k, digits_at 8 (PyStr.drop k name) = false
    end).
  { induction name as [|c name IH].
    - simpl. intros [|k]; reflexivity.
    - unfold search_date; fold search_date.
      destruct (digits_at 8 (String c name)) eqn:E.
      + exists 0%nat. split; [reflexivity|]. split; [exact E|]. intros k' Hk'. lia.
      + destruct (search_date name) as [date|].
        * destruct IH as (k & Hdate & Hk & Hbefore). exists (S k).
          split; [exact Hdate|]. split; [exact Hk|].
          intros [|k'] Hk'; [exact E|]. apply Hbefore. lia.
        * intros [|k]; [exact E|]. apply IH. }
  destruct (search_date name) as [date|]; split.
  - intros d Hd. injection Hd as <-. destruct Hsearch as (k & Hdate & Hk & Hbefore).
    exists k. destruct (digits_at_take 8 _ Hk) as [Hlen Hdig].
    rewrite Hdate. repeat split; try assumption.
    rewrite drop_add_string, take_drop_string. apply take_drop_string.
  - split; [discriminate|]. intros Hnone.
    destruct Hsearch as (k & _ & Hk & _). rewrite Hnone in Hk. discriminate.
  - intros d Hd. discriminate.
  - split; [intros _; exact Hsearch|reflexivity].
Qed.
End DateOfName.

Example extract_date_examples :
  DataImporter.extract_date_from_name "ch2_tmc_ncp_20190905T0826_d_img_d18"
  = Ok "20190905"%string /\
  DataImporter.extract_date_from_name "ch2_2019_0905T0826" = Raise ValueError /\
  DataImporter.extract_date_from_name "ch2_tmc_20190905_x123456789" = Ok "20190905"%string /\
  DataImporter.extract_date_from_name "a1234567b123456789" = Ok "12345678"%string.
Proof. vm_compute. repeat split. Qed.

(** ** Integers and their decimal text *)

Section IntegerText.

Lemma digit_range (c : ascii) (d : Z) : PyStr.digit c = Some d -> 0 <= d <= 9.
Proof.
  unfold PyStr.digit. intros H.
  destruct (_ && _) eqn:E; [|discriminate]. injection H as <-.
  apply andb_true_iff in E as [E1 E2]. lia.
Qed.

Lemma digit_char (r : N) : (r < 10)%N -> PyStr.digit (pretty_N_char r) = Some (Z.of_N r).
Proof.
  intros H.
  assert (r = 0 \/ r = 1 \/ r = 2 \/ r = 3 \/ r = 4 \/ r = 5 \/ r = 6 \/ r = 7
          \/ r = 8 \/ r = 9)%N as Hr by lia.
  repeat (destruct Hr as [->|Hr]; [reflexivity|]). subst r. reflexivity.
Qed.

Lemma digit_no_space (c : ascii) : is_Some (PyStr.digit c) -> PyStr.isspace c = false.
Proof.
  intros [d Hd]. destruct (PyStr.isspace c) eqn:E; [|reflexivity]. exfalso.
  destruct c as [[] [] [] [] [] [] [] []]; try discriminate E; vm_compute in Hd; discriminate.
Qed.

Lemma string_app_cons (c : ascii) (s t : string) : String c s +:+ t = String c (s +:+ t).
Proof. reflexivity. Qed.

Lemma string_app_assoc (s1 s2 s3 : string) : (s1 +:+ s2) +:+ s3 = s1 +:+ (s2 +:+ s3).
Proof.
  induction s1 as [|c s1 IH]; [reflexivity|].
  rewrite !string_app_cons, IH. reflexivity.
Qed.

Lemma string_app_nil_r (s : string) : s +:+ EmptyString = s.
Proof.
  induction s as [|c s IH]; [reflexivity|].
  rewrite string_app_cons, IH. reflexivity.
Qed.

Lemma is_digits_app (s1 s2 : string) :
  is_digits (s1 +:+ s2) = is_digits s1 && is_digits s2.
Proof.
  induction s1 as [|c s1 IH]; [reflexivity|].
  rewrite string_app_cons. cbn [is_digits]. rewrite IH. apply andb_assoc.
Qed.

Lemma dval_app (acc : Z) (s1 s2 : string) : dval acc (s1 +:+ s2) = dval (dval acc s1) s2.
Proof.
  revert acc. induction s1 as [|c s1 IH]; intros acc; [reflexivity|].
  rewrite string_app_cons. cbn [dval]. apply IH.
Qed.

Lemma dval_shift (acc : Z) (s : string) :
  dval acc s = acc * 10 ^ Z.of_nat (String.length s) + dval 0 s.
Proof.
  revert acc. induction s as [|c s IH]; intros acc.
  - simpl. lia.
  - cbn [dval String.length]. rewrite IH, (IH (10 * 0 + _)).
    rewrite Nat2Z.inj_succ, Z.pow_succ_r by lia. ring.
Qed.

Lemma dval_bounds (s : string) :
  is_digits s = true -> 0 <= dval 0 s < 10 ^ Z.of_nat (String.length s).
Proof.
  induction s as [|c s IH]; intros H.
  - simpl. lia.
  - cbn [is_digits] in H. apply andb_true_iff in H as [Hc Hs].
    apply bool_decide_eq_true in Hc as [d Hd].
    cbn [dval String.length]. rewrite dval_shift, Hd. simpl default.
    apply digit_range in Hd. specialize (IH Hs).
    rewrite Nat2Z.inj_succ, Z.pow_succ_r by lia. nia.
Qed.

Lemma digits_dval (acc : Z) (b : bool) (s : string) :
  is_digits s = true -> s <> EmptyString -> PyStr.digits acc b s = Some (dval acc s).
Proof.
  revert acc b. induction s as [|c s IH]; intros acc b H Hne; [congruence|].
  cbn [is_digits] in H. apply andb_true_iff in H as [Hc Hs].
  apply bool_decide_eq_true in Hc as [d Hd].
  cbn [PyStr.digits dval]. rewrite Hd. simpl default.
  destruct s as [|c' s]; [reflexivity|]. apply IH; [exact Hs|discriminate].
Qed.

(** The digits [pretty] produces for a natural number: its decimal
    expansion, most significant digit first and without leading zero. *)
Lemma pretty_N_go_spec (x : N) (s : string) :
  exists ds, pretty_N_go x s = ds +:+ s /\ is_digits ds = true /\
    dval 0 ds = Z.of_N x /\ (x = 0%N -> ds = EmptyString) /\
    ((0 < x)%N -> ds <> EmptyString /\ 10 ^ Z.of_nat (String.length ds) <= 10 * Z.of_N x).
Proof.
  revert s. induction (N.lt_wf_0 x) as [x _ IH]. intros s.
  destruct (decide (x = 0%N)) as [->|Hx].
  - exists EmptyString. rewrite pretty_N_go_0. repeat split; lia.
  - rewrite pretty_N_go_step by lia.
    destruct (IH (x `div` 10)%N) with (s := String (pretty_N_char (x `mod` 10)) s)
      as (ds & Hgo & Hd & Hv & Hzero & Hpos).
    { apply N.div_lt; lia. }
    exists (ds +:+ String (pretty_N_char (x `mod` 10)) EmptyString).
    assert (Hr : (x `mod` 10 < 10)%N) by (apply N.mod_lt; lia).
    assert (Hx10 : Z.of_N x = 10 * Z.of_N (x `div` 10) + Z.of_N (x `mod` 10)).
    { rewrite (N.div_mod x 10) at 1 by lia. lia. }
    rewrite Hgo, string_app_assoc, is_digits_app, dval_app, Hd, Hv.
    cbn [is_digits dval String.append]. rewrite (digit_char _ Hr). simpl default.
    split; [reflexivity|]. split; [|split; [|split]].
    + rewrite bool_decide_eq_true_2 by eauto. reflexivity.
    + lia.
    + intros ->. lia.
    + intros _. split; [destruct ds; discriminate|].
      rewrite string_app_length. cbn [String.length].
      destruct (decide (x `div` 10 = 0)%N) as [E|E].
      * rewrite (Hzero E). change (10 ^ Z.of_nat (String.length EmptyString + 1)) with 10. lia.
      * destruct Hpos as [_ Hpos]; [lia|].
        replace (Z.of_nat (String.length ds + 1)) with (Z.succ (Z.of_nat (String.length ds)))
          by lia.
        rewrite Z.pow_succ_r by lia.
        set (P := 10 ^ Z.of_nat (String.length ds)) in *.
        set (q := Z.of_N (x `div` 10)) in *. set (r := Z.of_N (x `mod` 10)) in *.
        assert (0 <= r) by apply N2Z.is_nonneg. lia.
Qed.

Lemma str_pos (p : positive) :
  is_digits (PyStr.str (Z.pos p)) = true /\ PyStr.str (Z.pos p) <> EmptyString /\
  dval 0 (PyStr.str (Z.pos p)) = Z.pos p /\
  10 ^ Z.of_nat (String.length (PyStr.str (Z.pos p))) <= 10 * Z.pos p.
Proof.
  unfold PyStr.str.
  change (pretty (Z.pos p)) with (pretty_N_go (N.pos p) EmptyString).
  destruct (pretty_N_go_spec (N.pos p) EmptyString) as (ds & Hgo & Hd & Hv & _ & Hpos).
  destruct Hpos as [Hne Hlen]; [lia|].
  rewrite Hgo, string_app_nil_r. repeat split; [exact Hd|exact Hne|exact Hv|exact Hlen].
Qed.

Lemma str_nonneg (n : Z) :
  0 <= n ->
  is_digits (PyStr.str n) = true /\ PyStr.str n <> EmptyString /\ dval 0 (PyStr.str n) = n.
Proof.
  intros Hn. destruct n as [|p|p]; [repeat split; discriminate| |lia].
  destruct (str_pos p) as (Hd & Hne & Hv & _). repeat split; assumption.
Qed.

Lemma str_neg (p : positive) : PyStr.str (Z.neg p) = String "-" (PyStr.str (Z.pos p)).
Proof. reflexivity. Qed.

(** White space. *)
Lemma is_digits_no_space (s : string) : is_digits s = true -> no_space s = true.
Proof.
  induction s as [|c s IH]; [reflexivity|]. cbn [is_digits no_space]. intros H.
  apply andb_true_iff in H as [Hc Hs]. apply bool_decide_eq_true in Hc.
  rewrite (digit_no_space c Hc), (IH Hs). reflexivity.
Qed.

Lemma rev_app_no_space (s1 s2 : string) :
  no_space (String.rev_app s1 s2) = no_space s1 && no_space s2.
Proof.
  revert s2. induction s1 as [|c s1 IH]; intros s2; [reflexivity|].
  cbn [String.rev_app no_space]. rewrite IH. cbn [no_space].
  destruct (PyStr.isspace c), (no_space s1); reflexivity.
Qed.

Lemma rev_app_rev_app (s1 s2 s3 : string) :
  String.rev_app (String.rev_app s1 s2) s3 = String.rev_app s2 (s1 +:+ s3).
Proof.
  revert s2 s3. induction s1 as [|c s1 IH]; intros s2 s3; [reflexivity|].
  cbn [String.rev_app]. rewrite IH. reflexivity.
Qed.

Lemma lstrip_no_space (s : string) : no_space s = true -> PyStr.lstrip s = s.
Proof.
  destruct s as [|c s]; [reflexivity|]. cbn [no_space PyStr.lstrip]. intros H.
  apply andb_true_iff in H as [Hc _]. destruct (PyStr.isspace c); [discriminate|reflexivity].
Qed.

Lemma strip_no_space (s : string) : no_space s = true -> PyStr.strip s = s.
Proof.
  intros H. unfold PyStr.strip, PyStr.rstrip. rewrite (lstrip_no_space s H).
  rewrite lstrip_no_space.
  - unfold String.rev. rewrite rev_app_rev_app. cbn [String.rev_app].
    apply string_app_nil_r.
  - unfold String.rev. rewrite rev_app_no_space, H. reflexivity.
Qed.

(** [int] on a run of digits, with or without a minus sign. *)
Lemma sign_match {T : Type} (A B C : string -> T) (c : ascii) (s : string) :
  c <> "+"%char -> c <> "-"%char ->
  match String c s with
  | String "+" r => A r
  | String "-" r => B r
  | r => C r
  end = C (String c s).
Proof.
  intros Hplus Hminus.
  destruct c as [[] [] [] [] [] [] [] []]; try reflexivity; congruence.
Qed.

Lemma int_digits (s : string) :
  is_digits s = true -> s <> EmptyString -> PyStr.int s = Ok (dval 0 s).
Proof.
  intros Hd Hne. unfold PyStr.int.
  rewrite (strip_no_space s (is_digits_no_space s Hd)).
  destruct s as [|c s]; [congruence|].
  rewrite (sign_match (PyStr.digits 0 false) (fun r => Z.opp <$> PyStr.digits 0 false r)
             (PyStr.digits 0 false)).
  - rewrite (digits_dval 0 false _ Hd Hne). reflexivity.
  - intros ->. discriminate Hd.
  - intros ->. discriminate Hd.
Qed.

Lemma int_minus_digits (s : string) :
  is_digits s = true -> s <> EmptyString -> PyStr.int (String "-" s) = Ok (- dval 0 s).
Proof.
  intros Hd Hne. unfold PyStr.int.
  rewrite strip_no_space.
  - rewrite (digits_dval 0 false _ Hd Hne). reflexivity.
  - cbn [no_space]. rewrite (is_digits_no_space s Hd). reflexivity.
Qed.

Lemma int_str (n : Z) : PyStr.int (PyStr.str n) = Ok n.
Proof.
  destruct n as [|p|p]; [reflexivity| |].
  - destruct (str_pos p) as (Hd & Hne & Hv & _). rewrite (int_digits _ Hd Hne), Hv. reflexivity.
  - destruct (str_pos p) as (Hd & Hne & Hv & _). rewrite str_neg.
    rewrite (int_minus_digits _ Hd Hne), Hv. reflexivity.
Qed.

(** [s[-n:]] on a run of digits keeps the value modulo [10 ^ n]. *)
Lemma length_drop (k : nat) (s : string) :
  String.length (PyStr.drop k s) = (String.length s - k)%nat.
Proof.
  revert s. induction k as [|k IH]; intros [|c s]; simpl; try reflexivity; try lia.
  apply IH.
Qed.

Lemma suffix_digits (n : nat) (s : string) :
  is_digits s = true -> s <> EmptyString -> (0 < n)%nat ->
  is_digits (PyStr.suffix n s) = true /\ PyStr.suffix n s <> EmptyString /\
  dval 0 (PyStr.suffix n s) = dval 0 s mod 10 ^ Z.of_nat n.
Proof.
  intros Hd Hne Hn. unfold PyStr.suffix.
  set (k := (String.length s - n)%nat).
  assert (Hk : k = (String.length s - n)%nat) by reflexivity. clearbody k.
  assert (Hlen : (0 < String.length s)%nat) by (destruct s; [congruence|simpl; lia]).
  pose proof (take_drop_string k s) as Hs.
  pose proof (length_drop k s) as Hl.
  assert (Hparts : is_digits (PyStr.take k s) = true /\ is_digits (PyStr.drop k s) = true).
  { apply andb_true_iff. rewrite <- is_digits_app, Hs. exact Hd. }
  destruct Hparts as [Ht Hdr]. split; [exact Hdr|]. split.
  - intros E. rewrite E in Hl. simpl in Hl. lia.
  - pose proof (dval_bounds _ Hdr) as Hb. pose proof (dval_bounds _ Hd) as Hbs.
    destruct (decide (n <= String.length s)%nat) as [Hle|Hgt].
    + assert (Hl' : String.length (PyStr.drop k s) = n) by lia.
      rewrite Hl' in Hb.
      assert (Hsplit : dval 0 s
                = dval 0 (PyStr.take k s) * 10 ^ Z.of_nat n + dval 0 (PyStr.drop k s)).
      { rewrite <- Hs at 1. rewrite dval_app, dval_shift, Hl'. reflexivity. }
      rewrite Hsplit, Z.add_comm, Z.mod_add by lia. symmetry. apply Z.mod_small. exact Hb.
    + replace k with 0%nat by lia. cbn [PyStr.drop]. symmetry. apply Z.mod_small.
      split; [lia|]. eapply Z.lt_le_trans; [apply Hbs|].
      apply Z.pow_le_mono_r; lia.
Qed.

(** [int(str(y)[-4:])]: the last four digits of [abs(y)], except that a
    negative [y] of fewer than four digits keeps its sign. *)
Lemma int_last_four (y : Z) :
  PyStr.int (PyStr.suffix 4 (PyStr.str y))
  = Ok (if (-1000 <? y) && (y <? 0) then y else Z.abs y mod 10000).
Proof.
  destruct y as [|p|p]; [reflexivity| |].
  - destruct (str_pos p) as (Hd & Hne & Hv & _).
    destruct (suffix_digits 4 _ Hd Hne) as (Hd4 & Hne4 & Hv4); [lia|].
    rewrite (int_digits _ Hd4 Hne4), Hv4, Hv.
    replace ((-1000 <? Z.pos p) && (Z.pos p <? 0)) with false by lia. reflexivity.
  - destruct (str_pos p) as (Hd & Hne & Hv & Hlead). rewrite str_neg.
    pose proof (dval_bounds _ Hd) as Hb. rewrite Hv in Hb.
    set (ds := PyStr.str (Z.pos p)) in *. clearbody ds.
    unfold PyStr.suffix. cbn [String.length].
    destruct (decide (Z.pos p < 1000)) as [Hsmall|Hbig].
    + assert (String.length ds < 4)%nat.
      { destruct (decide (String.length ds < 4)%nat) as [|Hge]; [assumption|exfalso].
        assert (10 ^ 4 <= 10 ^ Z.of_nat (String.length ds))
          by (apply Z.pow_le_mono_r; lia).
        lia. }
      replace (S (String.length ds) - 4)%nat with 0%nat by lia. cbn [PyStr.drop].
      rewrite (int_minus_digits _ Hd Hne), Hv.
      assert (E : (-1000 <? Z.neg p) && (Z.neg p <? 0) = true)
        by (apply andb_true_iff; split; apply Z.ltb_lt; lia).
      rewrite E. reflexivity.
    + assert (4 <= String.length ds)%nat.
      { destruct (decide (4 <= String.length ds)%nat) as [|Hlt]; [assumption|exfalso].
        assert (10 ^ Z.of_nat (String.length ds) <= 10 ^ 3)
          by (apply Z.pow_le_mono_r; lia).
        lia. }
      replace (S (String.length ds) - 4)%nat with (S (String.length ds - 4)) by lia.
      cbn [PyStr.drop].
      destruct (suffix_digits 4 _ Hd Hne) as (Hd4 & Hne4 & Hv4); [lia|].
      unfold PyStr.suffix in Hd4, Hne4, Hv4.
      rewrite (int_digits _ Hd4 Hne4), Hv4, Hv.
      assert (E : (-1000 <? Z.neg p) = false) by (apply Z.ltb_ge; lia).
      rewrite E. reflexivity.
Qed.

Import Correction.

(** X16: the year of a telemetry record. With [y] the integer in columns
    14 to 22, [2000 + int(str(y)[-4:])] is [2000 + y mod 10000] for
    [0 <= y]; a negative [y] counts by the last four digits of [-y], or by
    [y] itself when it has fewer than four digits. The other five fields
    are read as they stand. *)
Theorem record_time_year (line : string) (y : Z) :
  PyStr.int (PyStr.strip (PyStr.slice 14 22 line)) = Ok y ->
  record_time line =
    (month ← PyStr.int (PyStr.strip (PyStr.slice 22 26 line));
     day ← PyStr.int (PyStr.strip (PyStr.slice 26 30 line));
     hour ← PyStr.int (PyStr.strip (PyStr.slice 30 34 line));
     minute ← PyStr.int (PyStr.strip (PyStr.slice 34 38 line));
     second ← PyStr.int (PyStr.strip (PyStr.slice 38 42 line));
     mk_datetime
       (2000 + (if (-1000 <? y) && (y <? 0) then y else Z.abs y mod 10000))
       month day hour minute second).
Proof.
  intros Hy. unfold record_time. rewrite Hy. cbn [mbind result_bind].
  rewrite int_last_four. reflexivity.
Qed.

End IntegerText.

Lemma record_time_year_witness :
  Correction.record_time spm_line_later = Ok 63699384610.
Proof.
  rewrite (record_time_year spm_line_later 19); reflexivity.
Defined.

Example record_year_examples :
  Correction.record_time "ORBTATTD         12019   7  22   9  30  10"
  = Correction.mk_datetime 4019 7 22 9 30 10 /\
  Correction.record_time "ORBTATTD           -19   7  22   9  30  10"
  = Correction.mk_datetime 1981 7 22 9 30 10 /\
  Correction.record_time "ORBTATTD         -2019   7  22   9  30  10"
  = Correction.mk_datetime 4019 7 22 9 30 10 /\
  Correction.record_time "ORBTATTD          8000   7  22   9  30  10" = Raise ValueError.
Proof. vm_compute. repeat split. Qed.


(** ** The crop window of the command line *)

Section CropCoordinates.

Lemma find_none_cons (sep c : ascii) (s : string) :
  PyStr.find sep (String c s) = None <-> c <> sep /\ PyStr.find sep s = None.
Proof.
  cbn [PyStr.find]. destruct (decide (c = sep)) as [->|Hc].
  - split; [discriminate|]. intros [H _]. congruence.
  - destruct (PyStr.find sep s); simpl; split; try discriminate; try tauto.
    intros [_ H]. discriminate.
Qed.

Lemma split_on_none (sep : ascii) (s : string) :
  PyStr.find sep s = None -> PyStr.split_on sep s = [s].
Proof.
  induction s as [|c s IH]; [reflexivity|]. intros H.
  apply find_none_cons in H as [Hc Hs]. cbn [PyStr.split_on].
  rewrite decide_False by exact Hc. rewrite (IH Hs). reflexivity.
Qed.

Lemma split_on_app (sep : ascii) (s t : string) :
  PyStr.find sep s = None ->
  PyStr.split_on sep (s +:+ String sep t) = s :: PyStr.split_on sep t.
Proof.
  induction s as [|c s IH]; intros H.
  - change (EmptyString +:+ String sep t) with (String sep t). cbn [PyStr.split_on].
    rewrite decide_True by reflexivity. reflexivity.
  - apply find_none_cons in H as [Hc Hs]. rewrite string_app_cons. cbn [PyStr.split_on].
    rewrite decide_False by exact Hc. rewrite (IH Hs). reflexivity.
Qed.

Lemma find_digits (s : string) : is_digits s = true -> PyStr.find "," s = None.
Proof.
  induction s as [|c s IH]; [reflexivity|]. cbn [is_digits]. intros H.
  apply andb_true_iff in H as [Hc Hs]. apply find_none_cons. split; [|exact (IH Hs)].
  intros ->. discriminate Hc.
Qed.

Lemma find_str (n : Z) : PyStr.find "," (PyStr.str n) = None.
Proof.
  destruct n as [|p|p]; [reflexivity| |].
  - apply find_digits, str_pos.
  - rewrite str_neg. apply find_none_cons. split; [discriminate|].
    apply find_digits, str_pos.
Qed.

Lemma split_on_join (coords : list Z) :
  coords <> [] ->
  PyStr.split_on "," (PyStr.join "," (PyStr.str <$> coords)) = PyStr.str <$> coords.
Proof.
  induction coords as [|n coords IH]; [congruence|]. intros _.
  destruct coords as [|m coords].
  - simpl. apply split_on_none, find_str.
  - change (PyStr.join "," (PyStr.str <$> n :: m :: coords))
      with (PyStr.str n +:+ String "," (PyStr.join "," (PyStr.str <$> m :: coords))).
    rewrite split_on_app by apply find_str. rewrite IH by discriminate. reflexivity.
Qed.

Lemma parse_crop_coords_join (coords : list Z) :
  coords <> [] ->
  Main.parse_crop_coords (PyStr.join "," (PyStr.str <$> coords)) = Ok coords.
Proof.
  intros Hne. unfold Main.parse_crop_coords. rewrite (split_on_join coords Hne).
  clear Hne. induction coords as [|n coords IH]; [reflexivity|].
  rewrite fmap_cons. cbn [mapM]. rewrite int_str. cbn [mbind result_bind].
  rewrite IH. reflexivity.
Qed.

(** X17: the crop window of the command line. A list of integers printed
    with commas between them is read back as the same integers; the
    default of [--crop_coords], the empty string, raises [ValueError];
    four integers give the window whose offsets are [xmin] and [ymin] and
    whose width and height are the differences, and any other count
    raises [ValueError] when [crop_image] unpacks it. *)
Theorem crop_coords_round_trip :
  (forall coords, coords <> [] ->
     Main.parse_crop_coords (PyStr.join "," (PyStr.str <$> coords)) = Ok coords) /\
  Main.parse_crop_coords EmptyString = Raise ValueError /\
  (forall xmin ymin xmax ymax,
     (crop_coords ← Main.parse_crop_coords
                      (PyStr.join "," (PyStr.str <$> [xmin; ymin; xmax; ymax]));
      Cropper.crop_window crop_coords)
     = Ok (xmin, ymin, xmax - xmin, ymax - ymin)) /\
  (forall coords, length coords <> 4%nat -> Cropper.crop_window coords = Raise ValueError).
Proof.
  split; [exact parse_crop_coords_join|]. split; [reflexivity|]. split.
  - intros xmin ymin xmax ymax. rewrite parse_crop_coords_join by discriminate.
    reflexivity.
  - intros [|a [|b [|c [|d [|e coords]]]]] H; try reflexivity. simpl in H. lia.
Qed.

End CropCoordinates.

Lemma crop_coords_round_trip_witness :
  Main.parse_crop_coords "100,200,612,712" = Ok [100; 200; 612; 712].
Proof.
  apply (proj1 crop_coords_round_trip [100; 200; 612; 712]). discriminate.
Defined.

(** ** The metadata catalogue *)

Section Catalogue.
Import MetaExtc.
Variable now : nat -> string.

Lemma extract_metadata_ok (findtext : string -> option string) :
  extract_metadata (Ok findtext) = Ok (meta_of findtext).
Proof. reflexivity. Qed.

Lemma run_snoc (xml_files : list (string * label)) (xml_file : string * label) :
  run now (xml_files ++ [xml_file]) = run_step now (run now xml_files) xml_file.
Proof. unfold run. rewrite foldl_app. reflexivity. Qed.

Lemma extracted_snoc (xml_files : list (string * label)) (xml_file : string * label) :
  extracted (xml_files ++ [xml_file])
  = extracted xml_files ++ match xml_file.2 with Ok f => [f] | Raise _ => [] end.
Proof.
  unfold extracted. rewrite omap_app. destruct xml_file as [name [f|e]]; reflexivity.
Qed.

(** The state of the loop after any number of turns. *)
Lemma run_state (xml_files : list (string * label)) :
  let st := run now xml_files in
  success st = length (extracted xml_files) /\
  (success st + failed st)%nat = length xml_files /\
  length (provenance_path st) = length xml_files /\
  match extracted xml_files with
  | [] => writer st = None /\ out_csv st = []
  | f :: fs =>
      (exists t, writer st = Some (save_provenance t (meta_of f))) /\
      out_csv st = catalogue_names :: catalogue_record f
                   :: ((fun g => catalogue_record g ++ [EmptyString]) <$> fs)
  end.
Proof.
  induction xml_files as [|[name xml] xml_files IH] using rev_ind.
  - repeat split.
  - cbv zeta in *. rewrite run_snoc, extracted_snoc, !length_app.
    destruct IH as (Hs & Hsf & Hp & Hcsv). set (st := run now xml_files) in *.
    clearbody st. cbn [snd fst]. unfold run_step. cbn [snd fst].
    destruct xml as [findtext|e].
    + rewrite extract_metadata_ok. unfold open_writer.
      destruct (extracted xml_files) as [|f fs].
      * destruct Hcsv as [Hw Hcsv]. rewrite Hw.
        change (Csv.writeheader (PyDict.keys (meta_of findtext)))
          with (Ok (A := list string) catalogue_names).
        cbn [set_writer write writer default from_option id out_csv].
        change (Csv.dict_to_list (PyDict.keys (meta_of findtext))
                  {| Csv.named := meta_of findtext; Csv.rest := None |})
          with (Ok (catalogue_record findtext)).
        cbn [success failed out_csv provenance_path writer write set_writer length app].
        rewrite Hcsv, length_app, Hp. cbn [length app] in *.
        repeat split; try lia. eexists. reflexivity.
      * destruct Hcsv as [[t Hw] Hcsv]. rewrite Hw. rewrite !Hw.
        cbn [default from_option id].
        change (Csv.dict_to_list (PyDict.keys (save_provenance t (meta_of f)))
                  {| Csv.named := meta_of findtext; Csv.rest := None |})
          with (Ok (catalogue_record findtext ++ [EmptyString])).
        cbn [success failed out_csv provenance_path writer write set_writer length app].
        rewrite Hcsv, !length_app, Hp. cbn [length app] in *.
        repeat split; try lia.
        -- exists t. reflexivity.
        -- rewrite fmap_app. reflexivity.
    + change (extract_metadata (Raise e)) with (Raise (A := PyDict.t) e).
      unfold fail. cbn [success failed out_csv provenance_path writer write set_writer length app].
      rewrite app_nil_r, length_app, Hp. cbn [length] in *.
      repeat split; try lia. exact Hcsv.
Qed.

(** X18: the catalogue [run] writes. With no label that parses the file
    is empty. Otherwise the header has the twelve keys of [meta] and the
    record of the first label has twelve fields; every later record has
    thirteen, the last one empty: [save_provenance] has added
    ["extracted_at"] to the dict whose key view the writer holds. *)
Theorem catalogue_records_outgrow_header (xml_files : list (string * label)) :
  out_csv (run now xml_files) =
    match extracted xml_files with
    | [] => []
    | f :: fs =>
        catalogue_names :: catalogue_record f
        :: ((fun g => catalogue_record g ++ [EmptyString]) <$> fs)
    end /\
  length catalogue_names = 12%nat /\
  (forall f, length (catalogue_record f) = 12%nat).
Proof.
  split; [|split; reflexivity].
  destruct (run_state xml_files) as (_ & _ & _ & H).
  destruct (extracted xml_files); [apply H|apply H].
Qed.

(** X19: the counters of [run]. Every label is counted once, as a
    success when it parses and as a failure when it does not, and each
    leaves one line in the provenance file; the catalogue has one record
    per success after its header. *)
Theorem extraction_counts (xml_files : list (string * label)) :
  let st := run now xml_files in
  (success st + failed st)%nat = length xml_files /\
  success st = length (extracted xml_files) /\
  length (provenance_path st) = length xml_files /\
  length (out_csv st) = (if decide (success st = 0%nat) then 0 else S (success st))%nat.
Proof.
  cbv zeta. destruct (run_state xml_files) as (Hs & Hsf & Hp & Hcsv).
  split; [exact Hsf|]. split; [|split; [exact Hp|]].
  - exact Hs.
  - rewrite Hs. destruct (extracted xml_files) as [|f fs].
    + destruct Hcsv as [_ ->]. reflexivity.
    + destruct Hcsv as [_ ->]. simpl. rewrite length_fmap. reflexivity.
Qed.

End Catalogue.

(** ** The catalogue of the crop *)

Section CropCatalogue.
Import MetaExtc Cropper.
Variable now : nat -> string.

Lemma foldl_raise {A B : Type} (step : A -> B -> result A) (e : exn) (l : list B) :
  foldl (fun acc b => a ← acc; step a b) (Raise e) l = Raise e.
Proof. induction l as [|b l IH]; [reflexivity|exact IH]. Qed.

(** The row of the first label goes through, with or without a clone. *)
Lemma update_first_row (original_name cropped_name : string)
    (f : string -> option string) :
  update_step (catalogue_names ++ ["crop_source"%string]) original_name cropped_name
    ([catalogue_names ++ ["crop_source"%string]], false)
    (Csv.read_row catalogue_names (catalogue_record f))
  = Ok (if decide (Some (default EmptyString (f ".//pds:file_name"%string))
                   = Some (replace ".tif" ".img" original_name))
        then ([catalogue_names ++ ["crop_source"%string];
               catalogue_record f ++ [EmptyString];
               cropped_name :: take 9 (drop 1 (catalogue_record f))
                 ++ ["cropped"; "cropped"; original_name]%string], true)
        else ([catalogue_names ++ ["crop_source"%string];
               catalogue_record f ++ [EmptyString]], false)).
Proof.
  unfold update_step.
  change (Csv.dict_to_list (catalogue_names ++ ["crop_source"%string])
            (Csv.read_row catalogue_names (catalogue_record f)))
    with (Ok (catalogue_record f ++ [EmptyString])).
  cbn [mbind result_bind].
  change (PyDict.get "file_name" (Csv.named (Csv.read_row catalogue_names (catalogue_record f))))
    with (Some (Some (default EmptyString (f ".//pds:file_name"%string)))).
  cbn [mbind result_bind].
  destruct (decide _) as [E|E]; reflexivity.
Qed.

(** A record with a thirteenth field is read with the key [None], which
    the writer refuses. *)
Lemma update_long_row (original_name cropped_name : string)
    (g : string -> option string) (st : Csv.file * bool) :
  update_step (catalogue_names ++ ["crop_source"%string]) original_name cropped_name st
    (Csv.read_row catalogue_names (catalogue_record g ++ [EmptyString]))
  = Raise ValueError.
Proof. reflexivity. Qed.

(** X20: the crop after the extraction. [crop_image] copies the
    catalogue [run] has written. With no label extracted the catalogue is
    empty and the update raises [TypeError]; with one label it writes the
    header with ["crop_source"], the row of the label and, when its file
    name is the source of the crop, the row of the crop; with two labels
    or more the second row has a field beyond the header and the update
    raises [ValueError]. *)
Theorem crop_after_extraction (xml_files : list (string * label))
    (original_name cropped_name : string) :
  update_metadata original_name cropped_name (out_csv (run now xml_files)) =
    match extracted xml_files with
    | [] => Raise TypeError
    | [f] =>
        Ok (if decide (Some (default EmptyString (f ".//pds:file_name"%string))
                       = Some (replace ".tif" ".img" original_name))
            then ([catalogue_names ++ ["crop_source"%string];
                   catalogue_record f ++ [EmptyString];
                   cropped_name :: take 9 (drop 1 (catalogue_record f))
                     ++ ["cropped"; "cropped"; original_name]%string], true)
            else ([catalogue_names ++ ["crop_source"%string];
                   catalogue_record f ++ [EmptyString]], false))
    | _ :: _ :: _ => Raise ValueError
    end.
Proof.
  destruct (run_state now xml_files) as (_ & _ & _ & Hcsv).
  destruct (extracted xml_files) as [|f [|g fs]].
  - destruct Hcsv as [_ ->]. reflexivity.
  - destruct Hcsv as [_ ->]. unfold update_metadata.
    cbn [Csv.fieldnames head fmap list_fmap].
    rewrite decide_False by (apply (bool_decide_eq_false_1 _); reflexivity).
    change (Csv.writeheader (catalogue_names ++ ["crop_source"%string]))
      with (Ok (catalogue_names ++ ["crop_source"%string])).
    cbn [mbind result_bind].
    change (Csv.rows [catalogue_names; catalogue_record f])
      with [Csv.read_row catalogue_names (catalogue_record f)].
    cbn [foldl mbind result_bind]. apply update_first_row.
  - destruct Hcsv as [_ ->]. unfold update_metadata.
    cbn [Csv.fieldnames head fmap list_fmap].
    rewrite decide_False by (apply (bool_decide_eq_false_1 _); reflexivity).
    change (Csv.writeheader (catalogue_names ++ ["crop_source"%string]))
      with (Ok (catalogue_names ++ ["crop_source"%string])).
    cbn [mbind result_bind].
    set (later := (fun h => catalogue_record h ++ [EmptyString]) <$> fs).
    change (Csv.rows (catalogue_names :: catalogue_record f
                      :: (catalogue_record g ++ [EmptyString]) :: later))
      with (Csv.read_row catalogue_names (catalogue_record f)
            :: Csv.read_row catalogue_names (catalogue_record g ++ [EmptyString])
            :: (Csv.read_row catalogue_names <$> filter (fun record => record <> []) later)).
    cbn [foldl mbind result_bind]. rewrite update_first_row. cbn [mbind result_bind].
    rewrite update_long_row. apply foldl_raise.
Qed.

End CropCatalogue.

(** ** The catalogue of the crop, on a regular catalogue *)

Section RegularCatalogue.
Import Cropper.

Lemma get_setitem (key k : string) (v : option string) (d : PyDict.t) :
  PyDict.get key (PyDict.setitem k v d)
  = if decide (k = key) then Some v else PyDict.get key d.
Proof.
  induction d as [|[k' v'] d IH]; simpl.
  - reflexivity.
  - destruct (decide (k' = k)) as [->|Hk]; simpl.
    + destruct (decide (k = key)); reflexivity.
    + destruct (decide (k' = key)) as [->|Hk'].
      * rewrite decide_False by congruence. reflexivity.
      * exact IH.
Qed.

Lemma keys_setitem_in (k : string) (v : option string) (d : PyDict.t) :
  k ∈ PyDict.keys d -> PyDict.keys (PyDict.setitem k v d) = PyDict.keys d.
Proof.
  unfold PyDict.keys. induction d as [|[k' v'] d IH]; simpl; intros Hin.
  - inversion Hin.
  - destruct (decide (k' = k)) as [->|Hk]; [reflexivity|]. simpl. f_equal.
    apply IH. apply elem_of_cons in Hin as [->|Hin]; [congruence|exact Hin].
Qed.

Lemma keys_setitem_fresh (k : string) (v : option string) (d : PyDict.t) :
  k ∉ PyDict.keys d -> PyDict.setitem k v d = d ++ [(k, v)].
Proof.
  unfold PyDict.keys. induction d as [|[k' v'] d IH]; simpl; intros Hin; [reflexivity|].
  rewrite decide_False by (intros ->; apply Hin; left).
  f_equal. apply IH. intros H. apply Hin. right. exact H.
Qed.

Lemma keys_zip (header : list string) (values : list (option string)) :
  length values = length header -> PyDict.keys (zip header values) = header.
Proof. intros H. unfold PyDict.keys. apply fst_zip. lia. Qed.

Lemma of_zip_nodup (header : list string) (values : list (option string)) :
  NoDup header -> length values = length header ->
  PyDict.of_zip header values = zip header values.
Proof.
  unfold PyDict.of_zip. intros Hnd Hlen.
  enough (forall d, (forall k, k ∈ PyDict.keys d -> k ∉ header) ->
            foldl (fun d p => PyDict.setitem p.1 p.2 d) d (zip header values)
            = d ++ zip header values) as H by (apply (H []); intros k Hk; inversion Hk).
  revert values Hlen. induction Hnd as [|h header Hh Hnd IH]; intros values Hlen d Hd.
  - simpl. rewrite app_nil_r. reflexivity.
  - destruct values as [|v values]; [discriminate|]. simpl in Hlen.
    cbn [zip zip_with foldl fst snd]. rewrite keys_setitem_fresh.
    + rewrite IH; [rewrite <- app_assoc; reflexivity|lia|].
      intros k Hk. unfold PyDict.keys in Hk. rewrite fmap_app in Hk.
      apply elem_of_app in Hk as [Hk|Hk].
      * intros Hin. apply (Hd k Hk). right. exact Hin.
      * apply list_elem_of_singleton in Hk. simpl in Hk. subst k. exact Hh.
    + intros Hin. apply (Hd h Hin). left.
Qed.

Lemma filter_none {A : Type} (P : A -> Prop) `{!forall x, Decision (P x)} (l : list A) :
  Forall (fun x => ~ P x) l -> filter P l = [].
Proof.
  induction 1 as [|x l Hx _ IH]; [reflexivity|].
  rewrite filter_cons_False by exact Hx. exact IH.
Qed.

Lemma filter_all {A : Type} (P : A -> Prop) `{!forall x, Decision (P x)} (l : list A) :
  Forall P l -> filter P l = l.
Proof.
  induction 1 as [|x l Hx _ IH]; [reflexivity|].
  rewrite filter_cons_True by exact Hx. rewrite IH. reflexivity.
Qed.

(** The writer on a dict whose keys are field names. *)
Lemma dict_to_list_ok (fieldnames : list string) (d : PyDict.t) :
  Forall (fun k => k ∈ fieldnames) (PyDict.keys d) ->
  Csv.dict_to_list fieldnames {| Csv.named := d; Csv.rest := None |}
  = Ok (field_text d <$> fieldnames).
Proof.
  intros Hk. unfold Csv.dict_to_list. cbn [Csv.named Csv.rest].
  rewrite filter_none; [reflexivity|].
  eapply Forall_impl; [exact Hk|]. intros k Hin Hnot. exact (Hnot Hin).
Qed.

Lemma field_absent (header record : list string) (key : string) :
  key ∉ header -> field header record key = EmptyString.
Proof.
  revert record. induction header as [|h header IH]; intros [|x record] Hk; try reflexivity.
  cbn [field]. rewrite decide_False by (intros ->; apply Hk; left).
  apply IH. intros H. apply Hk. right. exact H.
Qed.

Lemma get_zip (header record : list string) (key : string) :
  length record = length header ->
  PyDict.get key (zip header (Some <$> record))
  = if decide (key ∈ header) then Some (Some (field header record key)) else None.
Proof.
  revert record. induction header as [|h header IH]; intros [|x record] Hlen;
    try discriminate.
  - rewrite decide_False by (intros H; inversion H). reflexivity.
  - cbn [fmap list_fmap zip zip_with PyDict.get field].
    destruct (decide (h = key)) as [->|Hh].
    + rewrite decide_True by left. reflexivity.
    + change (zip_with pair header (list_fmap _ _ Some record))
        with (zip header (Some <$> record)).
      rewrite IH by (simpl in Hlen; lia).
      destruct (decide (key ∈ header)) as [Hin|Hout].
      * rewrite decide_True by (right; exact Hin). reflexivity.
      * rewrite decide_False; [reflexivity|].
        intros H. apply elem_of_cons in H as [->|H]; [congruence|exact (Hout H)].
Qed.

Lemma field_text_zip (header record : list string) (key : string) :
  length record = length header ->
  field_text (zip header (Some <$> record)) key = field header record key.
Proof.
  intros Hlen. unfold field_text. rewrite (get_zip _ _ _ Hlen).
  destruct (decide (key ∈ header)) as [Hin|Hout]; [reflexivity|].
  symmetry. apply field_absent. exact Hout.
Qed.

(** Going through the header with a function of the key and its field. *)
Lemma fmap_field_zip {B : Type} (G : string -> string -> B) (header record : list string) :
  NoDup header -> length record = length header ->
  (fun k => G k (field header record k)) <$> header
  = (fun p : string * string => G p.1 p.2) <$> zip header record.
Proof.
  intros Hnd. revert record. induction Hnd as [|h header Hh Hnd IH];
    intros [|x record] Hlen; try discriminate; [reflexivity|].
  cbn [fmap list_fmap zip zip_with fst snd field].
  rewrite decide_True by reflexivity. f_equal.
  change (list_fmap _ _ ?f ?l) with (f <$> l).
  rewrite <- (IH record) by (simpl in Hlen; lia).
  apply Forall_fmap_ext_1. apply Forall_forall. intros k Hk.
  rewrite decide_False by (intros ->; exact (Hh Hk)). reflexivity.
Qed.

Lemma fmap_field (header record : list string) :
  NoDup header -> length record = length header ->
  field header record <$> header = record.
Proof.
  intros Hnd Hlen.
  etransitivity; [exact (fmap_field_zip (fun _ x => x) header record Hnd Hlen)|].
  change ((zip header record).*2 = record). apply snd_zip. lia.
Qed.

Lemma read_row_regular (header record : list string) :
  NoDup header -> length record = length header ->
  Csv.read_row header record
  = {| Csv.named := zip header (Some <$> record); Csv.rest := None |}.
Proof.
  intros Hnd Hlen. unfold Csv.read_row.
  replace (length header <? length record)%nat with false
    by (symmetry; apply Nat.ltb_ge; lia).
  rewrite Hlen, drop_all. cbn [foldl].
  rewrite of_zip_nodup by (rewrite ?length_fmap; assumption). reflexivity.
Qed.

Lemma writeheader_nodup (fieldnames : list string) :
  NoDup fieldnames -> Csv.writeheader fieldnames = Ok fieldnames.
Proof.
  intros Hnd. unfold Csv.writeheader.
  rewrite of_zip_nodup by (rewrite ?length_fmap; done).
  rewrite dict_to_list_ok.
  - f_equal. etransitivity; [|exact (fmap_field fieldnames fieldnames Hnd eq_refl)].
    apply Forall_fmap_ext_1, Forall_forall. intros k _. apply field_text_zip. reflexivity.
  - rewrite keys_zip by (rewrite length_fmap; reflexivity).
    apply Forall_forall. intros k Hk. exact Hk.
Qed.

Section Regular.
Variables (header : list string) (original_name cropped_name : string).
Hypothesis header_nodup : NoDup header.
Hypothesis has_file_name : "file_name"%string ∈ header.
Hypothesis has_ul_lat : "ul_lat"%string ∈ header.
Hypothesis has_ul_lon : "ul_lon"%string ∈ header.
Hypothesis no_crop_source : "crop_source"%string ∉ header.

Lemma record_with_empty_source (record : list string) :
  length record = length header ->
  Csv.dict_to_list (header ++ ["crop_source"%string]) (Csv.read_row header record)
  = Ok (record ++ [EmptyString]).
Proof.
  intros Hlen. rewrite read_row_regular by assumption.
  rewrite dict_to_list_ok.
  - rewrite fmap_app. cbn [fmap list_fmap].
    rewrite (field_text_zip _ _ "crop_source" Hlen), (field_absent _ _ _ no_crop_source).
    f_equal. f_equal. etransitivity; [|exact (fmap_field header record header_nodup Hlen)].
    apply Forall_fmap_ext_1, Forall_forall. intros k _. apply field_text_zip, Hlen.
  - rewrite keys_zip by (rewrite length_fmap; exact Hlen).
    apply Forall_forall. intros k Hk. apply elem_of_app. left. exact Hk.
Qed.

Lemma record_of_crop (record : list string) :
  length record = length header ->
  Csv.dict_to_list (header ++ ["crop_source"%string])
    (clone original_name cropped_name (Csv.read_row header record))
  = Ok (crop_record header record original_name cropped_name).
Proof.
  intros Hlen. rewrite read_row_regular by assumption.
  unfold clone. cbn [Csv.named Csv.rest].
  set (d := zip header (Some <$> record)).
  assert (Hd : PyDict.keys d = header) by (apply keys_zip; rewrite length_fmap; exact Hlen).
  set (d1 := PyDict.setitem "file_name" (Some cropped_name) d).
  set (d2 := PyDict.setitem "ul_lat" (Some "cropped"%string) d1).
  set (d3 := PyDict.setitem "ul_lon" (Some "cropped"%string) d2).
  assert (Hd1 : PyDict.keys d1 = header)
    by (unfold d1; rewrite keys_setitem_in; rewrite ?Hd; done).
  assert (Hd2 : PyDict.keys d2 = header)
    by (unfold d2; rewrite keys_setitem_in; rewrite ?Hd1; done).
  assert (Hd3 : PyDict.keys d3 = header)
    by (unfold d3; rewrite keys_setitem_in; rewrite ?Hd2; done).
  rewrite dict_to_list_ok.
  - rewrite fmap_app. unfold crop_record. apply f_equal. apply f_equal2.
    + etransitivity;
        [|exact (fmap_field_zip
                   (fun k x => if decide (k = "file_name"%string) then cropped_name
                               else if decide (k = "ul_lat"%string \/ k = "ul_lon"%string)
                                    then "cropped"%string else x)
                   header record header_nodup Hlen)].
      apply Forall_fmap_ext_1, Forall_forall. intros k Hk.
      unfold field_text. subst d3 d2 d1 d. rewrite !get_setitem, (get_zip _ _ _ Hlen).
      rewrite (decide_True (P := k ∈ header)) by exact Hk.
      destruct (decide ("crop_source"%string = k)) as [<-|_];
        [exfalso; exact (no_crop_source Hk)|].
      destruct (decide ("ul_lon"%string = k)) as [<-|Hlon].
      { rewrite decide_False by discriminate.
        rewrite decide_True by (right; reflexivity). reflexivity. }
      destruct (decide ("ul_lat"%string = k)) as [<-|Hlat].
      { rewrite decide_False by discriminate.
        rewrite decide_True by (left; reflexivity). reflexivity. }
      destruct (decide ("file_name"%string = k)) as [<-|Hname].
      { rewrite decide_True by reflexivity. reflexivity. }
      rewrite decide_False by congruence.
      rewrite decide_False by (intros [|]; congruence). reflexivity.
    + cbn [fmap list_fmap]. unfold field_text. rewrite get_setitem.
      rewrite decide_True by reflexivity. reflexivity.
  - rewrite keys_setitem_fresh by (rewrite Hd3; exact no_crop_source).
    unfold PyDict.keys in *. rewrite fmap_app, Hd3. cbn [fmap list_fmap fst].
    apply Forall_forall. intros k Hk. exact Hk.
Qed.

Lemma update_step_regular (st : Csv.file * bool) (record : list string) :
  length record = length header ->
  update_step (header ++ ["crop_source"%string]) original_name cropped_name st
    (Csv.read_row header record)
  = Ok (if is_source header original_name record
        then (st.1 ++ [record ++ [EmptyString];
                       crop_record header record original_name cropped_name], true)
        else (st.1 ++ [record ++ [EmptyString]], st.2)).
Proof.
  intros Hlen. unfold update_step.
  rewrite (record_with_empty_source record Hlen). cbn [mbind result_bind].
  rewrite (record_of_crop record Hlen).
  rewrite (read_row_regular header record header_nodup Hlen). cbn [Csv.named].
  rewrite (get_zip _ _ _ Hlen), decide_True by exact has_file_name.
  cbn [mbind result_bind]. unfold is_source.
  destruct (decide (Some (field header record "file_name")
                    = Some (replace ".tif" ".img" original_name))) as [E|E].
  - rewrite bool_decide_eq_true_2 by congruence. reflexivity.
  - rewrite bool_decide_eq_false_2 by congruence. reflexivity.
Qed.

Lemma update_loop_regular (records : list (list string)) (st : Csv.file * bool) :
  Forall (fun record => length record = length header) records ->
  foldl (fun acc row =>
           st ← acc;
           update_step (header ++ ["crop_source"%string]) original_name cropped_name st row)
    (Ok st) (Csv.read_row header <$> records)
  = Ok (st.1 ++ mjoin ((fun record =>
                    if is_source header original_name record
                    then [record ++ [EmptyString];
                          crop_record header record original_name cropped_name]
                    else [record ++ [EmptyString]]) <$> records),
        st.2 || existsb (is_source header original_name) records).
Proof.
  intros Hall. revert st. induction Hall as [|record records Hlen _ IH]; intros st.
  - simpl. rewrite app_nil_r, orb_false_r. destruct st; reflexivity.
  - rewrite fmap_cons. cbn [foldl mbind result_bind].
    rewrite (update_step_regular st record Hlen).
    destruct (is_source header original_name record) eqn:E; rewrite IH;
      cbn [fst snd fmap list_fmap mjoin list_join existsb]; rewrite E.
    + rewrite <- app_assoc, orb_true_r. reflexivity.
    + rewrite <- app_assoc. reflexivity.
Qed.

(** X21: the metadata update of [crop_image] on a regular catalogue: a
    header without repeated names that has ["file_name"], ["ul_lat"] and
    ["ul_lon"] but not ["crop_source"], and records as long as the
    header. The new catalogue has the header with ["crop_source"] added
    and the records in their order, each with an empty ["crop_source"];
    a record whose file name is the name of the source image with
    [.tif] replaced by [.img] is followed by the record of the crop: the
    new file name, ["cropped"] for both corner coordinates, the source
    name last and every other field copied. [found] tells whether there
    was such a record. *)
Theorem update_metadata_regular (records : list (list string)) :
  Forall (fun record => length record = length header) records ->
  update_metadata original_name cropped_name (header :: records)
  = Ok ((header ++ ["crop_source"%string])
        :: mjoin ((fun record =>
                     if is_source header original_name record
                     then [record ++ [EmptyString];
                           crop_record header record original_name cropped_name]
                     else [record ++ [EmptyString]]) <$> records),
        existsb (is_source header original_name) records).
Proof.
  intros Hall. unfold update_metadata. cbn [Csv.fieldnames head].
  rewrite decide_False by exact no_crop_source.
  assert (Hheader : Csv.writeheader (header ++ ["crop_source"%string])
                    = Ok (header ++ ["crop_source"%string])).
  { apply writeheader_nodup. apply NoDup_app. split; [exact header_nodup|].
    split; [|apply NoDup_singleton].
    intros k Hk Hcs. apply list_elem_of_singleton in Hcs. subst k.
    exact (no_crop_source Hk). }
  rewrite Hheader. cbn [mbind result_bind]. unfold Csv.rows.
  rewrite filter_all.
  - rewrite (update_loop_regular records _ Hall). reflexivity.
  - eapply Forall_impl; [exact Hall|]. intros record Hlen ->.
    destruct header; [inversion has_file_name|discriminate].
Qed.

End Regular.
End RegularCatalogue.

Lemma update_metadata_regular_witness :
  Cropper.update_metadata "scene.tif" "crop.tif"
    [["file_name"; "sun_elevation"; "ul_lat"; "ul_lon"];
     ["other.img"; "31.5"; "10.1"; "20.2"];
     ["scene.img"; "12.0"; "11.1"; "21.2"]]%string
  = Ok ([["file_name"; "sun_elevation"; "ul_lat"; "ul_lon"; "crop_source"];
         ["other.img"; "31.5"; "10.1"; "20.2"; ""];
         ["scene.img"; "12.0"; "11.1"; "21.2"; ""];
         ["crop.tif"; "12.0"; "cropped"; "cropped"; "scene.tif"]]%string, true).
Proof.
  apply (update_metadata_regular
           ["file_name"; "sun_elevation"; "ul_lat"; "ul_lon"]%string "scene.tif" "crop.tif").
  - apply (bool_decide_unpack _). vm_compute. exact I.
  - apply (bool_decide_unpack _). vm_compute. exact I.
  - apply (bool_decide_unpack _). vm_compute. exact I.
  - apply (bool_decide_unpack _). vm_compute. exact I.
  - apply (bool_decide_unpack _). vm_compute. exact I.
  - repeat constructor.
Defined.

(** ** A scene without dark pixels *)

Section NoShadow.
Import Shadow.

Lemma pixel_clear (m : list (list bool)) (i j : Z) : no_pixel_set m -> pixel m i j = false.
Proof.
  intros Hm. unfold pixel. destruct ((i <? 0) || (j <? 0)); [reflexivity|].
  destruct (m !! Z.to_nat i) as [row|] eqn:Hrow; [|reflexivity].
  destruct (row !! Z.to_nat j) as [b|] eqn:Hb; [|reflexivity]. simpl.
  eapply Forall_lookup_1 in Hm; [|exact Hrow].
  eapply Forall_lookup_1 in Hm; [|exact Hb]. exact Hm.
Qed.

Lemma at_each_clear (f : Z -> Z -> bool) (m : list (list bool)) :
  no_pixel_set m -> (forall i j, f i j = false) -> at_each f m = m.
Proof.
  intros Hm Hf. unfold at_each. apply list_eq. intros i.
  rewrite list_lookup_imap. destruct (m !! i) as [row|] eqn:Hrow; [|reflexivity].
  simpl. f_equal. apply list_eq. intros j. rewrite list_lookup_imap.
  destruct (row !! j) as [b|] eqn:Hb; [|reflexivity]. simpl. f_equal.
  eapply Forall_lookup_1 in Hm; [|exact Hrow].
  eapply Forall_lookup_1 in Hm; [|exact Hb]. rewrite Hf, Hm. reflexivity.
Qed.

Lemma erode_clear (m : list (list bool)) : no_pixel_set m -> erode m = m.
Proof.
  intros Hm. apply at_each_clear; [exact Hm|]. intros i j.
  cbn [STRUCT forallb]. rewrite (pixel_clear m _ _ Hm). reflexivity.
Qed.

Lemma dilate_clear (m : list (list bool)) : no_pixel_set m -> dilate m = m.
Proof.
  intros Hm. apply at_each_clear; [exact Hm|]. intros i j.
  cbn [STRUCT existsb]. rewrite !(pixel_clear m _ _ Hm). reflexivity.
Qed.

Lemma repeated_fixed (op : list (list bool) -> list (list bool)) (n : Z)
    (m : list (list bool)) :
  op m = m -> repeated op n m = m.
Proof.
  intros Hop. unfold repeated. destruct (1 <=? n).
  - induction (Z.to_nat n) as [|k IH]; [reflexivity|]. simpl. rewrite IH. exact Hop.
  - cbn [until_stable]. rewrite Hop. rewrite decide_True by reflexivity. reflexivity.
Qed.

Lemma cleanup_clear (k : constants) (m : list (list bool)) : no_pixel_set m -> cleanup k m = m.
Proof.
  intros Hm. unfold cleanup, binary_closing, binary_opening, binary_erosion, binary_dilation.
  rewrite (repeated_fixed erode _ m (erode_clear m Hm)).
  rewrite (repeated_fixed dilate _ m (dilate_clear m Hm)).
  rewrite (repeated_fixed dilate _ m (dilate_clear m Hm)).
  apply (repeated_fixed erode _ m (erode_clear m Hm)).
Qed.

Lemma count_clear (m : list (list bool)) : no_pixel_set m -> count true m = 0%nat.
Proof.
  intros Hm. unfold count, pixels. induction Hm as [|row m Hrow _ IH]; [reflexivity|].
  simpl. rewrite filter_app, length_app, IH, Nat.add_0_r. clear IH.
  induction Hrow as [|b row Hb _ IHrow]; [reflexivity|].
  rewrite filter_cons_False by (rewrite Hb; discriminate). exact IHrow.
Qed.

Lemma threshold_clear (k : constants) (sun_el : Q) (arr : list (list fval))
    (mean_if rel_thr : fval) :
  (threshold k sun_el arr).2 = Adaptive mean_if rel_thr ->
  Forall (fun x => flt x (Fin (ABS_IF_THRESHOLD k)) = false /\ flt x rel_thr = false)
    (pixels arr) ->
  no_pixel_set (threshold k sun_el arr).1.
Proof.
  unfold threshold. destruct (Qlt_bool sun_el (SUN_EL_THRESHOLD k)); [discriminate|].
  set (valid := filter _ (pixels arr)).
  set (mean := match valid with [] => Fin 0 | _ => fmean valid end).
  set (rel := fmul (Fin (THRESHOLD_FACTOR k)) mean).
  cbn [fst snd]. intros Hwhy Hpx.
  assert (Hrel : rel = rel_thr) by congruence. clearbody rel. subst rel.
  clear Hwhy mean valid.
  unfold no_pixel_set, grid_map. unfold pixels in Hpx.
  induction arr as [|row arr IH]; [constructor|].
  simpl in Hpx. apply Forall_app in Hpx as [Hrow Harr].
  constructor; [|exact (IH Harr)].
  clear IH Harr. induction Hrow as [|x row [Ha Hr] _ IHrow]; constructor.
  - rewrite Ha, Hr. reflexivity.
  - exact IHrow.
Qed.

(** X22: without a dark pixel there is no shadow. When the sun is not
    low and no pixel is below the absolute threshold or below the
    relative threshold the stage reports, the mask has no pixel set,
    whatever [morph_iters] is, and the coverage is 0 percent. *)
Theorem no_dark_pixel_no_shadow (k : constants) (sun_elevations : gmap string Q)
    (stem : string) (arr : list (list fval)) (mean_if rel_thr : fval) :
  reason (segment k sun_elevations stem arr) = Adaptive mean_if rel_thr ->
  Forall (fun x => flt x (Fin (ABS_IF_THRESHOLD k)) = false /\ flt x rel_thr = false)
    (pixels arr) ->
  no_pixel_set (mask (segment k sun_elevations stem arr)) /\
  Forall (Forall (fun v => v = 0)) (written (segment k sun_elevations stem arr)) /\
  same_shape (mask (segment k sun_elevations stem arr)) arr /\
  (gsize arr <> 0%nat ->
   exists p, shadow_pct (segment k sun_elevations stem arr) = Fin p /\ (p == 0)%Q).
Proof.
  unfold segment.
  pose proof (threshold_clear k (sun_elevation sun_elevations stem) arr mean_if rel_thr)
    as Hclear.
  pose proof (threshold_shape k (sun_elevation sun_elevations stem) arr) as Hshape.
  destruct (threshold k (sun_elevation sun_elevations stem) arr) as [raw why].
  cbn [reason mask written shadow_pct fst snd] in *. intros Hwhy Hpx.
  specialize (Hclear Hwhy Hpx). rewrite (cleanup_clear k raw Hclear).
  split; [exact Hclear|]. split; [|split].
  - unfold as_uint8, grid_map. clear -Hclear.
    induction Hclear as [|row raw Hrow _ IH]; constructor; [|exact IH].
    induction Hrow as [|b row Hb _ IHrow]; constructor; [|exact IHrow].
    rewrite Hb. reflexivity.
  - exact Hshape.
  - intros Hsize.
    assert (Hraw : gsize raw = gsize arr).
    { unfold gsize. symmetry. apply same_shape_pixels. apply same_shape_sym. exact Hshape. }
    rewrite coverage_value by (rewrite Hraw; exact Hsize).
    eexists. split; [reflexivity|]. rewrite (count_clear raw Hclear).
    unfold Qdiv. change (inject_Z (Z.of_nat 0)) with 0%Q. ring.
Qed.

End NoShadow.

Lemma no_dark_pixel_no_shadow_witness :
  no_pixel_set (Shadow.mask (Shadow.segment scenario_constants ∅ "a" (flat_raster 2 3))).
Proof.
  refine (proj1 (no_dark_pixel_no_shadow scenario_constants ∅ "a" (flat_raster 2 3)
                   _ _ eq_refl _)).
  repeat constructor.
Defined.
